(** * IDesign batch orchestration and its helper scripts

    A shallow embedding of the supervisor ([run_multiworker.py]) and of the
    worker ([run_from_csv.py]), of the pure parts of [generate_scene.py] and
    [place_in_blender.py] and of [rerender_missing.py], and the properties
    proved about them.  Python integers are [Z], lists are [list], paths and
    command-line tokens are [string]; the file system is a finite set of
    existing paths; exceptions are an error monad. *)

From stdpp Require Import base list sorting strings gmap pretty.
From Stdlib Require Import ZArith Lia Ascii.
From Stdlib Require QArith.

Open Scope Z_scope.

(* ================================================================= *)
(** * Part I: definitions *)

(** ** Python primitives used by the two scripts *)

Module Py.

(** The exceptions the two scripts can meet.  [KeyboardInterrupt] derives
    from [BaseException] only, the others from [Exception];
    [StageException] stands for any other exception deriving from
    [Exception] that a stage may raise. *)
Inductive exn : Type :=
| ZeroDivisionError
| ValueError
| KeyError (key : string)
| FileNotFoundError (path : string)
| RuntimeError (msg : string)
| StageException
| KeyboardInterrupt.

#[global] Instance exn_eq_dec : EqDecision exn.
Proof. solve_decision. Defined.

Definition is_Exception (e : exn) : bool :=
  match e with
  | KeyboardInterrupt => false
  | _ => true
  end.

Inductive result (A : Type) : Type :=
| Ok (a : A)
| Raise (e : exn).
Arguments Ok {A} a.
Arguments Raise {A} e.

#[global] Instance result_eq_dec {A} `{EqDecision A} : EqDecision (result A).
Proof. solve_decision. Defined.

Definition bind {A B} (r : result A) (k : A → result B) : result B :=
  match r with
  | Ok a => k a
  | Raise e => Raise e
  end.

(** [range(n)]: empty when [n <= 0]. *)
Definition range (n : Z) : list Z := seqZ 0 n.

(** Index normalisation of a slice bound: a negative bound counts from the
    end, and every bound is clamped to [0, len]. *)
Definition clamp_index (len i : Z) : Z :=
  if i <? 0 then Z.max 0 (i + len) else Z.min i len.

(** [l[start:stop]]. *)
Definition slice {A} (l : list A) (start stop : Z) : list A :=
  let len := Z.of_nat (length l) in
  let s := clamp_index len start in
  let e := clamp_index len stop in
  take (Z.to_nat (e - s)) (drop (Z.to_nat s) l).

(** [str(z)] for an integer. *)
Definition str (z : Z) : string := pretty z.

Fixpoint zeros (n : nat) : string :=
  match n with
  | O => ""
  | S n' => String "0" (zeros n')
  end.

(** The format [{z:03d}]: sign-aware zero padding to a width of three
    characters, the sign included ([5] gives 005, [-5] gives -05, [1234]
    gives 1234). *)
Definition format_03d (z : Z) : string :=
  let digits := pretty (Z.abs_N z) in
  if z <? 0 then "-" +:+ zeros (2 - String.length digits) +:+ digits
  else zeros (3 - String.length digits) +:+ digits.

Definition digit_value (c : ascii) : option N :=
  let n := N_of_ascii c in
  if ((48 <=? n) && (n <=? 57))%N then Some (n - 48)%N else None.

(** Value of a digit string; a single underscore is allowed between two
    digits, as in Python's integer literals. *)
Fixpoint digits_value (acc : N) (prev_digit : bool) (s : string) : option N :=
  match s with
  | "" => if prev_digit then Some acc else None
  | String c s' =>
      if Ascii.eqb c "_" then
        if prev_digit then digits_value acc false s' else None
      else
        match digit_value c with
        | Some d => digits_value (acc * 10 + d) true s'
        | None => None
        end
  end.

Fixpoint lstrip (s : string) : string :=
  match s with
  | String c s' => if Ascii.is_space c then lstrip s' else s
  | "" => ""
  end.

Fixpoint rstrip (s : string) : string :=
  match s with
  | String c s' =>
      match rstrip s' with
      | "" => if Ascii.is_space c then "" else String c ""
      | r => String c r
      end
  | "" => ""
  end.

(** [int(s)] for a string: surrounding white space is ignored, a sign is
    optional, and anything else than decimal digits raises [ValueError]. *)
Definition int (s : string) : result Z :=
  match rstrip (lstrip s) with
  | String "-" s' =>
      match digits_value 0 false s' with
      | Some n => Ok (- Z.of_N n)
      | None => Raise ValueError
      end
  | String "+" s' =>
      match digits_value 0 false s' with
      | Some n => Ok (Z.of_N n)
      | None => Raise ValueError
      end
  | s' =>
      match digits_value 0 false s' with
      | Some n => Ok (Z.of_N n)
      | None => Raise ValueError
      end
  end.

(** [min(l)] and [max(l)] raise [ValueError] on the empty list. *)
Definition min (l : list Z) : result Z :=
  match l with
  | [] => Raise ValueError
  | x :: l' => Ok (foldl Z.min x l')
  end.

Definition max (l : list Z) : result Z :=
  match l with
  | [] => Raise ValueError
  | x :: l' => Ok (foldl Z.max x l')
  end.

(** [sorted(l)] on integers. *)
Definition sorted (l : list Z) : list Z := merge_sort Z.le l.

(** [p / name] on paths (no normalisation of the operands). *)
Definition path_join (p name : string) : string := p +:+ "/" +:+ name.

(** How a script's [main()] ends, and the exit status of the interpreter:
    0 on a normal return, 1 after an uncaught exception (130 after an
    uncaught [KeyboardInterrupt]), and the given code after [sys.exit]
    (which is how [argparse] reports a usage error, with code 2). *)
Inductive outcome : Type :=
| Returned
| Uncaught (e : exn)
| SystemExit (code : Z).

#[global] Instance outcome_eq_dec : EqDecision outcome.
Proof. solve_decision. Defined.

Definition exit_code (o : outcome) : Z :=
  match o with
  | Returned => 0
  | Uncaught e => if is_Exception e then 1 else 130
  | SystemExit code => code
  end.

(** [sep.join(l)]. *)
Fixpoint join (sep : string) (l : list string) : string :=
  match l with
  | [] => ""
  | [s] => s
  | s :: l' => s +:+ sep +:+ join sep l'
  end.

(** [needle in haystack] on strings. *)
Fixpoint contains (needle haystack : string) : bool :=
  String.prefix needle haystack
  || match haystack with
     | String _ rest => contains needle rest
     | "" => false
     end.

(** [s.endswith(suffix)]. *)
Fixpoint endswith (suffix s : string) : bool :=
  String.eqb s suffix
  || match s with
     | String _ rest => endswith suffix rest
     | "" => false
     end.

(** [s.split(".")[0]]: the text before the first dot, all of [s] when it has
    none. *)
Fixpoint before_dot (s : string) : string :=
  match s with
  | "" => ""
  | String c rest => if Ascii.eqb c "." then "" else String c (before_dot rest)
  end.

(** [os.path.join(a, b)] of [posixpath]. *)
Definition os_path_join (a b : string) : string :=
  if String.prefix "/" b then b
  else if String.eqb a "" || endswith "/" a then a +:+ b
  else a +:+ "/" +:+ b.


End Py.

(** ** The command-line parser both scripts build

    A model of the part of [argparse.ArgumentParser.parse_args] that the two
    scripts rely on: optional arguments only, the actions [store],
    [store_true], [BooleanOptionalAction] and the automatic [-h/--help],
    abbreviation of long options by a unique prefix, [--opt=value], and
    [sys.exit(2)] on any usage error.  Clusters of one-letter flags are not
    modelled: they are reported as a usage error. *)

Module Argparse.

Inductive arg_type : Type := TInt | TStr.

Inductive action : Type :=
| Store (ty : arg_type)
| StoreTrue
| BooleanOptional
| Help.

Record opt : Type := {
  option_strings : list string;
  dest : string;
  act : action
}.

Inductive value : Type :=
| VInt (z : Z)
| VStr (s : string)
| VBool (b : bool).

Inductive error : Type :=
| Unrecognized (extras : list string)
| ExpectedOneArgument (option_string : string)
| InvalidInt (option_string arg : string)
| IgnoredExplicitArgument (option_string arg : string)
| AmbiguousOption (arg : string).

Inductive result (A : Type) : Type :=
| Parsed (a : A)
| Error (e : error)
| HelpExit.
Arguments Parsed {A} a.
Arguments Error {A} e.
Arguments HelpExit {A}.

(** The pattern [parse_known_args] computes for each token: ['A'] for an
    argument, ['-'] for the [--] separator, ['O'] for an option string,
    with the action found for it, if any. *)
Inductive token : Type :=
| A (arg : string)
| DashDash
| O (o : option opt) (option_string : string) (explicit_arg : option string).

Definition find_exact (p : list opt) (s : string) : option opt :=
  List.find (λ o, bool_decide (s ∈ option_strings o)) p.

(** [s.split('=', 1)] when [s] contains an equals sign. *)
Definition split_eq (s : string) : option (string * string) :=
  match String.index 0 "=" s with
  | Some i =>
      Some (String.substring 0 i s,
            String.substring (S i) (String.length s - S i) s)
  | None => None
  end.

Fixpoint all_digits (s : string) : bool :=
  match s with
  | "" => true
  | String c s' => bool_decide (is_Some (Py.digit_value c)) && all_digits s'
  end.

Fixpoint drop_digits (s : string) : string :=
  match s with
  | String c s' => if bool_decide (is_Some (Py.digit_value c)) then drop_digits s' else s
  | "" => ""
  end.

(** The regular expression [^-\d+$|^-\d*\.\d+$]. *)
Definition looks_negative_number (s : string) : bool :=
  match s with
  | String "-" s' =>
      (negb (String.eqb s' "") && all_digits s')
      || match drop_digits s' with
         | String "." frac => negb (String.eqb frac "") && all_digits frac
         | _ => false
         end
  | _ => false
  end.

Definition has_negative_number_optionals (p : list opt) : bool :=
  existsb (λ o, existsb looks_negative_number (option_strings o)) p.

Definition contains_space (s : string) : bool :=
  bool_decide (is_Some (String.index 0 " " s)).

(** [_get_option_tuples]: the options a token may abbreviate. *)
Definition option_tuples (p : list opt) (s : string)
    : list (opt * string * option string) :=
  match s with
  | String "-" (String "-" _) =>
      let '(option_prefix, explicit_arg) :=
        match split_eq s with
        | Some (pre, arg) => (pre, Some arg)
        | None => (s, None)
        end in
      o ← p; os ← option_strings o;
      if String.prefix option_prefix os then [(o, os, explicit_arg)] else []
  | String "-" _ =>
      let short_option_prefix := String.substring 0 2 s in
      let short_explicit_arg := String.substring 2 (String.length s - 2) s in
      o ← p; os ← option_strings o;
      if String.eqb os short_option_prefix then [(o, os, Some short_explicit_arg)]
      else if String.prefix s os then [(o, os, None)]
      else []
  | _ => []
  end.

Inductive classification : Type :=
| PositionalArg
| Known (o : opt) (option_string : string) (explicit_arg : option string)
| Unknown
| Ambiguous.

(** [_parse_optional]. *)
Definition parse_optional (p : list opt) (s : string) : classification :=
  match s with
  | String "-" rest =>
      match find_exact p s with
      | Some o => Known o s None
      | None =>
          match rest with
          | "" => PositionalArg
          | _ =>
              match split_eq s with
              | Some (pre, arg) =>
                  match find_exact p pre with
                  | Some o => Known o pre (Some arg)
                  | None =>
                      match option_tuples p s with
                      | _ :: _ :: _ => Ambiguous
                      | [(o, os, e)] => Known o os e
                      | [] =>
                          if looks_negative_number s
                             && negb (has_negative_number_optionals p)
                          then PositionalArg
                          else if contains_space s then PositionalArg
                          else Unknown
                      end
                  end
              | None =>
                  match option_tuples p s with
                  | _ :: _ :: _ => Ambiguous
                  | [(o, os, e)] => Known o os e
                  | [] =>
                      if looks_negative_number s
                         && negb (has_negative_number_optionals p)
                      then PositionalArg
                      else if contains_space s then PositionalArg
                      else Unknown
                  end
              end
          end
      end
  | _ => PositionalArg
  end.

Fixpoint classify (p : list opt) (argv : list string) : result (list token) :=
  match argv with
  | [] => Parsed []
  | s :: rest =>
      if String.eqb s "--" then Parsed (DashDash :: (A <$> rest))
      else
        match parse_optional p s, classify p rest with
        | Ambiguous, _ => Error (AmbiguousOption s)
        | _, Error e => Error e
        | _, HelpExit => HelpExit
        | PositionalArg, Parsed toks => Parsed (A s :: toks)
        | Known o os e, Parsed toks => Parsed (O (Some o) os e :: toks)
        | Unknown, Parsed toks => Parsed (O None s None :: toks)
        end
  end.

(** The token [classify] makes of one argument, unless it is ambiguous. *)
Definition token_of (p : list opt) (s : string) : option token :=
  match parse_optional p s with
  | PositionalArg => Some (A s)
  | Known o os e => Some (O (Some o) os e)
  | Unknown => Some (O None s None)
  | Ambiguous => None
  end.

Definition starts_with_dash (s : string) : bool :=
  match s with
  | String "-" _ => true
  | _ => false
  end.

Definition convert (ty : arg_type) (option_string arg : string) : result value :=
  match ty with
  | TStr => Parsed (VStr arg)
  | TInt =>
      match Py.int arg with
      | Py.Ok z => Parsed (VInt z)
      | Py.Raise _ => Error (InvalidInt option_string arg)
      end
  end.

(** The main loop of [parse_known_args] for a parser without positional
    arguments: every token that no option consumes is left in [extras], and
    [parse_args] rejects the command line when [extras] is not empty. *)
Fixpoint consume (toks : list token) (extras : list string)
    (acc : list (string * value)) : result (list (string * value)) :=
  match toks with
  | [] =>
      match extras with
      | [] => Parsed acc
      | _ => Error (Unrecognized extras)
      end
  | A s :: rest => consume rest (extras ++ [s]) acc
  | DashDash :: rest => consume rest (extras ++ ["--"]) acc
  | O None s _ :: rest => consume rest (extras ++ [s]) acc
  | O (Some o) os explicit_arg :: rest =>
      match act o, explicit_arg with
      | Store ty, Some arg =>
          match convert ty os arg with
          | Parsed v => consume rest extras (acc ++ [(dest o, v)])
          | Error e => Error e
          | HelpExit => HelpExit
          end
      | Store ty, None =>
          match rest with
          | A arg :: DashDash :: rest' | DashDash :: A arg :: rest'
          | A arg :: rest' =>
              match convert ty os arg with
              | Parsed v => consume rest' extras (acc ++ [(dest o, v)])
              | Error e => Error e
              | HelpExit => HelpExit
              end
          | _ => Error (ExpectedOneArgument os)
          end
      | Help, None => HelpExit
      | StoreTrue, None =>
          match rest with
          | DashDash :: rest' => consume rest' extras (acc ++ [(dest o, VBool true)])
          | _ => consume rest extras (acc ++ [(dest o, VBool true)])
          end
      | BooleanOptional, None =>
          let v := VBool (negb (String.prefix "--no-" os)) in
          match rest with
          | DashDash :: rest' => consume rest' extras (acc ++ [(dest o, v)])
          | _ => consume rest extras (acc ++ [(dest o, v)])
          end
      | _, Some arg => Error (IgnoredExplicitArgument os arg)
      end
  end.

Definition parse_args (p : list opt) (argv : list string)
    : result (list (string * value)) :=
  match classify p argv with
  | Parsed toks => consume toks [] []
  | Error e => Error e
  | HelpExit => HelpExit
  end.

(** The [-h/--help] option every parser gets. *)
Definition help : opt :=
  {| option_strings := ["-h"; "--help"]; dest := "help"; act := Help |}.

End Argparse.

(** A catalog record as [csv.DictReader] yields it: a dictionary from column
    names to the text of the cell. *)
Abbreviation row := (gmap string string).

(** ** [run_from_csv.py]

    The worker.  What it prints is kept only where a property is about it
    (the lines that report what became of an item), and the directories it
    creates with [mkdir(parents=True, exist_ok=True)] are not tracked. *)

Module RunFromCsv.

Definition CSV_FILE (home : string) : string :=
  Py.path_join home "SceneEval/input/annotations.csv".
Definition RESULTS_DIR : string := "./data/sceneval_results".
Definition BLENDER_PATH : string :=
  "/home/ubuntu/blender-4.2.0-linux-x64/blender".
Definition MAX_RETRIES : Z := 10.

(** *** Command line *)

Record args : Type := {
  csv_file : string;
  results_dir : string;
  start_id : option Z;
  end_id : option Z;
  auto : bool;
  verbose : bool;
  skip_retrieve : bool;
  skip_render : bool;
  skip_existing : bool
}.

(** The [add_argument] calls of [main], after the automatic help option. *)
Definition parser : list Argparse.opt :=
  [ Argparse.help;
    {| Argparse.option_strings := ["--csv_file"];
       Argparse.dest := "csv_file"; Argparse.act := Argparse.Store Argparse.TStr |};
    {| Argparse.option_strings := ["--results_dir"];
       Argparse.dest := "results_dir"; Argparse.act := Argparse.Store Argparse.TStr |};
    {| Argparse.option_strings := ["--start_id"];
       Argparse.dest := "start_id"; Argparse.act := Argparse.Store Argparse.TInt |};
    {| Argparse.option_strings := ["--end_id"];
       Argparse.dest := "end_id"; Argparse.act := Argparse.Store Argparse.TInt |};
    {| Argparse.option_strings := ["--auto"; "--no-auto"];
       Argparse.dest := "auto"; Argparse.act := Argparse.BooleanOptional |};
    {| Argparse.option_strings := ["--verbose"; "-v"];
       Argparse.dest := "verbose"; Argparse.act := Argparse.StoreTrue |};
    {| Argparse.option_strings := ["--skip_retrieve"];
       Argparse.dest := "skip_retrieve"; Argparse.act := Argparse.StoreTrue |};
    {| Argparse.option_strings := ["--skip_render"];
       Argparse.dest := "skip_render"; Argparse.act := Argparse.StoreTrue |};
    {| Argparse.option_strings := ["--skip_existing"];
       Argparse.dest := "skip_existing"; Argparse.act := Argparse.StoreTrue |} ].

Definition default_args (home : string) : args :=
  {| csv_file := CSV_FILE home; results_dir := RESULTS_DIR;
     start_id := None; end_id := None; auto := true; verbose := false;
     skip_retrieve := false; skip_render := false; skip_existing := false |}.

Definition set_arg (a : args) (kv : string * Argparse.value) : args :=
  let '(Build_args csv res st en au ve sre sren sex) := a in
  match kv with
  | ("csv_file", Argparse.VStr v) => Build_args v res st en au ve sre sren sex
  | ("results_dir", Argparse.VStr v) => Build_args csv v st en au ve sre sren sex
  | ("start_id", Argparse.VInt v) => Build_args csv res (Some v) en au ve sre sren sex
  | ("end_id", Argparse.VInt v) => Build_args csv res st (Some v) au ve sre sren sex
  | ("auto", Argparse.VBool v) => Build_args csv res st en v ve sre sren sex
  | ("verbose", Argparse.VBool v) => Build_args csv res st en au v sre sren sex
  | ("skip_retrieve", Argparse.VBool v) => Build_args csv res st en au ve v sren sex
  | ("skip_render", Argparse.VBool v) => Build_args csv res st en au ve sre v sex
  | ("skip_existing", Argparse.VBool v) => Build_args csv res st en au ve sre sren v
  | _ => a
  end.

Definition parse_args (home : string) (argv : list string) : Argparse.result args :=
  match Argparse.parse_args parser argv with
  | Argparse.Parsed kvs => Argparse.Parsed (foldl set_arg (default_args home) kvs)
  | Argparse.Error e => Argparse.Error e
  | Argparse.HelpExit => Argparse.HelpExit
  end.

(** *** The world a worker runs in *)

Inductive stage : Type := Generate | Retrieve | Blender.

(** What a run leaves behind, in order: the external stage invocations, the
    check of the terminal artifact after a render, and the lines that report
    what became of an item. *)
Inductive event : Type :=
| Invoke (s : stage) (row_index : nat) (prompt_id attempt : Z)
| VerifyRender (row_index : nat) (prompt_id attempt : Z)
| LogCompleted (prompt_id attempt : Z)
| LogAttemptFailed (prompt_id attempt : Z) (e : Py.exn)
| LogGaveUp (prompt_id : Z)
| LogSkipping (prompt_id : Z).

#[global] Instance stage_eq_dec : EqDecision stage.
Proof. solve_decision. Defined.

#[global] Instance event_eq_dec : EqDecision event.
Proof. solve_decision. Defined.

(** The external collaborators.  A stage invocation is identified by the
    position of the record in the catalog and by the attempt number, so any
    deterministic behaviour of the stages is an instance.
    [generate_scene] returns ([None]) or raises; the two subprocesses end
    with a return code; a Blender run may write [render.png] into the
    scene directory.  Files are created by the stages and never removed. *)
Record env : Type := {
  home : string;
  script_dir : string;
  read_csv : string → option (list row);
  generate_scene : nat → Z → option Py.exn;
  retrieve_returncode : nat → Z → Z;
  blender_returncode : nat → Z → Z;
  blender_writes_render : nat → Z → bool
}.

(** The state a run threads: the existing paths, the trace, and the three
    counters of [main]. *)
Record state : Type := {
  files : gset string;
  trace : list event;
  successful : Z;
  failed : Z;
  skipped : Z
}.

#[global] Instance state_eq_dec : EqDecision state.
Proof. solve_decision. Defined.

Definition initial (fs : gset string) : state :=
  {| files := fs; trace := []; successful := 0; failed := 0; skipped := 0 |}.

Definition log (ev : event) (st : state) : state :=
  {| files := files st; trace := trace st ++ [ev];
     successful := successful st; failed := failed st; skipped := skipped st |}.

Definition write_file (path : string) (st : state) : state :=
  {| files := {[path]} ∪ files st; trace := trace st;
     successful := successful st; failed := failed st; skipped := skipped st |}.

Definition incr_successful (st : state) : state :=
  {| files := files st; trace := trace st;
     successful := successful st + 1; failed := failed st; skipped := skipped st |}.

Definition incr_failed (st : state) : state :=
  {| files := files st; trace := trace st;
     successful := successful st; failed := failed st + 1; skipped := skipped st |}.

Definition incr_skipped (st : state) : state :=
  {| files := files st; trace := trace st;
     successful := successful st; failed := failed st; skipped := skipped st + 1 |}.

(** [Path(p).exists()]. *)
Definition path_exists (st : state) (path : string) : bool :=
  bool_decide (path ∈ files st).

(** The three counters printed at the end of [main]. *)
Definition summary_of (st : state) : Z * Z * Z :=
  (successful st, failed st, skipped st).

(** *** The stages *)

Definition run_retrieve (e : env) (i : nat) (prompt_id attempt : Z)
    (st : state) : bool * state :=
  let retrieve_script := Py.path_join (script_dir e) "retrieve.py" in
  if negb (path_exists st retrieve_script) then (false, st)
  else
    let st := log (Invoke Retrieve i prompt_id attempt) st in
    if negb (retrieve_returncode e i attempt =? 0) then (false, st)
    else (true, st).

Definition run_blender (e : env) (i : nat) (prompt_id attempt : Z)
    (render_file : string) (st : state) : bool * state :=
  let blender_script := Py.path_join (script_dir e) "place_in_blender.py" in
  if negb (path_exists st blender_script) then (false, st)
  else if negb (path_exists st BLENDER_PATH) then (false, st)
  else
    let st := log (Invoke Blender i prompt_id attempt) st in
    let st := if blender_writes_render e i attempt
              then write_file render_file st else st in
    if negb (blender_returncode e i attempt =? 0) then (false, st)
    else (true, st).

(** *** One attempt: the body of the [try] block *)

Inductive attempt_result : Type :=
| Completed
| Raised (ex : Py.exn).

#[global] Instance attempt_result_eq_dec : EqDecision attempt_result.
Proof. solve_decision. Defined.

Definition attempt (e : env) (a : args) (i : nat) (prompt_id : Z)
    (render_file : string) (k : Z) (st : state) : attempt_result * state :=
  (* Stage 1: generate the scene graph *)
  let st := log (Invoke Generate i prompt_id k) st in
  match generate_scene e i k with
  | Some ex => (Raised ex, st)
  | None =>
      (* Stage 2: retrieve assets *)
      let '(retrieved, st) :=
        if negb (skip_retrieve a) then run_retrieve e i prompt_id k st
        else (true, st) in
      if negb retrieved then (Raised (Py.RuntimeError "Asset retrieval failed"), st)
      else
        (* Stage 3: render in Blender *)
        if negb (skip_render a) then
          let '(rendered, st) := run_blender e i prompt_id k render_file st in
          if negb rendered
          then (Raised (Py.RuntimeError "Blender rendering failed"), st)
          else
            let st := log (VerifyRender i prompt_id k) st in
            if negb (path_exists st render_file)
            then (Raised (Py.RuntimeError
                            "render.png not found after Blender execution"), st)
            else (Completed, st)
        else (Completed, st)
  end.

(** *** The retry loop: [for attempt in range(1, MAX_RETRIES + 1)]

    [except Exception] does not catch an exception that derives from
    [BaseException] only; such an exception leaves the loop. *)
Fixpoint retry_loop (e : env) (a : args) (i : nat) (prompt_id : Z)
    (render_file : string) (attempts : list Z) (st : state)
    : Py.result unit * state :=
  match attempts with
  | [] => (Py.Ok (), st)
  | k :: attempts' =>
      match attempt e a i prompt_id render_file k st with
      | (Completed, st) =>
          (Py.Ok (), incr_successful (log (LogCompleted prompt_id k) st))
      | (Raised ex, st) =>
          if Py.is_Exception ex then
            let st := log (LogAttemptFailed prompt_id k ex) st in
            if k =? MAX_RETRIES then
              retry_loop e a i prompt_id render_file attempts'
                (incr_failed (log (LogGaveUp prompt_id) st))
            else retry_loop e a i prompt_id render_file attempts' st
          else (Py.Raise ex, st)
      end
  end.

(** The state the loop reaches when the [n] attempts numbered from [k] on
    all fail with an exception the handler catches, none of them the last
    of the budget; [None] when one of them does not fail so. *)
Fixpoint after_failed_attempts (e : env) (a : args) (i : nat) (prompt_id : Z)
    (render_file : string) (n : nat) (k : Z) (st : state) : option state :=
  match n with
  | O => Some st
  | S n' =>
      match attempt e a i prompt_id render_file k st with
      | (Raised ex, st) =>
          if Py.is_Exception ex && negb (k =? MAX_RETRIES) then
            after_failed_attempts e a i prompt_id render_file n' (k + 1)
              (log (LogAttemptFailed prompt_id k ex) st)
          else None
      | (Completed, _) => None
      end
  end.

(** The attempt numbers with which stage 1 was invoked for the record at
    position [i], in order. *)
Definition attempts_made (i : nat) (tr : list event) : list Z :=
  omap (λ ev, match ev with
              | Invoke Generate j _ k => if decide (j = i) then Some k else None
              | _ => None
              end) tr.

(** The stage invocations and checks of an attempt in which every enabled
    stage succeeds. *)
Definition full_attempt (a : args) (i : nat) (prompt_id k : Z) : list event :=
  [Invoke Generate i prompt_id k]
  ++ (if skip_retrieve a then [] else [Invoke Retrieve i prompt_id k])
  ++ (if skip_render a then []
      else [Invoke Blender i prompt_id k; VerifyRender i prompt_id k]).

(** An external stage invocation for the item [prompt_id]. *)
Definition invokes (prompt_id : Z) (ev : event) : Prop :=
  match ev with
  | Invoke _ _ p _ => p = prompt_id
  | _ => False
  end.

(** *** The loop over the catalog: [for i, row in enumerate(prompts)] *)

Definition scene_dir (results_dir : string) (prompt_id : Z) : string :=
  Py.path_join results_dir ("scene_" +:+ Py.format_03d prompt_id).

Definition render_file (results_dir : string) (prompt_id : Z) : string :=
  Py.path_join (scene_dir results_dir prompt_id) "render.png".

Definition below_start (a : args) (prompt_id : Z) : bool :=
  match start_id a with
  | Some s => prompt_id <? s
  | None => false
  end.

Definition above_end (a : args) (prompt_id : Z) : bool :=
  match end_id a with
  | Some s => prompt_id >? s
  | None => false
  end.

(** The range filter of the loop: neither of the two [continue] branches is
    taken. *)
Definition in_range (a : args) (prompt_id : Z) : bool :=
  negb (below_start a prompt_id) && negb (above_end a prompt_id).

Definition process_row (e : env) (a : args) (i : nat) (r : row) (st : state)
    : Py.result unit * state :=
  match r !! "ID" with
  | None => (Py.Raise (Py.KeyError "ID"), st)
  | Some id_text =>
      match Py.int id_text with
      | Py.Raise ex => (Py.Raise ex, st)
      | Py.Ok prompt_id =>
          (* Filter by ID range *)
          if below_start a prompt_id then (Py.Ok (), incr_skipped st)
          else if above_end a prompt_id then (Py.Ok (), incr_skipped st)
          else
            match r !! "Description" with
            | None => (Py.Raise (Py.KeyError "Description"), st)
            | Some description =>
                let render_file := render_file (results_dir a) prompt_id in
                (* Skip if render already exists *)
                if skip_existing a && path_exists st render_file
                then (Py.Ok (), incr_skipped (log (LogSkipping prompt_id) st))
                else
                  retry_loop e a i prompt_id render_file
                    (seqZ 1 MAX_RETRIES) st
            end
      end
  end.

Fixpoint for_rows (e : env) (a : args) (i : nat) (prompts : list row)
    (st : state) : Py.result unit * state :=
  match prompts with
  | [] => (Py.Ok (), st)
  | r :: prompts' =>
      match process_row e a i r st with
      | (Py.Ok _, st) => for_rows e a (S i) prompts' st
      | (Py.Raise ex, st) => (Py.Raise ex, st)
      end
  end.

(** The part of [main] after the command line is parsed. *)
Definition run (e : env) (a : args) (fs : gset string) : Py.outcome * state :=
  match read_csv e (csv_file a) with
  | None => (Py.Uncaught (Py.FileNotFoundError (csv_file a)), initial fs)
  | Some prompts =>
      match for_rows e a 0 prompts (initial fs) with
      | (Py.Ok _, st) => (Py.Returned, st)
      | (Py.Raise ex, st) => (Py.Uncaught ex, st)
      end
  end.

(** [main()], run with [sys.argv[1:] = argv]. *)
Definition main (e : env) (argv : list string) (fs : gset string)
    : Py.outcome * state :=
  match parse_args (home e) argv with
  | Argparse.Parsed a => run e a fs
  | Argparse.Error _ => (Py.SystemExit 2, initial fs)
  | Argparse.HelpExit => (Py.SystemExit 0, initial fs)
  end.

(** *** What a run shows *)

(** The events that show the subprocess of a stage at work: its invocation
    and, for the render stage, the check of [render.png]. *)
Definition uses_stage (s : stage) (ev : event) : Prop :=
  match ev with
  | Invoke s' _ _ _ => s' = s
  | VerifyRender _ _ _ => s = Blender
  | _ => False
  end.

(** A record a run with [--skip_existing] has nothing to do for: its ID is
    outside the range, or its [render.png] exists. *)
Definition settled (a : args) (fs : gset string) (r : row) : Prop :=
  ∃ id_text pid,
    r !! "ID" = Some id_text ∧ Py.int id_text = Py.Ok pid
    ∧ (below_start a pid = true ∨ above_end a pid = true
       ∨ (is_Some (r !! "Description")
          ∧ render_file (results_dir a) pid ∈ fs)).

(** What an event presupposes: a stage is only started, and the render only
    checked, in an attempt in which the stages before it have succeeded. *)
Definition follows_success (e : env) (a : args) (ev : event) : Prop :=
  match ev with
  | Invoke Generate _ _ _ => True
  | Invoke Retrieve i _ k => generate_scene e i k = None
  | Invoke Blender i _ k =>
      generate_scene e i k = None
      ∧ (skip_retrieve a = false → retrieve_returncode e i k = 0)
  | VerifyRender i _ k =>
      generate_scene e i k = None
      ∧ (skip_retrieve a = false → retrieve_returncode e i k = 0)
      ∧ blender_returncode e i k = 0
  | _ => True
  end.


End RunFromCsv.

(** ** [run_multiworker.py]

    The supervisor.  Of what it prints only the final summary is kept; the
    log directory and the per-worker log files are not tracked. *)

Module Multiworker.

(** The body of the [for i in range(num_workers)] loop of [divide_work];
    [start] and [chunks] are the two variables the loop mutates. *)
Fixpoint divide_work_loop {A} (scene_ids : list A) (chunk_size remainder : Z)
    (workers : list Z) (start : Z) (chunks : list (list A)) : list (list A) :=
  match workers with
  | [] => chunks
  | i :: workers' =>
      let size := chunk_size + (if i <? remainder then 1 else 0) in
      divide_work_loop scene_ids chunk_size remainder workers'
        (start + size) (chunks ++ [Py.slice scene_ids start (start + size)])
  end.

(** [divide_work(scene_ids, num_workers)].  [//] and [%] are floor division
    and its remainder, as [Z.div] and [Z.modulo]; both raise on a zero
    divisor. *)
Definition divide_work {A} (scene_ids : list A) (num_workers : Z)
    : Py.result (list (list A)) :=
  let n := Z.of_nat (length scene_ids) in
  if num_workers =? 0 then Py.Raise Py.ZeroDivisionError else
  let chunk_size := n `div` num_workers in
  let remainder := n `mod` num_workers in
  Py.Ok (divide_work_loop scene_ids chunk_size remainder
           (Py.range num_workers) 0 []).

(** Index in the input of the first item of worker [i]'s chunk. *)
Definition chunk_offset (chunk_size remainder i : Z) : Z :=
  i * chunk_size + Z.min i remainder.

Definition CSV_FILE (home : string) : string :=
  Py.path_join home "SceneEval/input/annotations.csv".
Definition RESULTS_DIR (home : string) : string :=
  Py.path_join home "efs/nicholas/scene-agent-eval-scenes/IDesign".

(** *** Command line *)

Record args : Type := {
  num_workers : Z;
  csv_file : string;
  results_dir : string;
  start_id : option Z;
  end_id : option Z;
  skip_existing : bool;
  skip_retrieve : bool;
  skip_render : bool;
  timeout : Z;
  dry_run : bool
}.

Definition parser : list Argparse.opt :=
  [ Argparse.help;
    {| Argparse.option_strings := ["--num_workers"; "-n"];
       Argparse.dest := "num_workers"; Argparse.act := Argparse.Store Argparse.TInt |};
    {| Argparse.option_strings := ["--csv_file"];
       Argparse.dest := "csv_file"; Argparse.act := Argparse.Store Argparse.TStr |};
    {| Argparse.option_strings := ["--results_dir"];
       Argparse.dest := "results_dir"; Argparse.act := Argparse.Store Argparse.TStr |};
    {| Argparse.option_strings := ["--start_id"];
       Argparse.dest := "start_id"; Argparse.act := Argparse.Store Argparse.TInt |};
    {| Argparse.option_strings := ["--end_id"];
       Argparse.dest := "end_id"; Argparse.act := Argparse.Store Argparse.TInt |};
    {| Argparse.option_strings := ["--skip_existing"];
       Argparse.dest := "skip_existing"; Argparse.act := Argparse.StoreTrue |};
    {| Argparse.option_strings := ["--skip_retrieve"];
       Argparse.dest := "skip_retrieve"; Argparse.act := Argparse.StoreTrue |};
    {| Argparse.option_strings := ["--skip_render"];
       Argparse.dest := "skip_render"; Argparse.act := Argparse.StoreTrue |};
    {| Argparse.option_strings := ["--timeout"];
       Argparse.dest := "timeout"; Argparse.act := Argparse.Store Argparse.TInt |};
    {| Argparse.option_strings := ["--dry_run"];
       Argparse.dest := "dry_run"; Argparse.act := Argparse.StoreTrue |} ].

Definition default_args (home : string) : args :=
  {| num_workers := 3; csv_file := CSV_FILE home; results_dir := RESULTS_DIR home;
     start_id := None; end_id := None; skip_existing := false;
     skip_retrieve := false; skip_render := false; timeout := 3600;
     dry_run := false |}.

Definition set_arg (a : args) (kv : string * Argparse.value) : args :=
  let '(Build_args nw csv res st en sex sre sren tmo dry) := a in
  match kv with
  | ("num_workers", Argparse.VInt v) => Build_args v csv res st en sex sre sren tmo dry
  | ("csv_file", Argparse.VStr v) => Build_args nw v res st en sex sre sren tmo dry
  | ("results_dir", Argparse.VStr v) => Build_args nw csv v st en sex sre sren tmo dry
  | ("start_id", Argparse.VInt v) => Build_args nw csv res (Some v) en sex sre sren tmo dry
  | ("end_id", Argparse.VInt v) => Build_args nw csv res st (Some v) sex sre sren tmo dry
  | ("skip_existing", Argparse.VBool v) => Build_args nw csv res st en v sre sren tmo dry
  | ("skip_retrieve", Argparse.VBool v) => Build_args nw csv res st en sex v sren tmo dry
  | ("skip_render", Argparse.VBool v) => Build_args nw csv res st en sex sre v tmo dry
  | ("timeout", Argparse.VInt v) => Build_args nw csv res st en sex sre sren v dry
  | ("dry_run", Argparse.VBool v) => Build_args nw csv res st en sex sre sren tmo v
  | _ => a
  end.

Definition parse_args (home : string) (argv : list string) : Argparse.result args :=
  match Argparse.parse_args parser argv with
  | Argparse.Parsed kvs => Argparse.Parsed (foldl set_arg (default_args home) kvs)
  | Argparse.Error e => Argparse.Error e
  | Argparse.HelpExit => Argparse.HelpExit
  end.

(** *** The work-item source *)

(** [[int(row["ID"]) for row in reader]]. *)
Fixpoint read_ids (prompts : list row) : Py.result (list Z) :=
  match prompts with
  | [] => Py.Ok []
  | r :: prompts' =>
      match r !! "ID" with
      | None => Py.Raise (Py.KeyError "ID")
      | Some id_text =>
          match Py.int id_text with
          | Py.Raise ex => Py.Raise ex
          | Py.Ok i =>
              match read_ids prompts' with
              | Py.Ok ids => Py.Ok (i :: ids)
              | Py.Raise ex => Py.Raise ex
              end
          end
      end
  end.

Definition get_scene_ids (prompts : list row) (start_id end_id : option Z)
    : Py.result (list Z) :=
  match read_ids prompts with
  | Py.Raise ex => Py.Raise ex
  | Py.Ok ids =>
      let ids := match start_id with
                 | Some s => filter (λ i, s ≤ i) ids
                 | None => ids
                 end in
      let ids := match end_id with
                 | Some s => filter (λ i, i ≤ s) ids
                 | None => ids
                 end in
      Py.Ok (Py.sorted ids)
  end.

Definition render_file (results_dir : string) (scene_id : Z) : string :=
  Py.path_join (Py.path_join results_dir ("scene_" +:+ Py.format_03d scene_id))
    "render.png".

Fixpoint filter_incomplete_loop (fs : gset string) (results_dir : string)
    (scene_ids incomplete : list Z) : list Z :=
  match scene_ids with
  | [] => incomplete
  | scene_id :: scene_ids' =>
      if negb (bool_decide (render_file results_dir scene_id ∈ fs))
      then filter_incomplete_loop fs results_dir scene_ids' (incomplete ++ [scene_id])
      else filter_incomplete_loop fs results_dir scene_ids' incomplete
  end.

(** [filter_incomplete_scenes(scene_ids, results_dir)], on the file system
    [fs]. *)
Definition filter_incomplete_scenes (fs : gset string) (scene_ids : list Z)
    (results_dir : string) : list Z :=
  filter_incomplete_loop fs results_dir scene_ids [].

(** *** Worker processes *)

(** The command line of the worker for one chunk. *)
Definition worker_cmd (executable script_dir : string) (a : args)
    (chunk : list Z) : Py.result (list string) :=
  Py.bind (Py.min chunk) (λ lo,
  Py.bind (Py.max chunk) (λ hi,
  Py.Ok ([ executable; Py.path_join script_dir "run_from_csv.py";
           "--csv_file"; csv_file a;
           "--results_dir"; results_dir a;
           "--start_id"; Py.str lo;
           "--end_id"; Py.str hi;
           "--timeout"; Py.str (timeout a) ]
         ++ (if skip_existing a then ["--skip_existing"] else [])
         ++ (if skip_retrieve a then ["--skip_retrieve"] else [])
         ++ (if skip_render a then ["--skip_render"] else [])))).

(** A child process: alive, with the number of polling intervals it still
    runs for ([None]: it never ends by itself) and the code it will exit
    with; or sent SIGTERM, which a worker does not handle and dies of; or
    exited. *)
Inductive proc_state : Type :=
| Alive (lifetime : option nat) (code : Z)
| Signalled
| Exited (returncode : Z).

#[global] Instance proc_state_eq_dec : EqDecision proc_state.
Proof. solve_decision. Defined.

Definition SIGTERM : Z := 15.

(** [proc.poll()], and [proc.returncode] after it. *)
Definition poll (p : proc_state) : option Z :=
  match p with
  | Exited ret => Some ret
  | _ => None
  end.

(** [proc.terminate()]: no signal is sent to a process that has exited. *)
Definition terminate (p : proc_state) : proc_state :=
  match p with
  | Alive _ _ => Signalled
  | _ => p
  end.

(** [proc.wait()] returns once the process has exited; [None]: it blocks
    for ever. *)
Definition wait (p : proc_state) : option proc_state :=
  match p with
  | Alive (Some _) code => Some (Exited code)
  | Alive None _ => None
  | Signalled => Some (Exited (- SIGTERM))
  | Exited ret => Some (Exited ret)
  end.

(** The passing of one polling interval, [time.sleep(10)]. *)
Definition tick (p : proc_state) : proc_state :=
  match p with
  | Alive (Some O) code => Exited code
  | Alive (Some (S n)) code => Alive (Some n) code
  | Alive None code => Alive None code
  | Signalled => Exited (- SIGTERM)
  | Exited ret => Exited ret
  end.

(** The state [proc.wait()] leaves a process in, when it returns. *)
Definition reaped (p : proc_state) : proc_state :=
  match p with
  | Alive _ code => Exited code
  | Signalled => Exited (- SIGTERM)
  | Exited ret => Exited ret
  end.


(** The number of polling intervals after which a process has exited, when
    it ends at all. *)
Definition intervals_left (p : proc_state) : option nat :=
  match p with
  | Alive (Some n) _ => Some (S n)
  | Alive None _ => None
  | Signalled => Some 1%nat
  | Exited _ => Some 0%nat
  end.

(** An entry of [processes]. *)
Record worker : Type := {
  worker_id : nat;
  cmd : list string;
  proc : proc_state;
  chunk : list Z
}.

#[global] Instance worker_eq_dec : EqDecision worker.
Proof. solve_decision. Defined.

Definition on_proc (f : proc_state → proc_state) (w : worker) : worker :=
  {| worker_id := worker_id w; cmd := cmd w; proc := f (proc w);
     chunk := chunk w |}.

Definition wait_worker (w : worker) : option worker :=
  p ← wait (proc w);
  Some {| worker_id := worker_id w; cmd := cmd w; proc := p; chunk := chunk w |}.

Record env : Type := {
  home : string;
  executable : string;
  script_dir : string;
  read_csv : string → option (list row);
  files : gset string;
  (** the process that [subprocess.Popen(cmd)] starts *)
  spawn : list string → proc_state
}.

(** When a [KeyboardInterrupt] is raised in the supervisor, if at all:
    in the launch loop or just after it, once [spawned] workers have been
    started; or in the monitoring loop, in the [sleep] that follows the
    [polls]-th poll that found a worker running. *)
Inductive interrupt : Type :=
| NoInterrupt
| WhileLaunching (spawned : nat)
| WhileMonitoring (polls : nat).

Definition interrupted_at_launch (intr : interrupt) (processes : list worker) : bool :=
  match intr with
  | WhileLaunching spawned => bool_decide (spawned = length processes)
  | _ => false
  end.

(** The launch loop: [for i, chunk in enumerate(work_chunks)]. *)
Fixpoint launch (e : env) (a : args) (intr : interrupt) (i : nat)
    (work_chunks : list (list Z)) (processes : list worker)
    : Py.result unit * list worker :=
  match work_chunks with
  | [] => (Py.Ok (), processes)
  | chunk :: work_chunks' =>
      if interrupted_at_launch intr processes
      then (Py.Raise Py.KeyboardInterrupt, processes)
      else
        match chunk with
        | [] => launch e a intr (S i) work_chunks' processes
        | _ =>
            match worker_cmd (executable e) (script_dir e) a chunk with
            | Py.Raise ex => (Py.Raise ex, processes)
            | Py.Ok cmd =>
                launch e a intr (S i) work_chunks'
                  (processes ++ [ {| worker_id := i; cmd := cmd;
                                     proc := spawn e cmd; chunk := chunk |} ])
            end
        end
  end.

Inductive monitored : Type :=
| AllDone (processes : list worker)
| Interrupted (processes : list worker).

(** The monitoring loop, [while True], for at most [fuel] polls. *)
Fixpoint monitor (fuel : nat) (intr : interrupt) (polls : nat)
    (processes : list worker) : option monitored :=
  match fuel with
  | O => None
  | S fuel' =>
      let all_done :=
        forallb (λ w, bool_decide (is_Some (poll (proc w)))) processes in
      if all_done then Some (AllDone processes)
      else
        match intr with
        | WhileMonitoring n =>
            if bool_decide (n = polls) then Some (Interrupted processes)
            else monitor fuel' intr (S polls) (on_proc tick <$> processes)
        | _ => monitor fuel' intr (S polls) (on_proc tick <$> processes)
        end
  end.

(** The handler of [KeyboardInterrupt]: terminate all, then wait for all. *)
Definition cancel (processes : list worker) : option (list worker) :=
  mapM wait_worker (on_proc terminate <$> processes).

(** The line of the final summary for a worker. *)
Definition status (ret : option Z) : string :=
  match ret with
  | Some 0 => "SUCCESS"
  | Some ret => "FAILED (exit code " +:+ Py.str ret +:+ ")"
  | None => "FAILED (exit code None)"
  end.

Record run_result : Type := {
  outcome : Py.outcome;
  workers : list worker;
  summary : list (nat * string)
}.

Definition no_workers (o : Py.outcome) : run_result :=
  {| outcome := o; workers := []; summary := [] |}.

(** The scene IDs [main] partitions. *)
Definition scenes_to_process (e : env) (a : args) (prompts : list row)
    : Py.result (list Z) :=
  Py.bind (get_scene_ids prompts (start_id a) (end_id a)) (λ all_scene_ids,
  Py.Ok (if skip_existing a
         then filter_incomplete_scenes (files e) all_scene_ids (results_dir a)
         else all_scene_ids)).

(** The part of [main] after the command line is parsed; [None] when the
    supervisor is still waiting after [fuel] polls. *)
Definition run (e : env) (a : args) (intr : interrupt) (fuel : nat)
    : option run_result :=
  match read_csv e (csv_file a) with
  | None => Some (no_workers (Py.Uncaught (Py.FileNotFoundError (csv_file a))))
  | Some prompts =>
      match scenes_to_process e a prompts with
      | Py.Raise ex => Some (no_workers (Py.Uncaught ex))
      | Py.Ok [] => Some (no_workers Py.Returned)
      | Py.Ok scene_ids =>
          match divide_work scene_ids (num_workers a) with
          | Py.Raise ex => Some (no_workers (Py.Uncaught ex))
          | Py.Ok work_chunks =>
              if dry_run a then Some (no_workers Py.Returned)
              else
                match launch e a intr 0 work_chunks [] with
                | (Py.Raise ex, processes) =>
                    Some {| outcome := Py.Uncaught ex; workers := processes;
                            summary := [] |}
                | (Py.Ok _, processes) =>
                    if interrupted_at_launch intr processes
                    then Some {| outcome := Py.Uncaught Py.KeyboardInterrupt;
                                 workers := processes; summary := [] |}
                    else
                      match monitor fuel intr 0 processes with
                      | None => None
                      | Some (Interrupted processes) =>
                          processes ← cancel processes;
                          Some {| outcome := Py.Returned; workers := processes;
                                  summary := [] |}
                      | Some (AllDone processes) =>
                          Some {| outcome := Py.Returned; workers := processes;
                                  summary :=
                                    (λ w, (worker_id w, status (poll (proc w))))
                                      <$> processes |}
                      end
                end
          end
      end
  end.

(** [main()], run with [sys.argv[1:] = argv]. *)
Definition main (e : env) (argv : list string) (intr : interrupt) (fuel : nat)
    : option run_result :=
  match parse_args (home e) argv with
  | Argparse.Parsed a => run e a intr fuel
  | Argparse.Error _ => Some (no_workers (Py.SystemExit 2))
  | Argparse.HelpExit => Some (no_workers (Py.SystemExit 0))
  end.

(** *** The dry run *)

(** The two bounds of [get_scene_ids], [i >= start_id] and [i <= end_id],
    each when it is given. *)
Definition selected (start_id end_id : option Z) (i : Z) : bool :=
  match start_id with Some s => s <=? i | None => true end
  && match end_id with Some s => i <=? s | None => true end.

(** The command a dry run prints for one chunk. *)
Definition dry_run_cmd (executable script_dir : string) (a : args)
    (chunk : list Z) : Py.result (list string) :=
  Py.bind (Py.min chunk) (λ lo,
  Py.bind (Py.max chunk) (λ hi,
  let cmd := [ executable; Py.path_join script_dir "run_from_csv.py";
               "--csv_file"; csv_file a;
               "--results_dir"; results_dir a;
               "--start_id"; Py.str lo;
               "--end_id"; Py.str hi;
               "--timeout"; Py.str (timeout a) ] in
  let cmd := if skip_existing a then cmd ++ ["--skip_existing"] else cmd in
  let cmd := if skip_retrieve a then cmd ++ ["--skip_retrieve"] else cmd in
  let cmd := if skip_render a then cmd ++ ["--skip_render"] else cmd in
  Py.Ok cmd)).

(** The loop of the dry run, [for i, chunk in enumerate(work_chunks)]: the
    worker index and the command of every line it prints. *)
Fixpoint dry_run_loop (e : env) (a : args) (i : nat)
    (work_chunks : list (list Z)) (printed : list (nat * string))
    : Py.result (list (nat * string)) :=
  match work_chunks with
  | [] => Py.Ok printed
  | chunk :: work_chunks' =>
      match chunk with
      | [] => dry_run_loop e a (S i) work_chunks' printed
      | _ =>
          match dry_run_cmd (executable e) (script_dir e) a chunk with
          | Py.Raise ex => Py.Raise ex
          | Py.Ok cmd =>
              dry_run_loop e a (S i) work_chunks'
                (printed ++ [(i, Py.join " " cmd)])
          end
      end
  end.


End Multiworker.

(** ** The two scripts together *)

(** The process the supervisor starts with [command]: the interpreter
    running [run_from_csv.py] on the arguments that follow the script name.
    It has exited by the time of the second poll. *)
Definition worker_process (we : RunFromCsv.env) (fs : gset string)
    (command : list string) : Multiworker.proc_state :=
  Multiworker.Alive (Some 0%nat)
    (Py.exit_code (RunFromCsv.main we (drop 2 command) fs).1).

(** ** [generate_scene.py]: the room presets *)

Module GenerateScene.

(** A float literal of the source, as the rational it denotes. *)
Abbreviation float := QArith_base.Q.

Record config : Type := {
  dimensions : list float;
  objects : Z
}.

(** The [ROOM_PRESETS] dictionary, in insertion order. *)
Definition ROOM_PRESETS : list (string * config) :=
  [ ("bedroom",
     {| dimensions := [QArith_base.Qmake 4 1; QArith_base.Qmake 4 1;
                       QArith_base.Qmake 5 2];
        objects := 12 |});
    ("living room",
     {| dimensions := [QArith_base.Qmake 5 1; QArith_base.Qmake 5 1;
                       QArith_base.Qmake 5 2];
        objects := 15 |});
    ("livingroom",
     {| dimensions := [QArith_base.Qmake 5 1; QArith_base.Qmake 5 1;
                       QArith_base.Qmake 5 2];
        objects := 15 |});
    ("office",
     {| dimensions := [QArith_base.Qmake 7 2; QArith_base.Qmake 7 2;
                       QArith_base.Qmake 5 2];
        objects := 10 |});
    ("home office",
     {| dimensions := [QArith_base.Qmake 7 2; QArith_base.Qmake 7 2;
                       QArith_base.Qmake 5 2];
        objects := 10 |});
    ("kitchen",
     {| dimensions := [QArith_base.Qmake 4 1; QArith_base.Qmake 7 2;
                       QArith_base.Qmake 5 2];
        objects := 12 |});
    ("dining room",
     {| dimensions := [QArith_base.Qmake 4 1; QArith_base.Qmake 4 1;
                       QArith_base.Qmake 5 2];
        objects := 10 |});
    ("bathroom",
     {| dimensions := [QArith_base.Qmake 5 2; QArith_base.Qmake 2 1;
                       QArith_base.Qmake 5 2];
        objects := 6 |});
    ("studio",
     {| dimensions := [QArith_base.Qmake 6 1; QArith_base.Qmake 5 1;
                       QArith_base.Qmake 5 2];
        objects := 18 |});
    ("nursery",
     {| dimensions := [QArith_base.Qmake 7 2; QArith_base.Qmake 7 2;
                       QArith_base.Qmake 5 2];
        objects := 10 |});
    ("kids room",
     {| dimensions := [QArith_base.Qmake 4 1; QArith_base.Qmake 4 1;
                       QArith_base.Qmake 5 2];
        objects := 12 |}) ].

Definition DEFAULT_CONFIG : config :=
  {| dimensions := [QArith_base.Qmake 4 1; QArith_base.Qmake 4 1;
                    QArith_base.Qmake 5 2];
     objects := 12 |}.

(** The line [detect_room_type] prints. *)
Inductive message : Type :=
| DetectedRoomType (room_type : string)
| NoRoomTypeDetected.

(** [for room_type, config in ROOM_PRESETS.items()]. *)
Fixpoint detect_loop (presets : list (string * config)) (prompt_lower : string)
    : message * config :=
  match presets with
  | [] => (NoRoomTypeDetected, DEFAULT_CONFIG)
  | (room_type, config) :: presets' =>
      if Py.contains room_type prompt_lower
      then (DetectedRoomType room_type, config)
      else detect_loop presets' prompt_lower
  end.

(** [detect_room_type(prompt)]: what it prints and what it returns.
    [lower] is [str.lower]. *)
Definition detect_room_type (lower : string → string) (prompt : string)
    : message * config :=
  detect_loop ROOM_PRESETS (lower prompt).

End GenerateScene.

(** ** [place_in_blender.py]: the asset files *)

Module PlaceInBlender.

(** The body of [for file in files]. *)
Fixpoint files_loop (root : string) (files : list string)
    (glb_files : gmap string string) : gmap string string :=
  match files with
  | [] => glb_files
  | file :: files' =>
      if Py.endswith ".glb" file then
        let key := Py.before_dot file in
        if decide (is_Some (glb_files !! key))
        then files_loop root files' glb_files
        else files_loop root files'
               (<[key := Py.os_path_join root file]> glb_files)
      else files_loop root files' glb_files
  end.

(** The body of [for root, dirs, files in os.walk(directory)], on the
    triples that [os.walk] yields. *)
Fixpoint walk_loop (walk : list (string * list string * list string))
    (glb_files : gmap string string) : gmap string string :=
  match walk with
  | [] => glb_files
  | (root, _, files) :: walk' => walk_loop walk' (files_loop root files glb_files)
  end.

Definition find_glb_files (walk : list (string * list string * list string))
    : gmap string string :=
  walk_loop walk ∅.

(** The asset files in the order in which the walk meets them, each with
    the key it is filed under. *)
Definition glb_candidates (walk : list (string * list string * list string))
    : list (string * string) :=
  '(root, _, files) ← walk;
  (λ file, (Py.before_dot file, Py.os_path_join root file))
    <$> filter (λ file, Py.endswith ".glb" file = true) files.

End PlaceInBlender.

(** ** [rerender_missing.py] *)

Module RerenderMissing.

Definition BLENDER_PATH : string := "/snap/bin/blender".

(** The exceptions [subprocess.run] raises here: the time limit of 1800
    seconds is exceeded, or the program to run does not exist. *)
Inductive exn : Type :=
| TimeoutExpired
| FileNotFoundError (path : string).

#[global] Instance exn_eq_dec : EqDecision exn.
Proof. solve_decision. Defined.

Inductive result (A : Type) : Type :=
| Ok (a : A)
| Raise (e : exn).
Arguments Ok {A} a.
Arguments Raise {A} e.

#[global] Instance result_eq_dec {A} `{EqDecision A} : EqDecision (result A).
Proof. solve_decision. Defined.

Inductive outcome : Type :=
| Returned
| Uncaught (e : exn).

#[global] Instance outcome_eq_dec : EqDecision outcome.
Proof. solve_decision. Defined.

Record args : Type := {
  results_dir : string;
  dry_run : bool
}.

(** What a Blender run started in a scene directory does: it ends with a
    return code, or it is still running when the time limit is reached;
    either way it may have written [render.png]. *)
Inductive blender_run : Type :=
| Exits (returncode : Z) (writes_render : bool)
| TimesOut (writes_render : bool).

Record env : Type := {
  script_dir : string;
  (** the names of the entries of a directory, in the order of the
      operating system; none when it is no directory *)
  listdir : string → list string;
  blender : string → blender_run
}.

(** The state of a run: the existing paths, the scene directories Blender
    was started in, and the two counters of [main]. *)
Record state : Type := {
  files : gset string;
  trace : list string;
  successful : Z;
  failed : Z
}.

#[global] Instance state_eq_dec : EqDecision state.
Proof. solve_decision. Defined.

Definition initial (fs : gset string) : state :=
  {| files := fs; trace := []; successful := 0; failed := 0 |}.

Definition log (scene_dir : string) (st : state) : state :=
  {| files := files st; trace := trace st ++ [scene_dir];
     successful := successful st; failed := failed st |}.

Definition write_file (path : string) (st : state) : state :=
  {| files := {[path]} ∪ files st; trace := trace st;
     successful := successful st; failed := failed st |}.

Definition incr_successful (st : state) : state :=
  {| files := files st; trace := trace st;
     successful := successful st + 1; failed := failed st |}.

Definition incr_failed (st : state) : state :=
  {| files := files st; trace := trace st;
     successful := successful st; failed := failed st + 1 |}.

Definition path_exists (st : state) (path : string) : bool :=
  bool_decide (path ∈ files st).

Definition run_blender (e : env) (scene_dir : string) (st : state)
    : result bool * state :=
  let blender_script := Py.path_join (script_dir e) "place_in_blender.py" in
  if negb (path_exists st blender_script) then (Ok false, st)
  else if negb (path_exists st BLENDER_PATH)
  then (Raise (FileNotFoundError BLENDER_PATH), st)
  else
    let st := log scene_dir st in
    match blender e scene_dir with
    | TimesOut writes =>
        (Raise TimeoutExpired,
         if writes then write_file (Py.path_join scene_dir "render.png") st
         else st)
    | Exits returncode writes =>
        let st := if writes
                  then write_file (Py.path_join scene_dir "render.png") st
                  else st in
        if negb (returncode =? 0) then (Ok false, st) else (Ok true, st)
    end.

(** [sorted(results_dir.glob("scene_*"))]. *)
Definition scene_dirs (e : env) (results_dir : string) : list string :=
  merge_sort (λ p1 p2, String.leb p1 p2)
    ((λ name, Py.path_join results_dir name)
     <$> filter (λ name, String.prefix "scene_" name = true)
           (listdir e results_dir)).

(** The test of the first loop: a scene graph and assets, and no render. *)
Definition needs_render (fs : gset string) (scene_dir : string) : Prop :=
  Py.path_join scene_dir "scene_graph.json" ∈ fs
  ∧ Py.path_join scene_dir "Assets" ∈ fs
  ∧ Py.path_join scene_dir "render.png" ∉ fs.

#[global] Instance needs_render_dec fs scene_dir :
  Decision (needs_render fs scene_dir).
Proof. unfold needs_render. apply _. Defined.

Definition to_render (e : env) (a : args) (fs : gset string) : list string :=
  filter (needs_render fs) (scene_dirs e (results_dir a)).

(** [for i, scene_dir in enumerate(to_render)]. *)
Fixpoint render_loop (e : env) (scenes : list string) (st : state)
    : result unit * state :=
  match scenes with
  | [] => (Ok (), st)
  | scene_dir :: scenes' =>
      match run_blender e scene_dir st with
      | (Raise ex, st) => (Raise ex, st)
      | (Ok true, st) =>
          if path_exists st (Py.path_join scene_dir "render.png")
          then render_loop e scenes' (incr_successful st)
          else render_loop e scenes' (incr_failed st)
      | (Ok false, st) => render_loop e scenes' (incr_failed st)
      end
  end.

(** [main()], once the command line is parsed. *)
Definition main (e : env) (a : args) (fs : gset string) : outcome * state :=
  let to_render := to_render e a fs in
  if dry_run a then (Returned, initial fs)
  else
    match render_loop e to_render (initial fs) with
    | (Ok _, st) => (Returned, st)
    | (Raise ex, st) => (Uncaught ex, st)
    end.

End RerenderMissing.


(** ** A small catalog and some environments to run the scripts in *)

Module Scenario.

Definition mkrow (id description : string) : row :=
  <["ID" := id]> (<["Description" := description]> ∅).

Definition catalog : list row := [mkrow "1" "A"; mkrow "2" "B"; mkrow "3" "C"].

(** The scripts and the Blender binary are installed; no scene is rendered
    yet. *)
Definition tools : gset string :=
  {[ "/opt/IDesign/retrieve.py"; "/opt/IDesign/place_in_blender.py";
     RunFromCsv.BLENDER_PATH ]}.

Definition worker_env (generate : nat → Z → option Py.exn)
    (blender_rc : nat → Z → Z) (writes : nat → Z → bool) : RunFromCsv.env :=
  {| RunFromCsv.home := "/home/ubuntu";
     RunFromCsv.script_dir := "/opt/IDesign";
     RunFromCsv.read_csv := λ _, Some catalog;
     RunFromCsv.generate_scene := generate;
     RunFromCsv.retrieve_returncode := λ _ _, 0;
     RunFromCsv.blender_returncode := blender_rc;
     RunFromCsv.blender_writes_render := writes |}.

(** Every stage succeeds at once. *)
Definition all_pass : RunFromCsv.env :=
  worker_env (λ _ _, None) (λ _ _, 0) (λ _ _, true).


(** Blender fails on every attempt for the first record and succeeds for the
    others. *)
Definition first_item_poisoned : RunFromCsv.env :=
  worker_env (λ _ _, None)
    (λ i _, match i with O => 1 | _ => 0 end)
    (λ i _, match i with O => false | _ => true end).

(** Blender exits with status 0 and writes nothing. *)
Definition silent_blender : RunFromCsv.env :=
  worker_env (λ _ _, None) (λ _ _, 0) (λ _ _, false).



(** The second scene of the catalog is already rendered. *)
Definition scene_2_rendered : gset string :=
  {[ "results/scene_002/render.png" ]} ∪ tools.

Definition supervisor_args (n : Z) (skip_existing : bool) : Multiworker.args :=
  {| Multiworker.num_workers := n;
     Multiworker.csv_file := "annotations.csv";
     Multiworker.results_dir := "results";
     Multiworker.start_id := None; Multiworker.end_id := None;
     Multiworker.skip_existing := skip_existing;
     Multiworker.skip_retrieve := false; Multiworker.skip_render := false;
     Multiworker.timeout := 3600; Multiworker.dry_run := false |}.

Definition supervisor_env (fs : gset string)
    (spawn : list string → Multiworker.proc_state) : Multiworker.env :=
  {| Multiworker.home := "/home/ubuntu";
     Multiworker.executable := "/usr/bin/python3";
     Multiworker.script_dir := "/opt/IDesign";
     Multiworker.read_csv := λ _, Some catalog;
     Multiworker.files := fs;
     Multiworker.spawn := spawn |}.

(** Every worker process ends after two polling intervals with status 1. *)
Definition crashing_workers : Multiworker.env :=
  supervisor_env tools (λ _, Multiworker.Alive (Some 1%nat) 1).

(** No worker process ever ends by itself. *)
Definition endless_workers : Multiworker.env :=
  supervisor_env tools (λ _, Multiworker.Alive None 0).

(** The supervisor starts real workers, whose stages would all succeed. *)
Definition real_workers : Multiworker.env :=
  supervisor_env tools (worker_process all_pass tools).

Definition worker_args (lo hi : option Z) (skip_render skip_existing : bool)
    : RunFromCsv.args :=
  {| RunFromCsv.csv_file := "annotations.csv";
     RunFromCsv.results_dir := "results";
     RunFromCsv.start_id := lo; RunFromCsv.end_id := hi;
     RunFromCsv.auto := true; RunFromCsv.verbose := false;
     RunFromCsv.skip_retrieve := false; RunFromCsv.skip_render := skip_render;
     RunFromCsv.skip_existing := skip_existing |}.

(** Stage 1 fails on the first attempt of every item, and is interrupted on
    the second attempt for the second record. *)
Definition interrupted_generation : RunFromCsv.env :=
  worker_env (λ i k, if k <? 2 then Some Py.StageException
                     else match i with
                          | 1%nat => Some Py.KeyboardInterrupt
                          | _ => None
                          end)
    (λ _ _, 0) (λ _ _, true).


Definition supervisor_range_args (lo hi : option Z) (skip_existing : bool)
    : Multiworker.args :=
  {| Multiworker.num_workers := 2;
     Multiworker.csv_file := "annotations.csv";
     Multiworker.results_dir := "results";
     Multiworker.start_id := lo; Multiworker.end_id := hi;
     Multiworker.skip_existing := skip_existing;
     Multiworker.skip_retrieve := false; Multiworker.skip_render := false;
     Multiworker.timeout := 3600; Multiworker.dry_run := false |}.

(** A results directory for [rerender_missing.py]: scenes 1 and 2 have a
    scene graph and assets and no render, scene 3 is rendered. *)
Definition rerender_files : gset string :=
  {[ "/opt/IDesign/place_in_blender.py"; RerenderMissing.BLENDER_PATH;
     "results/scene_001/scene_graph.json"; "results/scene_001/Assets";
     "results/scene_002/scene_graph.json"; "results/scene_002/Assets";
     "results/scene_003/scene_graph.json"; "results/scene_003/Assets";
     "results/scene_003/render.png" ]}.

(** Blender renders scene 1 and does not end in time for scene 2. *)
Definition rerender_env : RerenderMissing.env :=
  {| RerenderMissing.script_dir := "/opt/IDesign";
     RerenderMissing.listdir := λ _, ["scene_002"; "notes.txt"; "scene_001";
                                      "scene_003"];
     RerenderMissing.blender := λ scene_dir,
       if String.eqb scene_dir "results/scene_001"
       then RerenderMissing.Exits 0 true
       else RerenderMissing.TimesOut false |}.

Definition rerender_args : RerenderMissing.args :=
  {| RerenderMissing.results_dir := "results";
     RerenderMissing.dry_run := false |}.


End Scenario.

(* ================================================================= *)
(** * Part II: properties *)

(** Closed decidable facts about the example runs are settled by
    evaluation. *)
Ltac by_evaluation := apply (bool_decide_unpack _); vm_compute; exact I.

(** ** Slices *)

Section slice_facts.
Context {A : Type}.
Implicit Types l : list A.

Lemma slice_nonneg l a b :
  0 ≤ a ≤ b →
  Py.slice l a b = take (Z.to_nat (b - a)) (drop (Z.to_nat a) l).
Proof.
  intros Hab. unfold Py.slice, Py.clamp_index.
  destruct (Z.ltb_spec a 0) as [?|_]; [lia|].
  destruct (Z.ltb_spec b 0) as [?|_]; [lia|].
  destruct (Z.le_gt_cases a (Z.of_nat (length l))) as [Ha|Ha].
  - rewrite (Z.min_l a) by lia.
    destruct (Z.le_gt_cases b (Z.of_nat (length l))) as [Hb|Hb].
    + by rewrite (Z.min_l b) by lia.
    + rewrite (Z.min_r b) by lia.
      rewrite !take_ge; [done| |]; rewrite length_drop; lia.
  - rewrite !drop_ge by lia. by rewrite !take_nil.
Qed.

Lemma slice_length l a b :
  0 ≤ a ≤ b → b ≤ Z.of_nat (length l) →
  Z.of_nat (length (Py.slice l a b)) = b - a.
Proof.
  intros Hab Hb. rewrite slice_nonneg by done.
  rewrite length_take, length_drop. lia.
Qed.

Lemma slice_app l a b c :
  0 ≤ a ≤ b → b ≤ c →
  Py.slice l a b ++ Py.slice l b c = Py.slice l a c.
Proof.
  intros Hab Hbc. rewrite !slice_nonneg by lia.
  replace (Z.to_nat b) with (Z.to_nat a + Z.to_nat (b - a))%nat by lia.
  rewrite <- drop_drop, take_take_drop. f_equal. lia.
Qed.

Lemma slice_all l : Py.slice l 0 (Z.of_nat (length l)) = l.
Proof.
  rewrite slice_nonneg by lia. simpl. rewrite drop_0.
  apply take_ge. lia.
Qed.
End slice_facts.

(** ** The partition computed by [divide_work] *)

Section divide_work_facts.
Context {A : Type}.
Implicit Types (scene_ids : list A) (chunks : list (list A)).
Import Multiworker.

Lemma chunk_offset_succ cs r i :
  chunk_offset cs r (i + 1) =
  chunk_offset cs r i + (cs + (if i <? r then 1 else 0)).
Proof. unfold chunk_offset. destruct (Z.ltb_spec i r); lia. Qed.

Lemma chunk_offset_mono cs r i :
  0 ≤ cs → chunk_offset cs r i ≤ chunk_offset cs r (i + 1).
Proof. rewrite chunk_offset_succ. destruct (i <? r); lia. Qed.

Lemma chunk_offset_nonneg cs r i :
  0 ≤ cs → 0 ≤ r → 0 ≤ i → 0 ≤ chunk_offset cs r i.
Proof. unfold chunk_offset. nia. Qed.

(** The loop appends, for each worker index, the slice between two
    consecutive offsets. *)
Lemma divide_work_loop_spec scene_ids cs r (k : nat) i0 chunks :
  divide_work_loop scene_ids cs r (seqZ i0 (Z.of_nat k))
    (chunk_offset cs r i0) chunks =
  chunks ++ ((λ i, Py.slice scene_ids (chunk_offset cs r i)
                     (chunk_offset cs r (i + 1))) <$> seqZ i0 (Z.of_nat k)).
Proof.
  revert i0 chunks. induction k as [|k IH]; intros i0 chunks.
  - simpl. by rewrite app_nil_r.
  - rewrite seqZ_cons by lia.
    replace (Z.pred (Z.of_nat (S k))) with (Z.of_nat k) by lia.
    cbn [divide_work_loop fmap list_fmap].
    rewrite <- chunk_offset_succ.
    replace (Z.succ i0) with (i0 + 1) by lia.
    rewrite IH, <- app_assoc. done.
Qed.

Lemma concat_slices scene_ids cs r (k : nat) i0 :
  0 ≤ cs → 0 ≤ r → 0 ≤ i0 →
  concat ((λ i, Py.slice scene_ids (chunk_offset cs r i)
                  (chunk_offset cs r (i + 1))) <$> seqZ i0 (Z.of_nat k)) =
  Py.slice scene_ids (chunk_offset cs r i0)
    (chunk_offset cs r (i0 + Z.of_nat k)).
Proof.
  intros Hcs Hr. revert i0. induction k as [|k IH]; intros i0 Hi0.
  - simpl. rewrite Z.add_0_r. rewrite slice_nonneg.
    + by rewrite Z.sub_diag.
    + pose proof (chunk_offset_nonneg cs r i0). lia.
  - rewrite seqZ_cons by lia.
    replace (Z.pred (Z.of_nat (S k))) with (Z.of_nat k) by lia.
    replace (Z.succ i0) with (i0 + 1) by lia.
    cbn [fmap list_fmap concat]. rewrite IH by lia.
    replace (i0 + 1 + Z.of_nat k) with (i0 + Z.of_nat (S k)) by lia.
    apply slice_app.
    + pose proof (chunk_offset_nonneg cs r i0).
      pose proof (chunk_offset_mono cs r i0). lia.
    + clear IH. induction k as [|k IHk].
      * replace (i0 + Z.of_nat 1) with (i0 + 1) by lia. lia.
      * etrans; [apply IHk|].
        replace (i0 + Z.of_nat (S (S k))) with (i0 + Z.of_nat (S k) + 1) by lia.
        by apply chunk_offset_mono.
Qed.

Lemma chunk_offset_total n w :
  0 < w → chunk_offset (n `div` w) (n `mod` w) w = n.
Proof.
  intros Hw. unfold chunk_offset.
  pose proof (Z.mod_pos_bound n w Hw).
  pose proof (Z.div_mod n w). lia.
Qed.

Lemma chunk_offset_le_total n w i :
  0 < w → 0 ≤ n → 0 ≤ i ≤ w →
  chunk_offset (n `div` w) (n `mod` w) i ≤ n.
Proof.
  intros Hw Hn Hi. unfold chunk_offset.
  pose proof (Z.mod_pos_bound n w Hw).
  pose proof (Z.div_mod n w).
  assert (0 ≤ n `div` w) by (apply Z.div_pos; lia). nia.
Qed.

Lemma divide_work_eq scene_ids num_workers :
  1 ≤ num_workers →
  divide_work scene_ids num_workers =
  Py.Ok ((λ i, Py.slice scene_ids
                 (chunk_offset (Z.of_nat (length scene_ids) `div` num_workers)
                    (Z.of_nat (length scene_ids) `mod` num_workers) i)
                 (chunk_offset (Z.of_nat (length scene_ids) `div` num_workers)
                    (Z.of_nat (length scene_ids) `mod` num_workers) (i + 1)))
           <$> seqZ 0 num_workers).
Proof.
  intros Hw. unfold divide_work, Py.range.
  destruct (Z.eqb_spec num_workers 0) as [?|_]; [lia|].
  f_equal.
  set (cs := _ `div` _). set (r := _ `mod` _).
  assert (chunk_offset cs r 0 = 0) as Hoff.
  { unfold chunk_offset.
    pose proof (Z.mod_pos_bound (Z.of_nat (length scene_ids)) num_workers).
    fold r in H. lia. }
  pose proof (divide_work_loop_spec scene_ids cs r (Z.to_nat num_workers) 0 [])
    as Hloop.
  rewrite Hoff, Z2Nat.id in Hloop by lia. exact Hloop.
Qed.
End divide_work_facts.

Section divide_work_claims.
Context {A : Type}.
Import Multiworker.

Lemma divide_work_concat (scene_ids : list A) num_workers chunks :
  1 ≤ num_workers →
  divide_work scene_ids num_workers = Py.Ok chunks →
  concat chunks = scene_ids.
Proof.
  intros Hw Hdiv. rewrite divide_work_eq in Hdiv by done. injection Hdiv as <-.
  pose proof (Z.mod_pos_bound (Z.of_nat (length scene_ids)) num_workers
                ltac:(lia)) as Hr.
  assert (0 ≤ Z.of_nat (length scene_ids) `div` num_workers) as Hcs
    by (apply Z.div_pos; lia).
  pose proof (concat_slices scene_ids _ _ (Z.to_nat num_workers) 0
                Hcs (proj1 Hr) ltac:(lia)) as Hcat.
  rewrite Z.add_0_l, Z2Nat.id in Hcat by lia. rewrite Hcat.
  rewrite chunk_offset_total by lia.
  unfold chunk_offset. rewrite Z.mul_0_l, Z.min_l by lia.
  apply slice_all.
Qed.


Lemma divide_work_lookup (scene_ids : list A) num_workers chunks (i : nat) c :
  1 ≤ num_workers →
  divide_work scene_ids num_workers = Py.Ok chunks →
  chunks !! i = Some c →
  let n := Z.of_nat (length scene_ids) in
  Z.of_nat i < num_workers
  ∧ c = Py.slice scene_ids
          (chunk_offset (n `div` num_workers) (n `mod` num_workers) (Z.of_nat i))
          (chunk_offset (n `div` num_workers) (n `mod` num_workers) (Z.of_nat i + 1))
  ∧ Z.of_nat (length c) =
      n `div` num_workers + (if decide (Z.of_nat i < n `mod` num_workers) then 1 else 0).
Proof.
  intros Hw Hdiv Hi n. rewrite divide_work_eq in Hdiv by done.
  injection Hdiv as <-. fold n in Hi.
  rewrite list_lookup_fmap in Hi.
  destruct (seqZ 0 num_workers !! i) as [j|] eqn:Hj; [|done].
  apply lookup_seqZ in Hj as [-> Hlt]. simpl in Hi. injection Hi as <-.
  rewrite Z.add_0_l. split_and!; [done|done|].
  pose proof (Z.mod_pos_bound n num_workers ltac:(lia)) as Hr.
  assert (0 ≤ n `div` num_workers) as Hcs by (apply Z.div_pos; lia).
  rewrite slice_length.
  - rewrite chunk_offset_succ.
    destruct (Z.ltb_spec (Z.of_nat i) (n `mod` num_workers)); case_decide; lia.
  - pose proof (chunk_offset_nonneg (n `div` num_workers) (n `mod` num_workers)
                  (Z.of_nat i)).
    pose proof (chunk_offset_mono (n `div` num_workers) (n `mod` num_workers)
                  (Z.of_nat i)). lia.
  - apply chunk_offset_le_total; lia.
Qed.

(** C1. For every item list and every worker count of at least 1,
    [divide_work] returns exactly [num_workers] chunks whose concatenation
    is the input list in order; chunk [i] is the contiguous slice that starts
    at offset [i * base + min i rem] and has [base + 1] items when [i < rem]
    and [base] items otherwise (with [base = n div num_workers] and
    [rem = n mod num_workers]), so two chunk sizes differ by at most one
    (ten items and three workers give sizes 4, 3, 3 in worker order); the
    empty input yields [num_workers] empty chunks; and the result is
    determined by the inputs. *)
Theorem divide_work_partition (scene_ids : list A) (num_workers : Z) :
  1 ≤ num_workers →
  let n := Z.of_nat (length scene_ids) in
  let base := n `div` num_workers in
  let rem := n `mod` num_workers in
  ∃ chunks,
    divide_work scene_ids num_workers = Py.Ok chunks
    ∧ Z.of_nat (length chunks) = num_workers
    ∧ concat chunks = scene_ids
    ∧ (∀ (i : nat) c, chunks !! i = Some c →
         c = take (length c)
               (drop (Z.to_nat (chunk_offset base rem (Z.of_nat i))) scene_ids)
         ∧ Z.of_nat (length c) =
             base + (if decide (Z.of_nat i < rem) then 1 else 0))
    ∧ (∀ c1 c2, c1 ∈ chunks → c2 ∈ chunks → (length c1 ≤ length c2 + 1)%nat)
    ∧ (scene_ids = [] → chunks = replicate (Z.to_nat num_workers) [])
    ∧ (length scene_ids = 10%nat → num_workers = 3 →
         length <$> chunks = [4; 3; 3]%nat)
    ∧ (∀ r, divide_work scene_ids num_workers = r → r = Py.Ok chunks).
Proof.
  intros Hw n base rem.
  pose proof (Z.mod_pos_bound n num_workers ltac:(lia)) as Hr. fold rem in Hr.
  assert (0 ≤ base) as Hcs by (apply Z.div_pos; lia).
  pose proof (divide_work_eq scene_ids num_workers Hw) as Heq.
  fold n base rem in Heq.
  set (chunks := _ <$> seqZ 0 num_workers) in Heq.
  assert (Z.of_nat (length chunks) = num_workers) as Hlen.
  { unfold chunks. rewrite length_fmap, length_seqZ. lia. }
  assert (∀ (i : nat) c, chunks !! i = Some c →
            c = take (length c)
                  (drop (Z.to_nat (chunk_offset base rem (Z.of_nat i))) scene_ids)
            ∧ Z.of_nat (length c) =
                base + (if decide (Z.of_nat i < rem) then 1 else 0)) as Hlook.
  { intros i c Hi.
    destruct (divide_work_lookup _ _ _ _ _ Hw Heq Hi) as (Hlt & Hc & Hsz).
    fold n base rem in Hc, Hsz. split; [|done].
    rewrite slice_nonneg in Hc.
    - rewrite Hc at 1. f_equal. rewrite chunk_offset_succ.
      destruct (Z.ltb_spec (Z.of_nat i) rem); case_decide; lia.
    - pose proof (chunk_offset_nonneg base rem (Z.of_nat i)).
      pose proof (chunk_offset_mono base rem (Z.of_nat i)). lia. }
  exists chunks. split_and!; try done.
  - by apply (divide_work_concat scene_ids num_workers).
  - intros c1 c2 [i1 H1]%list_elem_of_lookup [i2 H2]%list_elem_of_lookup.
    apply Hlook in H1 as [_ H1]. apply Hlook in H2 as [_ H2].
    repeat case_decide; lia.
  - intros ->. symmetry. apply replicate_as_Forall. split; [lia|].
    apply Forall_lookup. intros i c Hi. apply Hlook in Hi as [-> _].
    by rewrite drop_nil, take_nil.
  - intros H10 ->. apply list_eq. intros i.
    rewrite list_lookup_fmap.
    destruct (chunks !! i) as [c|] eqn:Hi.
    + pose proof (lookup_lt_Some _ _ _ Hi) as Hlt.
      apply Hlook in Hi as [_ Hsz]. unfold base, rem, n in Hsz.
      rewrite H10 in Hsz.
      change (Z.of_nat 10 `div` 3) with 3 in Hsz.
      change (Z.of_nat 10 `mod` 3) with 1 in Hsz.
      destruct i as [|[|[|i]]]; [| | |lia]; simpl;
        f_equal; case_decide; lia.
    + apply lookup_ge_None in Hi.
      destruct i as [|[|[|i]]]; [lia..|done].
  - intros r <-. done.
Qed.

End divide_work_claims.

(** The partition of ten items among three workers. *)
Lemma divide_work_partition_witness :
  ∃ chunks,
    Multiworker.divide_work (seqZ 1 10) 3 = Py.Ok chunks
    ∧ concat chunks = seqZ 1 10
    ∧ length <$> chunks = [4; 3; 3]%nat.
Proof.
  destruct (divide_work_partition (seqZ 1 10) 3 ltac:(lia))
    as (chunks & Hdiv & _ & Hcat & _ & _ & _ & Hex & _).
  exists chunks. split_and!; [exact Hdiv|exact Hcat|].
  apply Hex; reflexivity.
Defined.

(** ** The worker: attempts and the retry loop *)

Section worker_facts.
Import RunFromCsv.
Context (e : env) (a : args).

Lemma run_retrieve_spec i pid k st :
  let r := run_retrieve e i pid k st in
  files r.2 = files st
  ∧ successful r.2 = successful st ∧ failed r.2 = failed st
  ∧ skipped r.2 = skipped st
  ∧ (trace r.2 = trace st ∨ trace r.2 = trace st ++ [Invoke Retrieve i pid k])
  ∧ (r.1 = true → trace r.2 = trace st ++ [Invoke Retrieve i pid k]).
Proof.
  unfold run_retrieve. repeat case_match; simpl; naive_solver.
Qed.

Lemma run_blender_spec i pid k rf st :
  let r := run_blender e i pid k rf st in
  (files r.2 = files st ∨ files r.2 = {[rf]} ∪ files st)
  ∧ successful r.2 = successful st ∧ failed r.2 = failed st
  ∧ skipped r.2 = skipped st
  ∧ (trace r.2 = trace st ∨ trace r.2 = trace st ++ [Invoke Blender i pid k])
  ∧ (r.1 = true → trace r.2 = trace st ++ [Invoke Blender i pid k]).
Proof.
  unfold run_blender. repeat case_match; simpl; naive_solver.
Qed.

(** What any attempt does: it starts with stage 1, touches no counter,
    creates at most the render file, and when it completes it has run
    every enabled stage. *)
Lemma attempt_spec i pid rf k st :
  let r := attempt e a i pid rf k st in
  (files r.2 = files st ∨ files r.2 = {[rf]} ∪ files st)
  ∧ successful r.2 = successful st ∧ failed r.2 = failed st
  ∧ skipped r.2 = skipped st
  ∧ ∃ evs, trace r.2 = trace st ++ Invoke Generate i pid k :: evs
      ∧ Forall (λ ev, ev ∈ [Invoke Retrieve i pid k; Invoke Blender i pid k;
                            VerifyRender i pid k]) evs
      ∧ (r.1 = Completed → Invoke Generate i pid k :: evs = full_attempt a i pid k).
Proof.
  unfold attempt, full_attempt.
  destruct (generate_scene e i k) as [ex|]; simpl.
  { split_and!; try done; [by left|]. by exists []. }
  destruct (skip_retrieve a); simpl.
  - destruct (skip_render a); simpl.
    + split_and!; try done; [by left|]. by exists [].
    + pose proof (run_blender_spec i pid k rf (log (Invoke Generate i pid k) st))
        as (Hf & Hs & Hfa & Hsk & Htr & Hok).
      destruct (run_blender _ _ _ _ _ _) as [[] st3]; simpl in *.
      * specialize (Hok eq_refl).
        destruct (path_exists (log (VerifyRender i pid k) st3) rf); simpl;
          (split_and!; try done;
           exists [Invoke Blender i pid k; VerifyRender i pid k];
           rewrite Hok, <- !app_assoc; simpl;
           split_and!; [done| |done]; repeat constructor; set_solver).
      * split_and!; try done.
        destruct Htr as [->| ->].
        -- by exists [].
        -- exists [Invoke Blender i pid k]. rewrite <- app_assoc. simpl.
           split_and!; [done| |done]. repeat constructor; set_solver.
  - pose proof (run_retrieve_spec i pid k (log (Invoke Generate i pid k) st))
      as (Hf & Hs & Hfa & Hsk & Htr & Hok).
    destruct (run_retrieve _ _ _ _ _) as [[] st2]; simpl in *.
    + specialize (Hok eq_refl).
      destruct (skip_render a); simpl.
      * split_and!; try done; [by left|].
        exists [Invoke Retrieve i pid k]. rewrite Hok, <- app_assoc. simpl.
        split_and!; [done| |done]. repeat constructor; set_solver.
      * pose proof (run_blender_spec i pid k rf st2)
          as (Hf' & Hs' & Hfa' & Hsk' & Htr' & Hok').
        destruct (run_blender _ _ _ _ _ _) as [[] st3]; simpl in *.
        -- specialize (Hok' eq_refl).
           destruct (path_exists (log (VerifyRender i pid k) st3) rf); simpl;
             (split_and!; try congruence;
              try (destruct Hf' as [->| ->]; rewrite Hf; by auto);
              exists [Invoke Retrieve i pid k; Invoke Blender i pid k;
                      VerifyRender i pid k];
              rewrite Hok', Hok, <- !app_assoc; simpl;
              split_and!; [done| |done]; repeat constructor; set_solver).
        -- split_and!; try congruence;
             try (destruct Hf' as [->| ->]; rewrite Hf; by auto).
           destruct Htr' as [->| ->]; rewrite Hok, <- ?app_assoc; simpl.
           ++ exists [Invoke Retrieve i pid k].
              split_and!; [done| |done]. repeat constructor; set_solver.
           ++ exists [Invoke Retrieve i pid k; Invoke Blender i pid k].
              split_and!; [done| |done]. repeat constructor; set_solver.
    + split_and!; try done; [left; congruence|].
      destruct Htr as [->| ->].
      * by exists [].
      * exists [Invoke Retrieve i pid k]. rewrite <- app_assoc. simpl.
        split_and!; [done| |done]. repeat constructor; set_solver.
Qed.

Lemma attempts_made_app i tr1 tr2 :
  attempts_made i (tr1 ++ tr2) = attempts_made i tr1 ++ attempts_made i tr2.
Proof. apply omap_app. Qed.

Lemma attempt_attempts_made i pid rf k st :
  attempts_made i (trace (attempt e a i pid rf k st).2) =
  attempts_made i (trace st) ++ [k].
Proof.
  destruct (attempt_spec i pid rf k st) as (_ & _ & _ & _ & evs & -> & Hevs & _).
  rewrite attempts_made_app. f_equal. unfold attempts_made. simpl.
  rewrite decide_True by done. f_equal.
  induction Hevs as [|ev evs Hev _ IH]; [done|].
  apply list_elem_of_In in Hev. simpl in Hev.
  destruct Hev as [<-|[<-|[<-|[]]]]; simpl; by rewrite IH.
Qed.

(** The failed attempts before a later one leave the counters alone and
    each start with stage 1. *)
Lemma after_failed_attempts_spec i pid rf n k st st1 :
  after_failed_attempts e a i pid rf n k st = Some st1 →
  attempts_made i (trace st1) = attempts_made i (trace st) ++ seqZ k (Z.of_nat n)
  ∧ successful st1 = successful st ∧ failed st1 = failed st
  ∧ skipped st1 = skipped st.
Proof.
  revert k st. induction n as [|n IH]; intros k st Hn.
  - injection Hn as <-. simpl. by rewrite app_nil_r.
  - cbn [after_failed_attempts] in Hn.
    pose proof (attempt_attempts_made i pid rf k st) as Hmade.
    destruct (attempt_spec i pid rf k st) as (_ & Hs & Hf & Hsk & _).
    destruct (attempt e a i pid rf k st) as [[|ex] st']; [done|].
    destruct (Py.is_Exception ex && negb (k =? MAX_RETRIES)); [|done].
    apply IH in Hn as (-> & -> & -> & ->). simpl in *.
    rewrite attempts_made_app, Hmade, app_nil_r, <- app_assoc.
    rewrite (seqZ_cons k) by lia.
    replace (Z.succ k) with (k + 1) by lia.
    replace (Z.pred (Z.of_nat (S n))) with (Z.of_nat n) by lia. done.
Qed.

(** The loop follows the failed attempts and stops at the first one that
    completes. *)
Lemma retry_loop_failed_prefix i pid rf n k attempts st st1 :
  after_failed_attempts e a i pid rf n k st = Some st1 →
  retry_loop e a i pid rf (seqZ k (Z.of_nat n) ++ attempts) st =
  retry_loop e a i pid rf attempts st1.
Proof.
  revert k st. induction n as [|n IH]; intros k st Hn.
  - by injection Hn as <-.
  - cbn [after_failed_attempts] in Hn.
    rewrite (seqZ_cons k) by lia.
    replace (Z.succ k) with (k + 1) by lia.
    replace (Z.pred (Z.of_nat (S n))) with (Z.of_nat n) by lia.
    cbn [app retry_loop].
    destruct (attempt e a i pid rf k st) as [[|ex] st']; [done|].
    destruct (Py.is_Exception ex); [|done].
    destruct (k =? MAX_RETRIES); [done|]. simpl in Hn. by apply IH.
Qed.

Lemma seqZ_snoc_split (n k : Z) :
  1 ≤ k ≤ n → seqZ 1 n = seqZ 1 (k - 1) ++ k :: seqZ (k + 1) (n - k).
Proof.
  intros Hk. replace n with ((k - 1) + (1 + (n - k))) at 1 by lia.
  rewrite seqZ_app by lia. f_equal.
  rewrite seqZ_cons by lia. f_equal; [lia|]. f_equal; lia.
Qed.

Lemma process_row_retry i (r : row) st id_text pid description :
  r !! "ID" = Some id_text → Py.int id_text = Py.Ok pid →
  below_start a pid = false → above_end a pid = false →
  r !! "Description" = Some description →
  skip_existing a && path_exists st (render_file (results_dir a) pid) = false →
  process_row e a i r st =
  retry_loop e a i pid (render_file (results_dir a) pid) (seqZ 1 MAX_RETRIES) st.
Proof.
  intros HID Hint Hlo Hhi Hdesc Hskip. unfold process_row.
  by rewrite HID, Hint, Hlo, Hhi, Hdesc, Hskip.
Qed.
End worker_facts.

Section retry_claims.
Import RunFromCsv.

End retry_claims.


(** ** The terminal artifact as the success predicate of the render stage *)

Section render_check_claims.
Import RunFromCsv.


End render_check_claims.


(** ** The loop over the catalog *)

Section for_rows_facts.
Import RunFromCsv.
Context (e : env) (a : args).

Lemma retry_loop_spec i pid rf attempts st :
  let r := retry_loop e a i pid rf attempts st in
  files st ⊆ files r.2
  ∧ skipped r.2 = skipped st
  ∧ ∃ evs, trace r.2 = trace st ++ evs
      ∧ Forall (λ ev, ∀ q, invokes q ev → q = pid) evs.
Proof.
  revert st. induction attempts as [|k attempts IH]; intros st; simpl.
  { split_and!; [done|done|]. exists []. by rewrite app_nil_r. }
  destruct (attempt_spec e a i pid rf k st)
    as (Hfiles & _ & _ & Hsk & evs & Htr & Hevs & _).
  assert (Forall (λ ev, ∀ q, invokes q ev → q = pid)
            (Invoke Generate i pid k :: evs)) as Hinv.
  { constructor; [by intros q <-|].
    eapply Forall_impl; [exact Hevs|]. intros ev Hev q Hq.
    apply list_elem_of_In in Hev. simpl in Hev.
    destruct Hev as [<-|[<-|[<-|[]]]]; by simpl in Hq. }
  assert (files st ⊆ files (attempt e a i pid rf k st).2) as Hsub.
  { destruct Hfiles as [->| ->]; [done|apply union_subseteq_r]. }
  destruct (attempt e a i pid rf k st) as [[|ex] st1]; simpl in *.
  - split_and!; [done|done|].
    exists ((Invoke Generate i pid k :: evs) ++ [LogCompleted pid k]).
    rewrite Htr, <- app_assoc. split; [done|].
    apply Forall_app. split; [done|]. by repeat constructor.
  - destruct (Py.is_Exception ex); simpl.
    + destruct (k =? MAX_RETRIES).
      * destruct (IH (incr_failed (log (LogGaveUp pid)
                        (log (LogAttemptFailed pid k ex) st1))))
          as (Hf' & Hsk' & evs' & Htr' & Hevs').
        simpl in *. split_and!; [by etrans|congruence|].
        exists ((Invoke Generate i pid k :: evs)
                ++ [LogAttemptFailed pid k ex; LogGaveUp pid] ++ evs').
        rewrite Htr', Htr, <- !app_assoc. split; [done|].
        rewrite !Forall_app. split_and!; [done| |done].
        by repeat constructor.
      * destruct (IH (log (LogAttemptFailed pid k ex) st1))
          as (Hf' & Hsk' & evs' & Htr' & Hevs').
        simpl in *. split_and!; [by etrans|congruence|].
        exists ((Invoke Generate i pid k :: evs)
                ++ [LogAttemptFailed pid k ex] ++ evs').
        rewrite Htr', Htr, <- !app_assoc. split; [done|].
        rewrite !Forall_app. split_and!; [done| |done].
        by repeat constructor.
    + split_and!; [done|done|]. by exists (Invoke Generate i pid k :: evs).
Qed.



Lemma for_rows_app prompts1 prompts2 i st :
  for_rows e a i (prompts1 ++ prompts2) st =
  match for_rows e a i prompts1 st with
  | (Py.Ok _, st1) => for_rows e a (i + length prompts1) prompts2 st1
  | (Py.Raise ex, st1) => (Py.Raise ex, st1)
  end.
Proof.
  revert i st. induction prompts1 as [|r prompts1 IH]; intros i st; simpl.
  { by rewrite Nat.add_0_r. }
  destruct (process_row e a i r st) as [[[]|ex] st1]; [|done].
  rewrite IH. by replace (S i + length prompts1)%nat
                   with (i + S (length prompts1))%nat by lia.
Qed.
End for_rows_facts.

Section catalog_claims.
Import RunFromCsv.

End catalog_claims.


(** ** Items that are already complete *)

Section skip_existing_claims.

Lemma filter_incomplete_loop_spec fs results_dir scene_ids incomplete :
  Multiworker.filter_incomplete_loop fs results_dir scene_ids incomplete =
  incomplete
  ++ filter (λ i, Multiworker.render_file results_dir i ∉ fs) scene_ids.
Proof.
  revert incomplete.
  induction scene_ids as [|i scene_ids IH]; intros incomplete; simpl.
  { by rewrite app_nil_r. }
  rewrite filter_cons. case_bool_decide as Hin; simpl.
  - rewrite decide_False by auto. apply IH.
  - rewrite decide_True by done. by rewrite IH, <- app_assoc.
Qed.

Lemma filter_incomplete_scenes_spec fs scene_ids results_dir :
  Multiworker.filter_incomplete_scenes fs scene_ids results_dir =
  filter (λ i, Multiworker.render_file results_dir i ∉ fs) scene_ids.
Proof. apply filter_incomplete_loop_spec. Qed.

End skip_existing_claims.


(** ** The ranges handed to the workers *)

Section range_facts.

Lemma foldl_min_spec x (l : list Z) :
  foldl Z.min x l ≤ x
  ∧ (∀ y, y ∈ l → foldl Z.min x l ≤ y)
  ∧ (foldl Z.min x l = x ∨ foldl Z.min x l ∈ l).
Proof.
  revert x. induction l as [|z l IH]; intros x; simpl.
  { split_and!; [lia| |by left]. by intros y ?%elem_of_nil. }
  destruct (IH (Z.min x z)) as (Hle & Hall & Hin). split_and!.
  - lia.
  - intros y [->|Hy]%elem_of_cons; [lia|by apply Hall].
  - destruct Hin as [Heq|Hin].
    + rewrite Heq. destruct (Z.min_spec x z) as [[_ ->]|[_ ->]];
        [by left|right; by left].
    + right. by right.
Qed.

Lemma foldl_max_spec x (l : list Z) :
  x ≤ foldl Z.max x l
  ∧ (∀ y, y ∈ l → y ≤ foldl Z.max x l)
  ∧ (foldl Z.max x l = x ∨ foldl Z.max x l ∈ l).
Proof.
  revert x. induction l as [|z l IH]; intros x; simpl.
  { split_and!; [lia| |by left]. by intros y ?%elem_of_nil. }
  destruct (IH (Z.max x z)) as (Hle & Hall & Hin). split_and!.
  - lia.
  - intros y [->|Hy]%elem_of_cons; [lia|by apply Hall].
  - destruct Hin as [Heq|Hin].
    + rewrite Heq. destruct (Z.max_spec x z) as [[_ ->]|[_ ->]];
        [right; by left|by left].
    + right. by right.
Qed.

Lemma min_spec (l : list Z) lo :
  Py.min l = Py.Ok lo → lo ∈ l ∧ ∀ y, y ∈ l → lo ≤ y.
Proof.
  destruct l as [|x l]; [done|]. simpl. intros [= <-].
  destruct (foldl_min_spec x l) as (Hle & Hall & Hin). split.
  - destruct Hin as [->|Hin]; [by left|by right].
  - intros y [->|Hy]%elem_of_cons; [done|by apply Hall].
Qed.

Lemma max_spec (l : list Z) hi :
  Py.max l = Py.Ok hi → hi ∈ l ∧ ∀ y, y ∈ l → y ≤ hi.
Proof.
  destruct l as [|x l]; [done|]. simpl. intros [= <-].
  destruct (foldl_max_spec x l) as (Hle & Hall & Hin). split.
  - destruct Hin as [->|Hin]; [by left|by right].
  - intros y [->|Hy]%elem_of_cons; [done|by apply Hall].
Qed.

Lemma StronglySorted_filter {A} (R : relation A) (P : A → Prop)
    `{∀ x, Decision (P x)} (l : list A) :
  StronglySorted R l → StronglySorted R (filter P l).
Proof.
  induction 1 as [|x l Hl IH Hx]; [constructor|].
  rewrite filter_cons. case_decide; [|done].
  constructor; [done|].
  apply Forall_forall. intros y [_ Hy]%list_elem_of_filter.
  by eapply Forall_forall in Hx.
Qed.

(** In a sorted list without duplicates, what comes first is smaller. *)
Lemma sorted_app_lt (l1 l2 : list Z) x y :
  StronglySorted Z.le (l1 ++ l2) → NoDup (l1 ++ l2) →
  x ∈ l1 → y ∈ l2 → x < y.
Proof.
  intros Hsorted Hnodup Hx Hy.
  pose proof (StronglySorted_app_1_elem_of _ _ _ _ _ Hsorted Hx Hy) as Hle.
  apply NoDup_app in Hnodup as (_ & Hdisj & _).
  assert (x ≠ y) by (intros ->; by eapply Hdisj). lia.
Qed.

(** A chunk sits between the chunks before it and the chunks after it. *)
Lemma concat_lookup_split {A} (chunks : list (list A)) (i : nat) c :
  chunks !! i = Some c →
  concat chunks = concat (take i chunks) ++ c ++ concat (drop (S i) chunks).
Proof.
  intros Hi. rewrite <- (take_drop_middle chunks i c Hi) at 1.
  by rewrite concat_app.
Qed.

Lemma get_scene_ids_spec prompts lo hi all_scene_ids :
  Multiworker.get_scene_ids prompts lo hi = Py.Ok all_scene_ids →
  ∃ ids,
    Multiworker.read_ids prompts = Py.Ok ids
    ∧ StronglySorted Z.le all_scene_ids
    ∧ (NoDup ids → NoDup all_scene_ids)
    ∧ ∀ x, x ∈ all_scene_ids ↔
           x ∈ ids ∧ (∀ s, lo = Some s → s ≤ x) ∧ (∀ s, hi = Some s → x ≤ s).
Proof.
  unfold Multiworker.get_scene_ids.
  destruct (Multiworker.read_ids prompts) as [ids|ex]; [|done].
  intros [= <-]. exists ids. split; [done|]. unfold Py.sorted.
  split_and!.
  - apply StronglySorted_merge_sort; apply _.
  - intros Hnodup. rewrite merge_sort_Permutation.
    destruct lo, hi; repeat apply NoDup_filter; done.
  - intros x. rewrite merge_sort_Permutation.
    destruct lo as [s|], hi as [s'|]; rewrite ?list_elem_of_filter;
      (split;
       [intros Hx; repeat (destruct Hx as [? Hx]);
        split_and!; [done|intros ? [= <-] || intros ? [=]; done..]
       |intros (Hx & Hlo & Hhi); repeat split; eauto]).
Qed.
End range_facts.

Section range_claims.

Lemma in_range_bounds (wa : RunFromCsv.args) lo hi id :
  RunFromCsv.start_id wa = Some lo → RunFromCsv.end_id wa = Some hi →
  RunFromCsv.in_range wa id = true ↔ lo ≤ id ≤ hi.
Proof.
  intros Hlo Hhi.
  unfold RunFromCsv.in_range, RunFromCsv.below_start, RunFromCsv.above_end.
  rewrite Hlo, Hhi, andb_true_iff, !negb_true_iff, Z.ltb_ge, Z.gtb_ltb, Z.ltb_ge.
  done.
Qed.

(** What the supervisor partitions, whether or not it drops the scenes that
    are already rendered. *)
Lemma scenes_to_process_spec se sa prompts ids scene_ids :
  Multiworker.read_ids prompts = Py.Ok ids → NoDup ids →
  Multiworker.scenes_to_process se sa prompts = Py.Ok scene_ids →
  StronglySorted Z.le scene_ids ∧ NoDup scene_ids
  ∧ (∀ x, x ∈ scene_ids →
       x ∈ ids
       ∧ (∀ s, Multiworker.start_id sa = Some s → s ≤ x)
       ∧ (∀ s, Multiworker.end_id sa = Some s → x ≤ s))
  ∧ (∀ x, x ∈ ids →
       (∀ s, Multiworker.start_id sa = Some s → s ≤ x) →
       (∀ s, Multiworker.end_id sa = Some s → x ≤ s) →
       x ∈ scene_ids
       ∨ (Multiworker.skip_existing sa = true
          ∧ Multiworker.render_file (Multiworker.results_dir sa) x
              ∈ Multiworker.files se)).
Proof.
  intros Hids Hnodup Hscenes. unfold Multiworker.scenes_to_process in Hscenes.
  destruct (Multiworker.get_scene_ids _ _ _) as [all_scene_ids|ex] eqn:Hall;
    [|done].
  apply get_scene_ids_spec in Hall as (ids' & Hids' & Hsorted & Hnd & Hmem).
  rewrite Hids in Hids'. injection Hids' as <-. specialize (Hnd Hnodup).
  simpl in Hscenes. injection Hscenes as <-.
  destruct (Multiworker.skip_existing sa).
  - rewrite filter_incomplete_scenes_spec. split_and!.
    + by apply StronglySorted_filter.
    + by apply NoDup_filter.
    + intros x [_ Hx]%list_elem_of_filter. by apply Hmem.
    + intros x Hx Hlo Hhi.
      destruct (decide (Multiworker.render_file (Multiworker.results_dir sa) x
                          ∈ Multiworker.files se)) as [Hdone|Hnot].
      * by right.
      * left. apply list_elem_of_filter. split; [done|]. by apply Hmem.
  - split_and!; [done|done|..].
    + intros x Hx. by apply Hmem.
    + intros x Hx Hlo Hhi. left. by apply Hmem.
Qed.

(** C5 (as the code has it). For a catalog with unique IDs and at least
    one worker: the supervisor hands the worker of each non-empty chunk the
    inclusive range from the least to the greatest ID of the chunk; the
    chunks are increasing, so the ranges of two workers are disjoint
    intervals and no ID is in the range of two workers; and a catalog ID
    passes a worker's range filter exactly when it is in the worker's chunk
    or, in a run with [--skip_existing], lies within the range and had its
    [render.png] when the run started (so, without [--skip_existing], the
    range filter selects exactly the chunk). *)
Theorem worker_ranges_disjoint (se : Multiworker.env) (sa : Multiworker.args)
    (prompts : list row) (ids scene_ids : list Z) (chunks : list (list Z)) :
  Multiworker.read_ids prompts = Py.Ok ids → NoDup ids →
  1 ≤ Multiworker.num_workers sa →
  Multiworker.scenes_to_process se sa prompts = Py.Ok scene_ids →
  Multiworker.divide_work scene_ids (Multiworker.num_workers sa) = Py.Ok chunks →
  (∀ (i : nat) c, chunks !! i = Some c → c ≠ [] →
     ∃ lo hi cmd,
       Py.min c = Py.Ok lo ∧ Py.max c = Py.Ok hi
       ∧ Multiworker.worker_cmd (Multiworker.executable se)
           (Multiworker.script_dir se) sa c = Py.Ok cmd
       ∧ take 4 (drop 6 cmd) = ["--start_id"; Py.str lo; "--end_id"; Py.str hi]
       ∧ ∀ wa id,
           RunFromCsv.start_id wa = Some lo → RunFromCsv.end_id wa = Some hi →
           id ∈ ids →
           (RunFromCsv.in_range wa id = true ↔
            id ∈ c
            ∨ (Multiworker.skip_existing sa = true ∧ lo ≤ id ≤ hi
               ∧ Multiworker.render_file (Multiworker.results_dir sa) id
                   ∈ Multiworker.files se)))
  ∧ (∀ (i j : nat) ci cj x y,
       (i < j)%nat → chunks !! i = Some ci → chunks !! j = Some cj →
       x ∈ ci → y ∈ cj → x < y)
  ∧ (∀ (i j : nat) ci cj lo_i hi_i lo_j hi_j id,
       i ≠ j → chunks !! i = Some ci → chunks !! j = Some cj →
       Py.min ci = Py.Ok lo_i → Py.max ci = Py.Ok hi_i →
       Py.min cj = Py.Ok lo_j → Py.max cj = Py.Ok hi_j →
       ¬ (lo_i ≤ id ≤ hi_i ∧ lo_j ≤ id ≤ hi_j)).
Proof.
  intros Hids Hnodup Hw Hscenes Hdiv.
  destruct (scenes_to_process_spec _ _ _ _ _ Hids Hnodup Hscenes)
    as (Hsorted & Hnd & Hsub & Hsup).
  pose proof (divide_work_concat _ _ _ Hw Hdiv) as Hcat.
  assert (∀ (i j : nat) ci cj x y,
            (i < j)%nat → chunks !! i = Some ci → chunks !! j = Some cj →
            x ∈ ci → y ∈ cj → x < y) as Hincr.
  { intros i j ci cj x y Hij Hi Hj Hx Hy.
    pose proof (concat_lookup_split chunks j cj Hj) as Hsplit.
    rewrite Hcat in Hsplit. rewrite Hsplit in Hsorted, Hnd.
    eapply sorted_app_lt; [exact Hsorted|exact Hnd| |].
    - apply list_elem_of_In, in_concat. exists ci.
      rewrite <- !list_elem_of_In. split; [|done].
      apply list_elem_of_lookup. exists i. by rewrite lookup_take_lt.
    - apply elem_of_app. by left. }
  split_and!; [|exact Hincr|].
  - intros i c Hi Hne.
    destruct (Py.min c) as [lo|ex] eqn:Hmin; [|by destruct c].
    destruct (Py.max c) as [hi|ex] eqn:Hmax; [|by destruct c].
    destruct (min_spec _ _ Hmin) as [Hlo_in Hlo].
    destruct (max_spec _ _ Hmax) as [Hhi_in Hhi].
    eexists lo, hi, _. split_and!; [done|done| | |].
    + unfold Multiworker.worker_cmd. rewrite Hmin, Hmax. reflexivity.
    + reflexivity.
    + intros wa id Hstart Hend Hid.
      rewrite (in_range_bounds wa lo hi id Hstart Hend).
      pose proof (concat_lookup_split chunks i c Hi) as Hsplit.
      rewrite Hcat in Hsplit.
      assert (∀ x, x ∈ c → x ∈ scene_ids) as Hc_sub.
      { intros x Hx. rewrite Hsplit, !elem_of_app. auto. }
      split.
      * intros Hbounds.
        destruct (Hsub lo (Hc_sub _ Hlo_in)) as (_ & Hlo_s & _).
        destruct (Hsub hi (Hc_sub _ Hhi_in)) as (_ & _ & Hhi_e).
        destruct (Hsup id Hid) as [Hin|[Hskip Hdone]].
        -- intros s Hs. specialize (Hlo_s s Hs). lia.
        -- intros s Hs. specialize (Hhi_e s Hs). lia.
        -- left. rewrite Hsplit in Hin, Hsorted, Hnd.
           apply elem_of_app in Hin as [Hbefore|Hin].
           { assert (id < lo); [|lia].
             eapply sorted_app_lt; [exact Hsorted|exact Hnd|done|].
             apply elem_of_app. by left. }
           apply elem_of_app in Hin as [Hin|Hafter]; [done|].
           rewrite app_assoc in Hsorted, Hnd.
           assert (hi < id); [|lia].
           eapply sorted_app_lt; [exact Hsorted|exact Hnd| |done].
           apply elem_of_app. by right.
        -- right. done.
      * intros [Hin|(_ & Hbounds & _)]; [|done].
        split; [by apply Hlo|by apply Hhi].
  - intros i j ci cj lo_i hi_i lo_j hi_j id Hij Hi Hj Hmin_i Hmax_i Hmin_j Hmax_j
      [Hid_i Hid_j].
    destruct (min_spec _ _ Hmin_i) as [Hlo_i _].
    destruct (max_spec _ _ Hmax_i) as [Hhi_i _].
    destruct (min_spec _ _ Hmin_j) as [Hlo_j _].
    destruct (max_spec _ _ Hmax_j) as [Hhi_j _].
    destruct (Nat.lt_total i j) as [Hlt|[Heq|Hgt]]; [|done|].
    + pose proof (Hincr i j ci cj hi_i lo_j Hlt Hi Hj Hhi_i Hlo_j). lia.
    + pose proof (Hincr j i cj ci hi_j lo_i Hgt Hj Hi Hhi_j Hlo_i). lia.
Qed.
End range_claims.

(** Scene 2 is rendered already and there is one worker: its range 1 to 3
    lets the record of scene 2 through, though scene 2 is not in its chunk. *)
Lemma worker_ranges_disjoint_witness :
  RunFromCsv.in_range (Scenario.worker_args (Some 1) (Some 3) false true) 2 = true
  ↔ 2 ∈ [1; 3]
    ∨ (true = true ∧ 1 ≤ 2 ≤ 3
       ∧ Multiworker.render_file "results" 2 ∈ Scenario.scene_2_rendered).
Proof.
  pose (se := Scenario.supervisor_env Scenario.scene_2_rendered
                (λ _, Multiworker.Signalled)).
  destruct (worker_ranges_disjoint se (Scenario.supervisor_args 1 true)
              Scenario.catalog [1; 2; 3] [1; 3] [[1; 3]]
              ltac:(by_evaluation) ltac:(by_evaluation) ltac:(simpl; lia)
              ltac:(by_evaluation) ltac:(by_evaluation)) as (Hrange & _ & _).
  destruct (Hrange 0%nat [1; 3] eq_refl ltac:(discriminate))
    as (lo & hi & cmd & Hmin & Hmax & _ & _ & Hfilter).
  injection Hmin as <-. injection Hmax as <-.
  apply (Hfilter (Scenario.worker_args (Some 1) (Some 3) false true) 2);
    [reflexivity|reflexivity|by_evaluation].
Defined.

(** Against C5 as stated: with [--skip_existing] and scene 2 rendered
    already, the single worker's chunk is 1, 3 and its range is 1 to 3, and
    of the catalog IDs its range filter selects 1, 2 and 3. *)
Lemma range_filter_exceeds_chunk :
  Multiworker.scenes_to_process
    (Scenario.supervisor_env Scenario.scene_2_rendered (λ _, Multiworker.Signalled))
    (Scenario.supervisor_args 1 true) Scenario.catalog = Py.Ok [1; 3]
  ∧ Multiworker.divide_work [1; 3] 1 = Py.Ok [[1; 3]]
  ∧ Py.min [1; 3] = Py.Ok 1 ∧ Py.max [1; 3] = Py.Ok 3
  ∧ Multiworker.read_ids Scenario.catalog = Py.Ok [1; 2; 3]
  ∧ filter (λ id, RunFromCsv.in_range
                    (Scenario.worker_args (Some 1) (Some 3) false true) id = true)
      [1; 2; 3] = [1; 2; 3]
  ∧ ¬ (∀ id, id ∈ [1; 2; 3] →
         RunFromCsv.in_range
           (Scenario.worker_args (Some 1) (Some 3) false true) id = true
         ↔ id ∈ [1; 3]).
Proof.
  split_and!; [by_evaluation..|].
  intros Hall. destruct (Hall 2) as [Hin _]; [by_evaluation|].
  specialize (Hin eq_refl).
  revert Hin. by_evaluation.
Qed.

(** ** A catalog of three scenes and two workers *)

Section end_to_end_facts.
Import RunFromCsv.
Context (e : env) (a : args).

Lemma process_row_out_of_range i (r : row) st id_text pid :
  r !! "ID" = Some id_text → Py.int id_text = Py.Ok pid →
  in_range a pid = false →
  process_row e a i r st = (Py.Ok (), incr_skipped st).
Proof.
  intros HID Hint Hrange. unfold process_row. rewrite HID, Hint.
  unfold in_range in Hrange.
  destruct (below_start a pid); [done|]. by destruct (above_end a pid).
Qed.

(** A record in range whose three stages succeed at once is completed on
    the first attempt; only [successful] changes, and no file is lost. *)
Lemma process_row_first_attempt i (r : row) st id_text pid description :
  r !! "ID" = Some id_text → Py.int id_text = Py.Ok pid →
  r !! "Description" = Some description →
  in_range a pid = true →
  skip_existing a = false → skip_retrieve a = false → skip_render a = false →
  generate_scene e i 1 = None → retrieve_returncode e i 1 = 0 →
  blender_returncode e i 1 = 0 → blender_writes_render e i 1 = true →
  path_exists st (Py.path_join (script_dir e) "retrieve.py") = true →
  path_exists st (Py.path_join (script_dir e) "place_in_blender.py") = true →
  path_exists st BLENDER_PATH = true →
  ∃ st',
    process_row e a i r st = (Py.Ok (), st')
    ∧ summary_of st' = (successful st + 1, failed st, skipped st)
    ∧ (∀ p, path_exists st p = true → path_exists st' p = true)
    ∧ attempts_made i (trace st') = attempts_made i (trace st) ++ [1].
Proof.
  intros HID Hint Hdesc Hrange Hskip Hsr Hsb Hgen Hrc Hbrc Hwr Hp1 Hp2 Hp3.
  unfold in_range in Hrange. apply andb_true_iff in Hrange as [Hlo Hhi].
  apply negb_true_iff in Hlo, Hhi.
  set (rf := render_file (results_dir a) pid).
  set (st4 := log (VerifyRender i pid 1)
                (write_file rf
                   (log (Invoke Blender i pid 1)
                      (log (Invoke Retrieve i pid 1)
                         (log (Invoke Generate i pid 1) st))))).
  assert (attempt e a i pid rf 1 st = (Completed, st4)) as Hatt.
  { unfold attempt, run_retrieve, run_blender.
    rewrite Hgen, Hsr, Hsb. simpl.
    change (path_exists (log ?ev st) ?p) with (path_exists st p).
    rewrite Hp1, Hrc. simpl.
    change (path_exists (log ?ev1 (log ?ev2 st)) ?p) with (path_exists st p).
    rewrite Hp2, Hp3, Hwr, Hbrc. simpl.
    unfold path_exists at 1. simpl.
    rewrite bool_decide_eq_true_2; [done|]. apply elem_of_union_l.
    by apply elem_of_singleton. }
  exists (incr_successful (log (LogCompleted pid 1) st4)). split_and!.
  - unfold process_row. rewrite HID, Hint, Hlo, Hhi, Hdesc, Hskip.
    cbn [andb]. fold rf. change (seqZ 1 MAX_RETRIES) with (1 :: seqZ 2 9).
    cbn [retry_loop]. by rewrite Hatt.
  - done.
  - intros p Hp. unfold path_exists in *. simpl.
    apply bool_decide_eq_true in Hp. apply bool_decide_eq_true_2.
    by apply elem_of_union_r.
  - pose proof (attempt_attempts_made e a i pid rf 1 st) as Hmade.
    rewrite Hatt in Hmade. simpl in *.
    by rewrite attempts_made_app, Hmade, app_nil_r.
Qed.
End end_to_end_facts.

Section end_to_end_claims.
Import RunFromCsv.

(** C9 (as the code has it). For the catalog of the three scenes 1, 2, 3
    with descriptions A, B, C, two workers and no [render.png] yet, the
    chunks are 1, 2 for worker 0 and 3 for worker 1, with the ranges 1 to 2
    and 3 to 3.  When every stage succeeds at the first attempt, the loop of
    worker 0 ends with successful 2, failed 0, skipped 1 and that of
    worker 1 with successful 1, failed 0, skipped 2: each worker reads the
    whole catalog and counts the records outside its range as skipped, so
    the counters add up to successful 3, failed 0, skipped 3. *)
Theorem three_scenes_two_workers (se : Multiworker.env) (skip : bool)
    (we : env) (fs0 fs1 : gset string) :
  (∀ id, id ∈ [1; 2; 3] →
     Multiworker.render_file "results" id ∉ Multiworker.files se) →
  (∀ i, generate_scene we i 1 = None ∧ retrieve_returncode we i 1 = 0
        ∧ blender_returncode we i 1 = 0 ∧ blender_writes_render we i 1 = true) →
  (∀ fs, fs ∈ [fs0; fs1] →
     Py.path_join (script_dir we) "retrieve.py" ∈ fs
     ∧ Py.path_join (script_dir we) "place_in_blender.py" ∈ fs
     ∧ BLENDER_PATH ∈ fs) →
  Multiworker.scenes_to_process se (Scenario.supervisor_args 2 skip)
    Scenario.catalog = Py.Ok [1; 2; 3]
  ∧ Multiworker.divide_work [1; 2; 3] 2 = Py.Ok [[1; 2]; [3]]
  ∧ Py.min [1; 2] = Py.Ok 1 ∧ Py.max [1; 2] = Py.Ok 2
  ∧ Py.min [3] = Py.Ok 3 ∧ Py.max [3] = Py.Ok 3
  ∧ ∃ st0 st1,
      for_rows we (Scenario.worker_args (Some 1) (Some 2) false false) 0
        Scenario.catalog (initial fs0) = (Py.Ok (), st0)
      ∧ for_rows we (Scenario.worker_args (Some 3) (Some 3) false false) 0
          Scenario.catalog (initial fs1) = (Py.Ok (), st1)
      ∧ summary_of st0 = (2, 0, 1)
      ∧ summary_of st1 = (1, 0, 2)
      ∧ successful st0 + successful st1 = 3
      ∧ failed st0 + failed st1 = 0
      ∧ skipped st0 + skipped st1 = 3.
Proof.
  intros Hfresh Hpass Htools.
  assert (∀ fs p, p ∈ fs → path_exists (initial fs) p = true) as Hexists.
  { intros fs p Hp. by apply bool_decide_eq_true_2. }
  split_and!; [|by_evaluation..|].
  { unfold Multiworker.scenes_to_process.
    change (Multiworker.get_scene_ids Scenario.catalog _ _) with (Py.Ok [1; 2; 3]).
    simpl. destruct skip; [|done]. f_equal.
    rewrite filter_incomplete_scenes_spec.
    rewrite !filter_cons, !decide_True; [done|apply Hfresh..].
    - by_evaluation.
    - by_evaluation.
    - by_evaluation. }
  set (a0 := Scenario.worker_args (Some 1) (Some 2) false false).
  set (a1 := Scenario.worker_args (Some 3) (Some 3) false false).
  destruct (Htools fs0) as (Hr0 & Hb0 & Hx0); [by left|].
  destruct (Htools fs1) as (Hr1 & Hb1 & Hx1); [right; by left|].
  destruct (Hpass 0%nat) as (Hg0 & Hrc0 & Hbrc0 & Hw0).
  destruct (Hpass 1%nat) as (Hg1 & Hrc1 & Hbrc1 & Hw1).
  destruct (Hpass 2%nat) as (Hg2 & Hrc2 & Hbrc2 & Hw2).
  (* worker 0: scenes 1 and 2, then scene 3 out of range *)
  destruct (process_row_first_attempt we a0 0 (Scenario.mkrow "1" "A")
              (initial fs0) "1" 1 "A"
              ltac:(by_evaluation) ltac:(by_evaluation) ltac:(by_evaluation)
              ltac:(by_evaluation) eq_refl eq_refl eq_refl Hg0 Hrc0 Hbrc0 Hw0
              (Hexists _ _ Hr0) (Hexists _ _ Hb0) (Hexists _ _ Hx0))
    as (sta & Hrow_a & Hsum_a & Hkeep_a & _).
  destruct (process_row_first_attempt we a0 1 (Scenario.mkrow "2" "B") sta "2" 2 "B"
              ltac:(by_evaluation) ltac:(by_evaluation) ltac:(by_evaluation)
              ltac:(by_evaluation) eq_refl eq_refl eq_refl Hg1 Hrc1 Hbrc1 Hw1
              (Hkeep_a _ (Hexists _ _ Hr0)) (Hkeep_a _ (Hexists _ _ Hb0))
              (Hkeep_a _ (Hexists _ _ Hx0)))
    as (stb & Hrow_b & Hsum_b & Hkeep_b & _).
  pose proof (process_row_out_of_range we a0 2 (Scenario.mkrow "3" "C") stb "3" 3
                ltac:(by_evaluation) ltac:(by_evaluation) ltac:(by_evaluation))
    as Hrow_c.
  (* worker 1: scenes 1 and 2 out of range, then scene 3 *)
  pose proof (process_row_out_of_range we a1 0 (Scenario.mkrow "1" "A")
                (initial fs1) "1" 1
                ltac:(by_evaluation) ltac:(by_evaluation) ltac:(by_evaluation))
    as Hrow_d.
  pose proof (process_row_out_of_range we a1 1 (Scenario.mkrow "2" "B")
                (incr_skipped (initial fs1)) "2" 2
                ltac:(by_evaluation) ltac:(by_evaluation) ltac:(by_evaluation))
    as Hrow_e.
  destruct (process_row_first_attempt we a1 2 (Scenario.mkrow "3" "C")
              (incr_skipped (incr_skipped (initial fs1))) "3" 3 "C"
              ltac:(by_evaluation) ltac:(by_evaluation) ltac:(by_evaluation)
              ltac:(by_evaluation) eq_refl eq_refl eq_refl Hg2 Hrc2 Hbrc2 Hw2
              (Hexists fs1 _ Hr1) (Hexists fs1 _ Hb1) (Hexists fs1 _ Hx1))
    as (stf & Hrow_f & Hsum_f & _).
  exists (incr_skipped stb), stf.
  unfold summary_of in *. simpl in Hsum_a, Hsum_b, Hsum_f.
  injection Hsum_a as Hsa Hfa Hka. injection Hsum_b as Hsb Hfb Hkb.
  injection Hsum_f as Hsf Hff Hkf.
  split_and!.
  - unfold Scenario.catalog. cbn [for_rows].
    by rewrite Hrow_a, Hrow_b, Hrow_c.
  - unfold Scenario.catalog. cbn [for_rows].
    by rewrite Hrow_d, Hrow_e, Hrow_f.
  - simpl. f_equal; [f_equal|]; lia.
  - f_equal; [f_equal|]; lia.
  - simpl. lia.
  - simpl. lia.
  - simpl. lia.
Qed.
End end_to_end_claims.

(** The three scenes with the stages that always succeed. *)
Lemma three_scenes_two_workers_witness :
  ∃ st0 st1,
    RunFromCsv.for_rows Scenario.all_pass
      (Scenario.worker_args (Some 1) (Some 2) false false) 0
      Scenario.catalog (RunFromCsv.initial Scenario.tools) = (Py.Ok (), st0)
    ∧ RunFromCsv.for_rows Scenario.all_pass
        (Scenario.worker_args (Some 3) (Some 3) false false) 0
        Scenario.catalog (RunFromCsv.initial Scenario.tools) = (Py.Ok (), st1)
    ∧ RunFromCsv.summary_of st0 = (2, 0, 1)
    ∧ RunFromCsv.summary_of st1 = (1, 0, 2).
Proof.
  destruct (three_scenes_two_workers
              (Scenario.supervisor_env Scenario.tools (λ _, Multiworker.Signalled))
              false Scenario.all_pass Scenario.tools Scenario.tools)
    as (_ & _ & _ & _ & _ & _ & st0 & st1 & H0 & H1 & Hs0 & Hs1 & _).
  - intros id Hid.
    repeat (apply elem_of_cons in Hid as [->|Hid]; [by_evaluation|]).
    by apply elem_of_nil in Hid.
  - intros i. repeat split.
  - intros fs Hfs.
    repeat (apply elem_of_cons in Hfs as [->|Hfs];
            [split_and!; by_evaluation|]).
    by apply elem_of_nil in Hfs.
  - exists st0, st1. split_and!; [exact H0|exact H1|exact Hs0|exact Hs1].
Defined.

(** Against C9 as stated: no worker ends with skipped 0, and neither do the
    counters of the two workers added up. *)
Lemma two_workers_count_skipped :
  Multiworker.divide_work [1; 2; 3] 2 = Py.Ok [[1; 2]; [3]]
  ∧ RunFromCsv.summary_of
      (RunFromCsv.for_rows Scenario.all_pass
         (Scenario.worker_args (Some 1) (Some 2) false false) 0
         Scenario.catalog (RunFromCsv.initial Scenario.tools)).2 = (2, 0, 1)
  ∧ RunFromCsv.summary_of
      (RunFromCsv.for_rows Scenario.all_pass
         (Scenario.worker_args (Some 3) (Some 3) false false) 0
         Scenario.catalog (RunFromCsv.initial Scenario.tools)).2 = (1, 0, 2)
  ∧ (2, 0, 1) ≠ (3, 0, 0) ∧ (1, 0, 2) ≠ (3, 0, 0)
  ∧ (2 + 1, 0 + 0, 1 + 2) ≠ (3, 0, 0).
Proof. split_and!; by_evaluation. Qed.

(** ** The supervisor: launching, monitoring and cancelling *)

Section supervisor_facts.
Import Multiworker.

Lemma on_proc_id (f : proc_state → proc_state) (ws : list worker) :
  Forall (λ w, f (proc w) = proc w) ws → on_proc f <$> ws = ws.
Proof.
  induction 1 as [|[id c p ch] ws Hw _ IH]; [done|].
  rewrite fmap_cons, IH. f_equal. simpl in Hw. unfold on_proc. simpl.
  by rewrite Hw.
Qed.

Lemma on_proc_compose (f g : proc_state → proc_state) (ws : list worker) :
  on_proc f <$> (on_proc g <$> ws) = on_proc (f ∘ g) <$> ws.
Proof. rewrite <- list_fmap_compose. by apply list_fmap_ext. Qed.

Lemma on_proc_ext (f g : proc_state → proc_state) (ws : list worker) :
  Forall (λ w, f (proc w) = g (proc w)) ws → on_proc f <$> ws = on_proc g <$> ws.
Proof.
  induction 1 as [|w ws Hw _ IH]; [done|].
  rewrite !fmap_cons, IH. f_equal. unfold on_proc. by rewrite Hw.
Qed.

Lemma tick_spec p n :
  intervals_left p = Some n →
  intervals_left (tick p) = Some (pred n) ∧ reaped (tick p) = reaped p.
Proof. destruct p as [[[|m]|] c| |c]; intros [= <-]; done. Qed.

Lemma poll_intervals_left p :
  is_Some (poll p) ↔ intervals_left p = Some 0%nat.
Proof.
  destruct p as [[m|] c| |c]; simpl; split; try done;
    try (by intros [? [=]]); by eexists.
Qed.

(** Without an interrupt, the monitoring loop ends once every worker has
    exited, each with the code it exits with by itself. *)
Lemma monitor_terminates fuel T polls processes :
  Forall (λ w, ∃ n, intervals_left (proc w) = Some n ∧ (n ≤ T)%nat) processes →
  (T < fuel)%nat →
  monitor fuel NoInterrupt polls processes
  = Some (AllDone (on_proc reaped <$> processes)).
Proof.
  revert T polls processes.
  induction fuel as [|fuel IH]; intros T polls processes Hleft HT; [lia|].
  cbn [monitor].
  destruct (forallb _ processes) eqn:Hdone.
  - do 2 f_equal. symmetry. apply on_proc_id.
    apply Forall_forall. intros w Hw.
    eapply forallb_forall in Hdone; [|by apply list_elem_of_In].
    apply bool_decide_eq_true in Hdone as [ret Hret].
    by destruct (proc w).
  - destruct T as [|T].
    { exfalso. apply not_true_iff_false in Hdone. apply Hdone.
      apply forallb_forall. intros w Hw%list_elem_of_In.
      eapply Forall_forall in Hleft as (n & Hn & Hle); [|done].
      apply bool_decide_eq_true_2, poll_intervals_left.
      rewrite Hn. f_equal. lia. }
    rewrite (IH T); [|apply Forall_fmap|lia].
    + do 2 f_equal. rewrite on_proc_compose. apply on_proc_ext.
      eapply Forall_impl; [exact Hleft|]. intros w (n & Hn & _).
      by apply (tick_spec _ n).
    + eapply Forall_impl; [exact Hleft|]. intros w (n & Hn & Hle). simpl.
      exists (pred n). split; [by apply tick_spec|lia].
Qed.




Lemma launch_spec e a intr i work_chunks processes :
  (∀ ps, interrupted_at_launch intr ps = false) →
  ∃ ws,
    launch e a intr i work_chunks processes = (Py.Ok (), processes ++ ws)
    ∧ Forall (λ w, proc w = spawn e (cmd w)) ws.
Proof.
  intros Hintr. revert i processes.
  induction work_chunks as [|c work_chunks IH]; intros i processes; simpl.
  { exists []. by rewrite app_nil_r. }
  rewrite Hintr. destruct c as [|x c].
  { apply IH. }
  destruct (worker_cmd _ _ _ _) as [command|ex] eqn:Hcmd; [|done].
  destruct (IH (S i) (processes ++ [ {| worker_id := i; cmd := command;
                                        proc := spawn e command;
                                        chunk := x :: c |} ]))
    as (ws & -> & Hws).
  eexists (_ :: ws). rewrite <- app_assoc. split; [done|].
  by constructor.
Qed.
End supervisor_facts.

Section exit_code_claims.
Import Multiworker.

Lemma status_success code : status (Some code) = "SUCCESS" ↔ code = 0.
Proof.
  split; [|by intros ->].
  destruct code; [done|discriminate..].
Qed.

(** C4 (as the code has it). The supervisor's [main] returns, and the
    process exits with status 0, whenever the monitoring loop has seen every
    worker exit, whatever the workers' return codes are: a worker that exits
    with a nonzero status is only reported as FAILED in the final summary,
    where SUCCESS stands for the return code 0.  A worker process exits with
    status 0 whenever its loop over the catalog runs to completion, whatever
    the number of items it has given up. *)
Theorem exit_code_ignores_failures :
  (∀ (se : env) (sa : args) prompts scene_ids chunks (T : nat),
     read_csv se (csv_file sa) = Some prompts →
     scenes_to_process se sa prompts = Py.Ok scene_ids → scene_ids ≠ [] →
     divide_work scene_ids (num_workers sa) = Py.Ok chunks →
     dry_run sa = false →
     (∀ command, ∃ n code,
        spawn se command = Alive (Some n) code ∧ (n < T)%nat) →
     ∃ res,
       run se sa NoInterrupt (S T) = Some res
       ∧ outcome res = Py.Returned
       ∧ Py.exit_code (outcome res) = 0
       ∧ Forall (λ w, ∃ n code, spawn se (cmd w) = Alive (Some n) code
                                ∧ proc w = Exited code) (workers res)
       ∧ summary res = (λ w, (worker_id w, status (poll (proc w)))) <$> workers res
       ∧ ∀ code, status (Some code) = "SUCCESS" ↔ code = 0)
  ∧ (∀ (we : RunFromCsv.env) (wa : RunFromCsv.args) fs prompts st,
       RunFromCsv.read_csv we (RunFromCsv.csv_file wa) = Some prompts →
       RunFromCsv.for_rows we wa 0 prompts (RunFromCsv.initial fs)
         = (Py.Ok (), st) →
       RunFromCsv.run we wa fs = (Py.Returned, st)
       ∧ Py.exit_code (RunFromCsv.run we wa fs).1 = 0).
Proof.
  split.
  - intros se sa prompts scene_ids chunks T Hcsv Hscenes Hne Hdiv Hdry Hspawn.
    unfold run. rewrite Hcsv, Hscenes.
    destruct scene_ids as [|x scene_ids]; [done|].
    rewrite Hdiv, Hdry.
    destruct (launch_spec se sa NoInterrupt 0 chunks []) as (ws & -> & Hws);
      [done|].
    cbn [interrupted_at_launch app].
    rewrite (monitor_terminates (S T) T).
    + eexists. split_and!; [done|done|done| |done|apply status_success].
      cbn [workers]. apply Forall_fmap.
      eapply Forall_impl; [exact Hws|]. intros w Hw. simpl.
      destruct (Hspawn (cmd w)) as (n & code & Hn & _).
      exists n, code. split; [done|]. by rewrite Hw, Hn.
    + eapply Forall_impl; [exact Hws|]. intros w Hw.
      destruct (Hspawn (cmd w)) as (n & code & Hn & Hlt).
      exists (S n). rewrite Hw, Hn. split; [done|lia].
    + lia.
  - intros we wa fs prompts st Hcsv Hloop.
    unfold RunFromCsv.run. by rewrite Hcsv, Hloop.
Qed.
End exit_code_claims.

(** Both workers crash with status 1 and the supervisor exits with status 0;
    a worker that gives up its first item exits with status 0. *)
Lemma exit_code_ignores_failures_witness :
  (∃ res,
     Multiworker.run Scenario.crashing_workers (Scenario.supervisor_args 2 false)
       Multiworker.NoInterrupt 3 = Some res
     ∧ Py.exit_code (Multiworker.outcome res) = 0
     ∧ Multiworker.summary res
       = [(0%nat, "FAILED (exit code 1)"); (1%nat, "FAILED (exit code 1)")])
  ∧ (∃ st,
       RunFromCsv.run Scenario.first_item_poisoned
         (Scenario.worker_args None None false false) Scenario.tools
       = (Py.Returned, st)
       ∧ RunFromCsv.failed st = 1).
Proof.
  destruct exit_code_ignores_failures as [Hsup Hworker]. split.
  - destruct (Hsup Scenario.crashing_workers (Scenario.supervisor_args 2 false)
                Scenario.catalog [1; 2; 3] [[1; 2]; [3]] 2%nat)
      as (res & Hrun & _ & Hcode & _ & Hsum & _);
      [by_evaluation|by_evaluation|discriminate|by_evaluation|reflexivity| |].
    { intros command. exists 1%nat, 1. split; [reflexivity|lia]. }
    exists res. split_and!; [exact Hrun|exact Hcode|].
    rewrite Hsum. revert Hrun. vm_compute. intros [= <-]. reflexivity.
  - pose (st := (RunFromCsv.for_rows Scenario.first_item_poisoned
                   (Scenario.worker_args None None false false) 0
                   Scenario.catalog (RunFromCsv.initial Scenario.tools)).2).
    destruct (Hworker Scenario.first_item_poisoned
                (Scenario.worker_args None None false false) Scenario.tools
                Scenario.catalog st ltac:(reflexivity) ltac:(by_evaluation))
      as [Hrun _].
    exists st. split; [exact Hrun|by_evaluation].
Defined.

(** Against C4 as stated: both worker processes exit with status 1, and the
    supervisor's [main] returns normally, so that it exits with status 0. *)
Lemma orchestrator_exits_zero_after_worker_crash :
  ∃ res,
    Multiworker.main Scenario.crashing_workers ["--num_workers"; "2"]
      Multiworker.NoInterrupt 3 = Some res
    ∧ Py.exit_code (Multiworker.outcome res) = 0
    ∧ Multiworker.proc <$> Multiworker.workers res
      = [Multiworker.Exited 1; Multiworker.Exited 1].
Proof.
  eexists. split; [vm_compute; reflexivity|]. split; reflexivity.
Qed.

Section cancellation_claims.
Import Multiworker.

Lemma int_raises_ValueError s ex : Py.int s = Py.Raise ex → ex = Py.ValueError.
Proof.
  unfold Py.int. repeat case_match; by intros [= <-].
Qed.

Lemma read_ids_not_interrupt prompts ex :
  read_ids prompts = Py.Raise ex → ex ≠ Py.KeyboardInterrupt.
Proof.
  induction prompts as [|r prompts IH]; simpl; [done|].
  destruct (r !! "ID") as [id_text|]; [|by intros [= <-]].
  destruct (Py.int id_text) as [i|ex'] eqn:Hint.
  - destruct (read_ids prompts); [done|]. intros [= <-]. by apply IH.
  - intros [= <-]. by rewrite (int_raises_ValueError _ _ Hint).
Qed.


End cancellation_claims.



(** ** The command line the supervisor builds for a worker *)

Section str_facts.

Lemma digit_cases c n :
  Py.digit_value c = Some n →
  c ∈ ["0"; "1"; "2"; "3"; "4"; "5"; "6"; "7"; "8"; "9"]%char.
Proof.
  destruct c as [[] [] [] [] [] [] [] []]; intros Hc;
    try (by vm_compute in Hc); by_evaluation.
Qed.

Lemma pretty_N_char_digit x :
  (x < 10)%N → Py.digit_value (pretty_N_char x) = Some x.
Proof.
  intros Hx.
  assert (x ∈ [0; 1; 2; 3; 4; 5; 6; 7; 8; 9]%N) as Hin.
  { assert (x = 0 ∨ x = 1 ∨ x = 2 ∨ x = 3 ∨ x = 4 ∨ x = 5 ∨ x = 6 ∨ x = 7
            ∨ x = 8 ∨ x = 9)%N as Hcases by lia.
    repeat (destruct Hcases as [->|Hcases]; [by_evaluation|]).
    subst. by_evaluation. }
  repeat (apply elem_of_cons in Hin as [->|Hin]; [done|]).
  by apply elem_of_nil in Hin.
Qed.

End str_facts.

(** Case analysis on a digit character. *)
Ltac digit_cases H :=
  apply digit_cases, list_elem_of_In in H; simpl in H;
  repeat (destruct H as [<-|H]); [..|destruct H].

Section str_round_trip.

Lemma digit_not_space c n : Py.digit_value c = Some n → Ascii.is_space c = false.
Proof. intros Hc. digit_cases Hc; done. Qed.

Lemma digit_not_underscore c n :
  Py.digit_value c = Some n → Ascii.eqb c "_" = false.
Proof. intros Hc. digit_cases Hc; done. Qed.

Lemma all_digits_cons c s :
  Argparse.all_digits (String c s) = true ↔
  (∃ n, Py.digit_value c = Some n) ∧ Argparse.all_digits s = true.
Proof.
  simpl. rewrite andb_true_iff, bool_decide_eq_true. done.
Qed.

Lemma pretty_N_go_digits x s :
  Argparse.all_digits s = true → Argparse.all_digits (pretty_N_go x s) = true.
Proof.
  revert s. induction (N.lt_wf_0 x) as [x _ IH]; intros s Hs.
  destruct (decide (x = 0)%N) as [->|Hx]; [done|].
  rewrite pretty_N_go_step by lia. apply IH.
  - apply N.div_lt; lia.
  - apply all_digits_cons. split; [|done].
    exists (x `mod` 10)%N. apply pretty_N_char_digit. by apply N.mod_lt.
Qed.

Lemma pretty_N_go_length x s :
  (String.length s ≤ String.length (pretty_N_go x s))%nat.
Proof.
  revert s. induction (N.lt_wf_0 x) as [x _ IH]; intros s.
  destruct (decide (x = 0)%N) as [->|Hx]; [done|].
  rewrite pretty_N_go_step by lia.
  etrans; [|apply IH; apply N.div_lt; lia]. simpl. lia.
Qed.

Lemma digits_value_pretty x s b :
  (0 < x)%N →
  Py.digits_value 0 b (pretty_N_go x s) = Py.digits_value x true s.
Proof.
  revert s b. induction (N.lt_wf_0 x) as [x _ IH]; intros s b Hx.
  rewrite pretty_N_go_step by done.
  pose proof (pretty_N_char_digit (x `mod` 10)
                ltac:(by apply N.mod_lt)) as Hdigit.
  assert (∀ acc b', Py.digits_value acc b'
                      (String (pretty_N_char (x `mod` 10)) s)
                    = Py.digits_value (acc * 10 + x `mod` 10) true s) as Hstep.
  { intros acc b'. cbn [Py.digits_value].
    by rewrite (digit_not_underscore _ _ Hdigit), Hdigit. }
  destruct (decide (x `div` 10 = 0)%N) as [Hsmall|Hbig].
  - rewrite Hsmall, pretty_N_go_0, Hstep. f_equal.
    pose proof (N.div_mod x 10 ltac:(done)) as Hdm.
    rewrite Hsmall, N.mul_0_r in Hdm. by rewrite N.mul_0_l.
  - rewrite IH, Hstep; [|apply N.div_lt; lia|by apply N.neq_0_lt_0]. f_equal.
    pose proof (N.div_mod x 10 ltac:(done)) as Hdm.
    by rewrite N.mul_comm.
Qed.

Lemma rstrip_digits s : Argparse.all_digits s = true → Py.rstrip s = s.
Proof.
  induction s as [|c s IH]; [done|].
  intros [[n Hc] Hs]%all_digits_cons. cbn [Py.rstrip]. rewrite (IH Hs).
  destruct s; [|done]. by rewrite (digit_not_space _ _ Hc).
Qed.

(** The decimal text of a natural number: digits only, at least one. *)
Lemma pretty_N_shape (x : N) :
  ∃ d rest n,
    pretty x = String d rest ∧ Py.digit_value d = Some n
    ∧ Argparse.all_digits rest = true
    ∧ Py.digits_value 0 false (pretty x) = Some x.
Proof.
  unfold pretty, pretty_N. case_decide as Hx.
  { subst. by exists "0"%char, "", 0%N. }
  pose proof (pretty_N_go_digits x "" eq_refl) as Hdigits.
  pose proof (pretty_N_go_length (x `div` 10)
                (String (pretty_N_char (x `mod` 10)) "")) as Hlen.
  pose proof (digits_value_pretty x "" false ltac:(lia)) as Hvalue.
  rewrite <- pretty_N_go_step in Hlen by lia.
  destruct (pretty_N_go x "") as [|d rest]; [simpl in Hlen; lia|].
  apply all_digits_cons in Hdigits as [[n Hd] Hrest].
  by exists d, rest, n.
Qed.

(** [int(str(z))] is [z]. *)
Lemma int_str z : Py.int (Py.str z) = Py.Ok z.
Proof.
  unfold Py.str, pretty, pretty_Z.
  destruct z as [|p|p]; [done| |].
  - unfold pretty, pretty_positive.
    destruct (pretty_N_shape (N.pos p)) as (d & rest & n & Hs & Hd & Hrest & Hv).
    rewrite Hs in *. unfold Py.int. cbn [Py.lstrip].
    rewrite (digit_not_space _ _ Hd), rstrip_digits
      by (apply all_digits_cons; eauto).
    digit_cases Hd; by rewrite Hv.
  - unfold pretty, pretty_positive.
    destruct (pretty_N_shape (N.pos p)) as (d & rest & n & Hs & Hd & Hrest & Hv).
    rewrite Hs in *. unfold Py.int.
    change ("-" +:+ String d rest) with (String "-" (String d rest)).
    cbn [Py.lstrip]. change (Ascii.is_space "-") with false. cbn [Py.rstrip].
    rewrite rstrip_digits by done.
    destruct rest; [rewrite (digit_not_space _ _ Hd)|]; by rewrite Hv.
Qed.
End str_round_trip.

Section command_line_facts.

Lemma parse_optional_no_dash p s :
  Argparse.starts_with_dash s = false →
  Argparse.parse_optional p s = Argparse.PositionalArg.
Proof.
  destruct s as [|c s]; [done|].
  by destruct c as [[] [] [] [] [] [] [] []].
Qed.

Lemma not_separator_no_dash s :
  Argparse.starts_with_dash s = false → String.eqb s "--" = false.
Proof.
  destruct s as [|c s]; [done|].
  by destruct c as [[] [] [] [] [] [] [] []].
Qed.

Lemma index_equals_digits s n :
  Argparse.all_digits s = true → String.index n "=" s = None.
Proof.
  revert n. induction s as [|c s IH]; intros n Hs.
  { by destruct n. }
  apply all_digits_cons in Hs as [[m Hc] Hs].
  destruct n as [|n]; cbn [String.index].
  - rewrite (IH 0%nat Hs). by digit_cases Hc.
  - by rewrite (IH n Hs).
Qed.

(** The text of an integer is taken for an argument, not for an option,
    also when the integer is negative. *)
Lemma str_is_argument z :
  String.eqb (Py.str z) "--" = false
  ∧ Argparse.parse_optional RunFromCsv.parser (Py.str z) = Argparse.PositionalArg.
Proof.
  unfold Py.str, pretty, pretty_Z. destruct z as [|p|p]; [done| |].
  - unfold pretty, pretty_positive.
    destruct (pretty_N_shape (N.pos p)) as (d & rest & n & -> & Hd & _).
    assert (Argparse.starts_with_dash (String d rest) = false) as Hdash
      by (by digit_cases Hd).
    split; [by apply not_separator_no_dash|by apply parse_optional_no_dash].
  - unfold pretty, pretty_positive.
    destruct (pretty_N_shape (N.pos p)) as (d & rest & n & -> & Hd & Hrest & _).
    change ("-" +:+ String d rest) with (String "-" (String d rest)).
    split; [by digit_cases Hd|].
    assert (Argparse.split_eq (String "-" (String d rest)) = None) as Hsplit.
    { unfold Argparse.split_eq. cbn [String.index].
      rewrite (index_equals_digits rest 0) by done.
      change (String.prefix "=" (String "-" (String d rest))) with false.
      cbn iota. by digit_cases Hd. }
    assert (Argparse.looks_negative_number (String "-" (String d rest)) = true)
      as Hneg.
    { cbn [Argparse.looks_negative_number Argparse.all_digits String.eqb negb andb].
      rewrite Hrest, bool_decide_eq_true_2 by eauto. done. }
    unfold Argparse.parse_optional.
    digit_cases Hd; rewrite Hsplit, Hneg; vm_compute; reflexivity.
Qed.

Lemma classify_spec p argv toks :
  Forall2 (λ s tok, String.eqb s "--" = false ∧ Argparse.token_of p s = Some tok)
    argv toks →
  Argparse.classify p argv = Argparse.Parsed toks.
Proof.
  induction 1 as [|s tok argv toks [Hsep Htok] _ IH]; [done|].
  cbn [Argparse.classify]. rewrite Hsep, IH.
  unfold Argparse.token_of in Htok.
  destruct (Argparse.parse_optional p s); by simplify_eq.
Qed.
End command_line_facts.

Section timeout_flag.

Lemma argument_token p s :
  String.eqb s "--" = false →
  Argparse.parse_optional p s = Argparse.PositionalArg →
  String.eqb s "--" = false ∧ Argparse.token_of p s = Some (Argparse.A s).
Proof. intros Hsep Hpos. unfold Argparse.token_of. by rewrite Hpos. Qed.

(** C3 (what the code does). Every command line the supervisor builds for
    a worker carries [--timeout] and the supervisor's timeout, and the
    worker's parser knows no such option: [parse_args] reports the two tokens
    as unrecognized arguments and the worker exits with status 2, before it
    reads the catalog and without a single stage invocation. *)
Theorem worker_rejects_timeout_flag (se : Multiworker.env)
    (sa : Multiworker.args) (chunk : list Z) (command : list string)
    (we : RunFromCsv.env) (fs : gset string) :
  Multiworker.worker_cmd (Multiworker.executable se) (Multiworker.script_dir se)
    sa chunk = Py.Ok command →
  Argparse.starts_with_dash (Multiworker.csv_file sa) = false →
  Argparse.starts_with_dash (Multiworker.results_dir sa) = false →
  RunFromCsv.parse_args (RunFromCsv.home we) (drop 2 command)
    = Argparse.Error
        (Argparse.Unrecognized ["--timeout"; Py.str (Multiworker.timeout sa)])
  ∧ RunFromCsv.main we (drop 2 command) fs
    = (Py.SystemExit 2, RunFromCsv.initial fs)
  ∧ Py.exit_code (RunFromCsv.main we (drop 2 command) fs).1 = 2
  ∧ RunFromCsv.trace (RunFromCsv.main we (drop 2 command) fs).2 = []
  ∧ worker_process we fs command = Multiworker.Alive (Some 0%nat) 2.
Proof.
  intros Hcmd Hcsv Hres.
  unfold Multiworker.worker_cmd in Hcmd.
  destruct (Py.min chunk) as [lo|]; [|done].
  destruct (Py.max chunk) as [hi|]; [|done].
  simpl in Hcmd. injection Hcmd as <-.
  destruct (str_is_argument lo) as [Hlo1 Hlo2].
  destruct (str_is_argument hi) as [Hhi1 Hhi2].
  destruct (str_is_argument (Multiworker.timeout sa)) as [Ht1 Ht2].
  pose proof (not_separator_no_dash _ Hcsv) as Hcsv1.
  pose proof (parse_optional_no_dash RunFromCsv.parser _ Hcsv) as Hcsv2.
  pose proof (not_separator_no_dash _ Hres) as Hres1.
  pose proof (parse_optional_no_dash RunFromCsv.parser _ Hres) as Hres2.
  assert (RunFromCsv.parse_args (RunFromCsv.home we)
            (["--csv_file"; Multiworker.csv_file sa;
              "--results_dir"; Multiworker.results_dir sa;
              "--start_id"; Py.str lo; "--end_id"; Py.str hi;
              "--timeout"; Py.str (Multiworker.timeout sa)]
             ++ (if Multiworker.skip_existing sa then ["--skip_existing"] else [])
             ++ (if Multiworker.skip_retrieve sa then ["--skip_retrieve"] else [])
             ++ (if Multiworker.skip_render sa then ["--skip_render"] else []))
          = Argparse.Error
              (Argparse.Unrecognized
                 ["--timeout"; Py.str (Multiworker.timeout sa)])) as Hparse.
  { unfold RunFromCsv.parse_args, Argparse.parse_args.
    destruct (Multiworker.skip_existing sa), (Multiworker.skip_retrieve sa),
      (Multiworker.skip_render sa); cbn [app];
      (erewrite classify_spec;
       [|repeat (constructor;
                 [first [ by apply argument_token
                        | split; vm_compute; reflexivity ]|]);
         constructor]);
      cbn [Argparse.consume Argparse.act Argparse.dest Argparse.convert app];
      by rewrite !int_str. }
  unfold worker_process, RunFromCsv.main. cbn [app drop].
  cbn [app] in Hparse. rewrite Hparse. done.
Qed.
End timeout_flag.

(** Worker 0 of the three-scene catalog, started as the supervisor starts
    it. *)
Lemma worker_rejects_timeout_flag_witness :
  RunFromCsv.main Scenario.all_pass
    ["--csv_file"; "annotations.csv"; "--results_dir"; "results";
     "--start_id"; "1"; "--end_id"; "2"; "--timeout"; "3600"] Scenario.tools
  = (Py.SystemExit 2, RunFromCsv.initial Scenario.tools).
Proof.
  exact (proj1 (proj2
    (worker_rejects_timeout_flag
       (Scenario.supervisor_env Scenario.tools (λ _, Multiworker.Signalled))
       (Scenario.supervisor_args 2 false) [1; 2]
       ["/usr/bin/python3"; "/opt/IDesign/run_from_csv.py";
        "--csv_file"; "annotations.csv"; "--results_dir"; "results";
        "--start_id"; "1"; "--end_id"; "2"; "--timeout"; "3600"]
       Scenario.all_pass Scenario.tools
       ltac:(by_evaluation) ltac:(reflexivity) ltac:(reflexivity)))).
Defined.

Section command_line_examples.

(** X18. Apart from the timeout, the worker's parser reads the command line
    as the supervisor writes it: [--start_id] and [--end_id] followed by
    [str] of the bounds are read back as these bounds, negative ones too,
    the two paths are taken as they are, and each of the three toggles is
    set exactly when the supervisor has it set. *)
Lemma worker_reads_range_and_toggles (sa : Multiworker.args) (lo hi : Z)
    (home : string) :
  Argparse.starts_with_dash (Multiworker.csv_file sa) = false →
  Argparse.starts_with_dash (Multiworker.results_dir sa) = false →
  RunFromCsv.parse_args home
    (["--csv_file"; Multiworker.csv_file sa;
      "--results_dir"; Multiworker.results_dir sa;
      "--start_id"; Py.str lo; "--end_id"; Py.str hi]
     ++ (if Multiworker.skip_existing sa then ["--skip_existing"] else [])
     ++ (if Multiworker.skip_retrieve sa then ["--skip_retrieve"] else [])
     ++ (if Multiworker.skip_render sa then ["--skip_render"] else []))
  = Argparse.Parsed
      {| RunFromCsv.csv_file := Multiworker.csv_file sa;
         RunFromCsv.results_dir := Multiworker.results_dir sa;
         RunFromCsv.start_id := Some lo; RunFromCsv.end_id := Some hi;
         RunFromCsv.auto := true; RunFromCsv.verbose := false;
         RunFromCsv.skip_retrieve := Multiworker.skip_retrieve sa;
         RunFromCsv.skip_render := Multiworker.skip_render sa;
         RunFromCsv.skip_existing := Multiworker.skip_existing sa |}.
Proof.
  intros Hcsv Hres.
  destruct (str_is_argument lo) as [Hlo1 Hlo2].
  destruct (str_is_argument hi) as [Hhi1 Hhi2].
  pose proof (not_separator_no_dash _ Hcsv) as Hcsv1.
  pose proof (parse_optional_no_dash RunFromCsv.parser _ Hcsv) as Hcsv2.
  pose proof (not_separator_no_dash _ Hres) as Hres1.
  pose proof (parse_optional_no_dash RunFromCsv.parser _ Hres) as Hres2.
  unfold RunFromCsv.parse_args, Argparse.parse_args.
  destruct (Multiworker.skip_existing sa), (Multiworker.skip_retrieve sa),
    (Multiworker.skip_render sa); cbn [app];
    (erewrite classify_spec;
     [|repeat (constructor;
               [first [ by apply argument_token
                      | split; vm_compute; reflexivity ]|]);
       constructor]);
    cbn [Argparse.consume Argparse.act Argparse.dest Argparse.convert app];
    by rewrite !int_str.
Qed.

(** The supervisor run on the three scenes with real workers: both exit
    with status 2, and the supervisor reports them and exits with status 0. *)
Lemma real_workers_all_exit_2 :
  ∃ res,
    Multiworker.main Scenario.real_workers ["--num_workers"; "2"]
      Multiworker.NoInterrupt 3 = Some res
    ∧ Multiworker.summary res
      = [(0%nat, "FAILED (exit code 2)"); (1%nat, "FAILED (exit code 2)")]
    ∧ Multiworker.chunk <$> Multiworker.workers res = [[1; 2]; [3]]
    ∧ Py.exit_code (Multiworker.outcome res) = 0.
Proof.
  eexists. split; [vm_compute; reflexivity|]. by split_and!.
Qed.
End command_line_examples.

(* ================================================================= *)
(** * Part III: further properties of the scripts *)

(** The closed premises of a statement, settled by evaluation. *)
Ltac premises_by_evaluation H :=
  repeat lazymatch type of H with
         | ?P → _ =>
             let h := fresh in
             assert P as h by (first [by_evaluation | exact eq_refl]);
             specialize (H h); clear h
         end.

(** ** The worker: counters, attempts and stages *)

Section worker_invariants.
Import RunFromCsv.
Context (e : env) (a : args).

Lemma max_retries_last : seqZ 1 MAX_RETRIES = seqZ 1 9 ++ [MAX_RETRIES].
Proof. reflexivity. Qed.

Lemma max_retries_fresh : MAX_RETRIES ∉ seqZ 1 9.
Proof. rewrite elem_of_seqZ. unfold MAX_RETRIES. lia. Qed.

(** What the retry loop does to the counters when its last attempt is the
    last of the budget. *)
Lemma retry_loop_outcome i pid rf l st :
  MAX_RETRIES ∉ l →
  let r := retry_loop e a i pid rf (l ++ [MAX_RETRIES]) st in
  skipped r.2 = skipped st
  ∧ match r.1 with
    | Py.Ok _ =>
        (successful r.2 = successful st + 1 ∧ failed r.2 = failed st)
        ∨ (successful r.2 = successful st ∧ failed r.2 = failed st + 1)
    | Py.Raise ex =>
        successful r.2 = successful st ∧ failed r.2 = failed st
        ∧ Py.is_Exception ex = false
    end.
Proof.
  revert st. induction l as [|k l IH]; intros st Hl; cbn [app retry_loop].
  - destruct (attempt_spec e a i pid rf MAX_RETRIES st) as (_ & Hs & Hf & Hsk & _).
    destruct (attempt e a i pid rf MAX_RETRIES st) as [[|ex] st1]; simpl in *.
    + split; [done|]. left. by rewrite Hs, Hf.
    + destruct (Py.is_Exception ex) eqn:Hex; simpl.
      * split; [done|]. right. by rewrite Hs, Hf.
      * by rewrite Hs, Hf.
  - apply not_elem_of_cons in Hl as [Hk Hl].
    destruct (attempt_spec e a i pid rf k st) as (_ & Hs & Hf & Hsk & _).
    destruct (attempt e a i pid rf k st) as [[|ex] st1]; simpl in *.
    + split; [done|]. left. by rewrite Hs, Hf.
    + destruct (Py.is_Exception ex) eqn:Hex; simpl.
      * destruct (Z.eqb_spec k MAX_RETRIES) as [->|_]; [done|].
        specialize (IH (log (LogAttemptFailed pid k ex) st1) Hl).
        simpl in IH. by rewrite Hs, Hf, Hsk in IH.
      * by rewrite Hs, Hf.
Qed.

(** A record that raises nothing moves exactly one of the three counters,
    by one; a record that raises moves none. *)
Lemma process_row_outcome i (r : row) st :
  let res := process_row e a i r st in
  match res.1 with
  | Py.Ok _ =>
      (successful res.2 = successful st + 1 ∧ failed res.2 = failed st
       ∧ skipped res.2 = skipped st)
      ∨ (successful res.2 = successful st ∧ failed res.2 = failed st + 1
         ∧ skipped res.2 = skipped st)
      ∨ (successful res.2 = successful st ∧ failed res.2 = failed st
         ∧ skipped res.2 = skipped st + 1)
  | Py.Raise _ =>
      successful res.2 = successful st ∧ failed res.2 = failed st
      ∧ skipped res.2 = skipped st
  end.
Proof.
  unfold process_row.
  destruct (r !! "ID") as [id_text|]; [|done].
  destruct (Py.int id_text) as [pid|ex]; [|done].
  destruct (below_start a pid); [by right; right|].
  destruct (above_end a pid); [by right; right|].
  destruct (r !! "Description") as [description|]; [|done].
  destruct (skip_existing a && path_exists st _); [by right; right|].
  rewrite max_retries_last.
  pose proof (retry_loop_outcome i pid (render_file (results_dir a) pid)
                (seqZ 1 9) st max_retries_fresh) as [Hsk H].
  cbv zeta in *.
  destruct (retry_loop _ _ _ _ _ _ _) as [[[]|ex] st1]; cbn [fst snd] in *.
  - destruct H as [[? ?]|[? ?]]; [left|right; left]; done.
  - destruct H as (? & ? & _). done.
Qed.

Lemma for_rows_outcome prompts i st :
  let res := for_rows e a i prompts st in
  successful st ≤ successful res.2 ∧ failed st ≤ failed res.2
  ∧ skipped st ≤ skipped res.2
  ∧ match res.1 with
    | Py.Ok _ =>
        successful res.2 + failed res.2 + skipped res.2 =
        successful st + failed st + skipped st + Z.of_nat (length prompts)
    | Py.Raise _ =>
        successful res.2 + failed res.2 + skipped res.2 <
        successful st + failed st + skipped st + Z.of_nat (length prompts)
    end.
Proof.
  revert i st. induction prompts as [|r prompts IH]; intros i st.
  - simpl. lia.
  - cbn [for_rows length].
    pose proof (process_row_outcome i r st) as Hrow. simpl in Hrow.
    destruct (process_row e a i r st) as [[[]|ex] st1]; simpl in *.
    + specialize (IH (S i) st1).
      destruct (for_rows e a (S i) prompts st1) as [[[]|ex] st2]; simpl in *; lia.
    + lia.
Qed.

End worker_invariants.

Section worker_lifting.
Import RunFromCsv.
Context (e : env) (a : args) (I : gset string → Prop) (P : event → Prop).
Hypothesis P_completed : ∀ pid k, P (LogCompleted pid k).
Hypothesis P_failed : ∀ pid k ex, P (LogAttemptFailed pid k ex).
Hypothesis P_gave_up : ∀ pid, P (LogGaveUp pid).
Hypothesis P_skipping : ∀ pid, P (LogSkipping pid).
Hypothesis attempt_keeps : ∀ i pid rf k st,
  I (files st) →
  I (files (attempt e a i pid rf k st).2)
  ∧ ∃ evs, trace (attempt e a i pid rf k st).2 = trace st ++ evs ∧ Forall P evs.

Lemma retry_loop_keeps i pid rf attempts st :
  I (files st) →
  let r := retry_loop e a i pid rf attempts st in
  I (files r.2) ∧ ∃ evs, trace r.2 = trace st ++ evs ∧ Forall P evs.
Proof.
  revert st. induction attempts as [|k attempts IH]; intros st HI;
    cbn [retry_loop].
  - split; [done|]. exists []. by rewrite app_nil_r.
  - destruct (attempt_keeps i pid rf k st HI) as (HI1 & evs & Htr & Hevs).
    destruct (attempt e a i pid rf k st) as [[|ex] st1]; cbn [fst snd] in *.
    + split; [done|]. exists (evs ++ [LogCompleted pid k]). simpl.
      rewrite Htr, <- app_assoc. split; [done|].
      apply Forall_app. split; [done|]. by constructor.
    + destruct (Py.is_Exception ex).
      * destruct (k =? MAX_RETRIES).
        -- destruct (IH (incr_failed (log (LogGaveUp pid)
                           (log (LogAttemptFailed pid k ex) st1))) HI1)
             as (HI2 & evs2 & Htr2 & Hevs2).
           split; [done|].
           exists (evs ++ [LogAttemptFailed pid k ex; LogGaveUp pid] ++ evs2).
           rewrite Htr2. simpl. rewrite Htr, <- !app_assoc. split; [done|].
           apply Forall_app. split; [done|].
           repeat (constructor; [done|]). done.
        -- destruct (IH (log (LogAttemptFailed pid k ex) st1) HI1)
             as (HI2 & evs2 & Htr2 & Hevs2).
           split; [done|].
           exists (evs ++ [LogAttemptFailed pid k ex] ++ evs2).
           rewrite Htr2. simpl. rewrite Htr, <- !app_assoc. split; [done|].
           apply Forall_app. split; [done|]. by constructor.
      * split; [done|]. by exists evs.
Qed.

Lemma process_row_keeps i (r : row) st :
  I (files st) →
  let res := process_row e a i r st in
  I (files res.2) ∧ ∃ evs, trace res.2 = trace st ++ evs ∧ Forall P evs.
Proof.
  intros HI. unfold process_row.
  assert (I (files st) ∧ ∃ evs, trace st = trace st ++ evs ∧ Forall P evs)
    as Hsame.
  { split; [done|]. exists []. by rewrite app_nil_r. }
  destruct (r !! "ID") as [id_text|]; [|done].
  destruct (Py.int id_text) as [pid|ex]; [|done].
  destruct (below_start a pid); [done|].
  destruct (above_end a pid); [done|].
  destruct (r !! "Description") as [description|]; [|done].
  destruct (skip_existing a && path_exists st _).
  - split; [done|]. exists [LogSkipping pid]. split; [done|]. by constructor.
  - by apply retry_loop_keeps.
Qed.

Lemma for_rows_keeps prompts i st :
  I (files st) →
  let res := for_rows e a i prompts st in
  I (files res.2) ∧ ∃ evs, trace res.2 = trace st ++ evs ∧ Forall P evs.
Proof.
  revert i st. induction prompts as [|r prompts IH]; intros i st HI;
    cbn [for_rows].
  - split; [done|]. exists []. by rewrite app_nil_r.
  - destruct (process_row_keeps i r st HI) as (HI1 & evs & Htr & Hevs).
    destruct (process_row e a i r st) as [[[]|ex] st1]; cbn [fst snd] in *.
    + destruct (IH (S i) st1 HI1) as (HI2 & evs2 & Htr2 & Hevs2).
      split; [done|]. exists (evs ++ evs2).
      rewrite Htr2, Htr, <- app_assoc. split; [done|]. by apply Forall_app.
    + split; [done|]. by exists evs.
Qed.

Hypothesis attempt_never_completes : ∀ i pid rf k st,
  I (files st) → (attempt e a i pid rf k st).1 ≠ Completed.

Lemma retry_loop_no_success i pid rf attempts st :
  I (files st) →
  successful (retry_loop e a i pid rf attempts st).2 = successful st.
Proof.
  revert st. induction attempts as [|k attempts IH]; intros st HI;
    cbn [retry_loop]; [done|].
  pose proof (attempt_never_completes i pid rf k st HI) as Hnever.
  destruct (attempt_keeps i pid rf k st HI) as (HI1 & _).
  destruct (attempt_spec e a i pid rf k st) as (_ & Hs & _).
  destruct (attempt e a i pid rf k st) as [[|ex] st1]; cbn [fst snd] in *;
    [done|].
  destruct (Py.is_Exception ex); [|done].
  destruct (k =? MAX_RETRIES); rewrite IH by done; done.
Qed.

Lemma for_rows_no_success prompts i st :
  I (files st) →
  successful (for_rows e a i prompts st).2 = successful st.
Proof.
  revert i st. induction prompts as [|r prompts IH]; intros i st HI;
    cbn [for_rows]; [done|].
  destruct (process_row_keeps i r st HI) as (HI1 & _).
  assert (successful (process_row e a i r st).2 = successful st) as Hs.
  { unfold process_row.
    destruct (r !! "ID") as [id_text|]; [|done].
    destruct (Py.int id_text) as [pid|ex]; [|done].
    destruct (below_start a pid); [done|].
    destruct (above_end a pid); [done|].
    destruct (r !! "Description") as [description|]; [|done].
    destruct (skip_existing a && path_exists st _); [done|].
    by apply retry_loop_no_success. }
  destruct (process_row e a i r st) as [[[]|ex] st1]; cbn [fst snd] in *.
  - by rewrite IH.
  - done.
Qed.

End worker_lifting.

Section attempt_facts.
Import RunFromCsv.
Context (e : env) (a : args).

Lemma attempt_disabled_stages i pid rf k st :
  let r := attempt e a i pid rf k st in
  (skip_render a = true → files r.2 = files st)
  ∧ ∃ evs, trace r.2 = trace st ++ evs
      ∧ Forall (λ ev, (skip_retrieve a = true → ¬ uses_stage Retrieve ev)
                      ∧ (skip_render a = true → ¬ uses_stage Blender ev)) evs.
Proof.
  unfold attempt.
  assert (∀ ev, ev = Invoke Generate i pid k →
            (skip_retrieve a = true → ¬ uses_stage Retrieve ev)
            ∧ (skip_render a = true → ¬ uses_stage Blender ev)) as Hgen.
  { intros ev ->. simpl. split; intros _ [=]. }
  destruct (generate_scene e i k) as [ex|]; cbn [fst snd].
  { split; [done|]. exists [Invoke Generate i pid k]. split; [done|].
    constructor; [by apply Hgen|done]. }
  destruct (skip_retrieve a) eqn:Hsr; cbn [negb].
  - destruct (skip_render a) eqn:Hsb; cbn [negb fst snd].
    + split; [done|]. exists [Invoke Generate i pid k]. split; [done|].
      constructor; [by apply Hgen|done].
    + split; [done|].
      pose proof (run_blender_spec e i pid k rf (log (Invoke Generate i pid k) st))
        as (_ & _ & _ & _ & Htr & _).
      destruct (run_blender _ _ _ _ _ _) as [[] st3]; cbn [fst snd negb] in *.
      * destruct (path_exists _ rf); cbn [negb fst snd trace log];
          (destruct Htr as [->| ->]; cbn [trace log]; rewrite <- ?app_assoc;
           eexists; (split; [done|]);
           repeat (constructor; [split; [intros _ [=]|done]|]); done).
      * destruct Htr as [->| ->]; cbn [trace log]; rewrite <- ?app_assoc;
          eexists; (split; [done|]);
          repeat (constructor; [split; [intros _ [=]|done]|]); done.
  - pose proof (run_retrieve_spec e i pid k (log (Invoke Generate i pid k) st))
      as (Hf & _ & _ & _ & Htr & _).
    destruct (run_retrieve _ _ _ _ _) as [[] st2]; cbn [fst snd negb] in *.
    + destruct (skip_render a) eqn:Hsb; cbn [negb fst snd].
      * split; [done|].
        destruct Htr as [->| ->]; cbn [trace log]; rewrite <- ?app_assoc;
          eexists; (split; [done|]);
          repeat (constructor; [split; [done|intros _ [=]]|]); done.
      * split; [done|].
        pose proof (run_blender_spec e i pid k rf st2)
          as (_ & _ & _ & _ & Htr' & _).
        destruct (run_blender _ _ _ _ _ _) as [[] st3]; cbn [fst snd negb] in *.
        -- destruct (path_exists _ rf); cbn [negb fst snd trace log];
             (destruct Htr' as [->| ->]; destruct Htr as [->| ->];
              cbn [trace log]; rewrite <- ?app_assoc;
              eexists; (split; [done|]);
              repeat (constructor; [split; done|]); done).
        -- destruct Htr' as [->| ->]; destruct Htr as [->| ->];
             cbn [trace log]; rewrite <- ?app_assoc;
             eexists; (split; [done|]);
             repeat (constructor; [split; done|]); done.
    + split; [done|].
      destruct Htr as [->| ->]; cbn [trace log]; rewrite <- ?app_assoc;
        eexists; (split; [done|]);
        repeat (constructor; [split; [done|intros _; try intros [=]; done]|]); done.
Qed.

End attempt_facts.

Section worker_extras.
Import RunFromCsv.

(** X1. Every record of the catalog is counted exactly once: when the worker
    returns, [successful + failed + skipped] is the number of records of the
    catalog; when it ends with an uncaught exception, the three counters add
    up to less than that.  No counter is ever negative. *)
Theorem summary_accounts_for_every_record (e : env) (a : args)
    (fs : gset string) (prompts : list row) :
  read_csv e (csv_file a) = Some prompts →
  let r := run e a fs in
  0 ≤ successful r.2 ∧ 0 ≤ failed r.2 ∧ 0 ≤ skipped r.2
  ∧ (r.1 = Py.Returned →
     successful r.2 + failed r.2 + skipped r.2 = Z.of_nat (length prompts))
  ∧ (r.1 ≠ Py.Returned →
     successful r.2 + failed r.2 + skipped r.2 < Z.of_nat (length prompts)).
Proof.
  intros Hcsv. unfold run. rewrite Hcsv.
  pose proof (for_rows_outcome e a prompts 0 (initial fs)) as H.
  cbv zeta in H.
  destruct (for_rows e a 0 prompts (initial fs)) as [[[]|ex] st];
    cbn [fst snd initial successful failed skipped] in *.
  - split_and!; try lia. done.
  - split_and!; try lia. done.
Qed.

(** The stage-1 invocations a loop makes for the record at position [j]. *)
Lemma attempt_attempts_made_at (e : env) (a : args) i pid rf k st j :
  attempts_made j (trace (attempt e a i pid rf k st).2) =
  attempts_made j (trace st) ++ (if decide (j = i) then [k] else []).
Proof.
  destruct (attempt_spec e a i pid rf k st) as (_ & _ & _ & _ & evs & -> & Hevs & _).
  rewrite attempts_made_app. f_equal.
  assert (attempts_made j evs = []) as Hnil.
  { induction Hevs as [|ev evs Hev _ IH]; [done|].
    apply list_elem_of_In in Hev. simpl in Hev.
    destruct Hev as [<-|[<-|[<-|[]]]]; done. }
  change (attempts_made j (Invoke Generate i pid k :: evs))
    with (match (if decide (i = j) then Some k else None) with
          | Some y => y :: attempts_made j evs
          | None => attempts_made j evs
          end).
  rewrite Hnil.
  destruct (decide (i = j)) as [->|Hij].
  - by rewrite decide_True.
  - by rewrite decide_False.
Qed.

Lemma retry_loop_attempts_made (e : env) (a : args) i pid rf attempts st j :
  ∃ l, l `prefix_of` attempts
    ∧ attempts_made j (trace (retry_loop e a i pid rf attempts st).2) =
      attempts_made j (trace st) ++ (if decide (j = i) then l else []).
Proof.
  revert st. induction attempts as [|k attempts IH]; intros st;
    cbn [retry_loop].
  - exists []. split; [done|]. destruct (decide (j = i)); by rewrite app_nil_r.
  - pose proof (attempt_attempts_made_at e a i pid rf k st j) as Hk.
    destruct (attempt e a i pid rf k st) as [[|ex] st1]; cbn [fst snd] in *.
    + exists [k]. split; [by apply prefix_cons, prefix_nil|].
      cbn [trace incr_successful log]. rewrite attempts_made_app, Hk.
      cbn. by rewrite app_nil_r.
    + destruct (Py.is_Exception ex).
      * assert (∀ st2, attempts_made j (trace st2) = attempts_made j (trace st1) →
                  ∃ l, l `prefix_of` k :: attempts
                    ∧ attempts_made j
                        (trace (retry_loop e a i pid rf attempts st2).2) =
                      attempts_made j (trace st)
                      ++ (if decide (j = i) then l else [])) as Hrest.
        { intros st2 Hst2. destruct (IH st2) as (l & Hl & ->).
          exists (k :: l). split; [by apply prefix_cons|].
          rewrite Hst2, Hk, <- app_assoc. by destruct (decide (j = i)). }
        destruct (k =? MAX_RETRIES); apply Hrest;
          cbn [trace incr_failed log]; rewrite !attempts_made_app; cbn;
          by rewrite ?app_nil_r.
      * exists [k]. split; [by apply prefix_cons, prefix_nil|]. done.
Qed.

Lemma process_row_attempts_made (e : env) (a : args) i (r : row) st j :
  ∃ l, l `prefix_of` seqZ 1 MAX_RETRIES
    ∧ attempts_made j (trace (process_row e a i r st).2) =
      attempts_made j (trace st) ++ (if decide (j = i) then l else []).
Proof.
  assert (∃ l, l `prefix_of` seqZ 1 MAX_RETRIES
            ∧ attempts_made j (trace st) =
              attempts_made j (trace st) ++ (if decide (j = i) then l else []))
    as Hsame.
  { exists []. split; [apply prefix_nil|].
    destruct (decide (j = i)); by rewrite app_nil_r. }
  unfold process_row.
  destruct (r !! "ID") as [id_text|]; [|done].
  destruct (Py.int id_text) as [pid|ex]; [|done].
  destruct (below_start a pid); [done|].
  destruct (above_end a pid); [done|].
  destruct (r !! "Description") as [description|]; [|done].
  destruct (skip_existing a && path_exists st _).
  - cbn [snd trace incr_skipped log]. rewrite attempts_made_app. cbn.
    by rewrite app_nil_r.
  - apply retry_loop_attempts_made.
Qed.

Lemma for_rows_attempts_made (e : env) (a : args) prompts i st j :
  ∃ l, l `prefix_of` seqZ 1 MAX_RETRIES
    ∧ attempts_made j (trace (for_rows e a i prompts st).2) =
      attempts_made j (trace st) ++ l
    ∧ ((j < i)%nat ∨ (i + length prompts ≤ j)%nat → l = []).
Proof.
  revert i st. induction prompts as [|r prompts IH]; intros i st;
    cbn [for_rows].
  - exists []. split; [apply prefix_nil|]. by rewrite app_nil_r.
  - destruct (process_row_attempts_made e a i r st j) as (l1 & Hl1 & Hrow).
    destruct (process_row e a i r st) as [[[]|ex] st1]; cbn [fst snd] in *.
    + destruct (IH (S i) st1) as (l2 & Hl2 & -> & Hout). rewrite Hrow.
      destruct (decide (j = i)) as [->|Hji].
      * exists l1. rewrite Hout by lia. rewrite app_nil_r.
        split_and!; [done..|]. cbn [length]. lia.
      * exists l2. rewrite app_nil_r. split_and!; [done..|].
        intros Hj. apply Hout. cbn [length] in Hj. lia.
    + destruct (decide (j = i)) as [->|Hji].
      * exists l1. split_and!; [done..|]. cbn [length]. lia.
      * exists []. split_and!; [apply prefix_nil|done..].
Qed.

(** X2. Whatever the stages do, and whether the worker returns or crashes,
    the attempts made for the record at any position of the catalog are
    numbered 1, 2, 3, ... without a gap and stop at [MAX_RETRIES] at the
    latest: stage 1 is invoked at most ten times for a record, and never for
    a position beyond the catalog. *)
Theorem attempts_never_exceed_budget (e : env) (a : args) (fs : gset string)
    (j : nat) :
  attempts_made j (trace (run e a fs).2) `prefix_of` seqZ 1 MAX_RETRIES
  ∧ (length (attempts_made j (trace (run e a fs).2)) ≤ 10)%nat
  ∧ ∀ prompts, read_csv e (csv_file a) = Some prompts →
      (length prompts ≤ j)%nat → attempts_made j (trace (run e a fs).2) = [].
Proof.
  assert (attempts_made j (trace (run e a fs).2) `prefix_of` seqZ 1 MAX_RETRIES
          ∧ ∀ prompts, read_csv e (csv_file a) = Some prompts →
              (length prompts ≤ j)%nat →
              attempts_made j (trace (run e a fs).2) = []) as [Hpre Hout].
  { unfold run. destruct (read_csv e (csv_file a)) as [prompts|].
    - destruct (for_rows_attempts_made e a prompts 0 (initial fs) j)
        as (l & Hl & Hmade & Hout).
      assert (attempts_made j
                (trace (match for_rows e a 0 prompts (initial fs) with
                        | (Py.Ok _, st) => (Py.Returned, st)
                        | (Py.Raise ex, st) => (Py.Uncaught ex, st)
                        end).2) = l) as ->.
      { by destruct (for_rows e a 0 prompts (initial fs)) as [[[]|ex] st]. }
      split; [done|]. intros ? [= <-] Hj. apply Hout. lia.
    - split; [apply prefix_nil|done]. }
  split_and!; [done| |done].
  apply prefix_length in Hpre. by rewrite length_seqZ in Hpre.
Qed.

(** X3. A disabled stage never runs: with [--skip_retrieve] no run of the
    worker invokes the retrieval script, and with [--skip_render] no run
    invokes Blender or checks for [render.png], and no [render.png] is
    written. *)
Theorem disabled_stages_never_run (e : env) (a : args) (fs : gset string) :
  Forall (λ ev, (skip_retrieve a = true → ¬ uses_stage Retrieve ev)
                ∧ (skip_render a = true → ¬ uses_stage Blender ev))
    (trace (run e a fs).2)
  ∧ (skip_render a = true → files (run e a fs).2 = fs).
Proof.
  pose proof (for_rows_keeps e a (λ fs', skip_render a = true → fs' = fs)
    (λ ev, (skip_retrieve a = true → ¬ uses_stage Retrieve ev)
           ∧ (skip_render a = true → ¬ uses_stage Blender ev))) as Hkeep.
  unfold run. destruct (read_csv e (csv_file a)) as [prompts|]; [|done].
  destruct Hkeep with prompts 0%nat (initial fs)
    as (Hfiles & evs & Htr & Hevs);
    try (intros; simpl; split; intros _ []).
  - intros i pid rf k st HI.
    destruct (attempt_disabled_stages e a i pid rf k st) as (Hf & Hevs).
    split; [|done]. intros Hsb. rewrite Hf by done. by apply HI.
  - destruct (for_rows e a 0 prompts (initial fs)) as [[[]|ex] st];
      cbn [fst snd initial trace] in *; by rewrite Htr.
Qed.

End worker_extras.

(** The worker with the range 1 to 2 whose first item is given up: it
    returns, and the three counters add up to the three records. *)
Lemma summary_accounts_for_every_record_witness :
  (RunFromCsv.run Scenario.first_item_poisoned
     (Scenario.worker_args (Some 1) (Some 2) false false) Scenario.tools).1
  = Py.Returned
  ∧ RunFromCsv.summary_of
      (RunFromCsv.run Scenario.first_item_poisoned
         (Scenario.worker_args (Some 1) (Some 2) false false) Scenario.tools).2
    = (1, 1, 1)
  ∧ (let st := (RunFromCsv.run Scenario.first_item_poisoned
                  (Scenario.worker_args (Some 1) (Some 2) false false)
                  Scenario.tools).2 in
     RunFromCsv.successful st + RunFromCsv.failed st + RunFromCsv.skipped st
     = 3).
Proof.
  assert ((RunFromCsv.run Scenario.first_item_poisoned
             (Scenario.worker_args (Some 1) (Some 2) false false)
             Scenario.tools).1 = Py.Returned) as Hret by by_evaluation.
  split; [exact Hret|]. split; [by_evaluation|].
  exact (proj1 (proj2 (proj2 (proj2
           (summary_accounts_for_every_record Scenario.first_item_poisoned
              (Scenario.worker_args (Some 1) (Some 2) false false)
              Scenario.tools Scenario.catalog eq_refl)))) Hret).
Defined.

Section missing_tool_facts.
Import RunFromCsv.
Context (e : env) (a : args).

Lemma run_retrieve_cases i pid k st :
  ((Py.path_join (script_dir e) "retrieve.py" ∉ files st)
   ∧ run_retrieve e i pid k st = (false, st))
  ∨ (Py.path_join (script_dir e) "retrieve.py" ∈ files st
     ∧ run_retrieve e i pid k st =
       (retrieve_returncode e i k =? 0, log (Invoke Retrieve i pid k) st)).
Proof.
  unfold run_retrieve, path_exists.
  destruct (decide (Py.path_join (script_dir e) "retrieve.py" ∈ files st))
    as [Hin|Hout].
  - right. split; [done|]. rewrite bool_decide_eq_true_2 by done. cbn [negb].
    by destruct (retrieve_returncode e i k =? 0).
  - left. split; [done|]. by rewrite bool_decide_eq_false_2.
Qed.

Lemma run_blender_missing i pid k rf st :
  Py.path_join (script_dir e) "place_in_blender.py" ∉ files st
  ∨ BLENDER_PATH ∉ files st →
  run_blender e i pid k rf st = (false, st).
Proof.
  unfold run_blender, path_exists. intros [Hno|Hno].
  - by rewrite bool_decide_eq_false_2.
  - rewrite (bool_decide_eq_false_2 (BLENDER_PATH ∈ files st)) by done.
    by destruct (bool_decide _).
Qed.

Lemma attempt_missing_tool fs0 i pid rf k st :
  (skip_retrieve a = false
   ∧ (Py.path_join (script_dir e) "retrieve.py" ∉ fs0))
  ∨ (skip_render a = false
     ∧ (Py.path_join (script_dir e) "place_in_blender.py" ∉ fs0
        ∨ BLENDER_PATH ∉ fs0)) →
  files st = fs0 →
  let r := attempt e a i pid rf k st in
  files r.2 = fs0 ∧ r.1 ≠ Completed
  ∧ ∃ evs, trace r.2 = trace st ++ evs
      ∧ Forall (λ ev, ¬ uses_stage Blender ev
                      ∧ (Py.path_join (script_dir e) "retrieve.py" ∉ fs0 →
                         ¬ uses_stage Retrieve ev)) evs.
Proof.
  intros Hmiss <-. unfold attempt.
  assert (¬ uses_stage Blender (Invoke Generate i pid k)
          ∧ (Py.path_join (script_dir e) "retrieve.py" ∉ files st →
             ¬ uses_stage Retrieve (Invoke Generate i pid k))) as Hgen.
  { split; [intros [=]|intros _ [=]]. }
  destruct (generate_scene e i k) as [ex|]; cbn [fst snd].
  { split_and!; [done..|]. exists [Invoke Generate i pid k].
    split; [done|]. by constructor. }
  destruct Hmiss as [[Hsr Hno]|[Hsb Hno]].
  - rewrite Hsr. cbn [negb].
    destruct (run_retrieve_cases i pid k (log (Invoke Generate i pid k) st))
      as [[_ ->]|[Hin _]]; [|done].
    cbn [negb fst snd files log trace]. split_and!; [done..|].
    exists [Invoke Generate i pid k]. split; [done|]. by constructor.
  - rewrite Hsb. cbn [negb].
    destruct (skip_retrieve a).
    + cbn [negb]. rewrite run_blender_missing by done.
      cbn [negb fst snd files log trace]. split_and!; [done..|].
      exists [Invoke Generate i pid k]. split; [done|]. by constructor.
    + cbn [negb].
      destruct (run_retrieve_cases i pid k (log (Invoke Generate i pid k) st))
        as [[_ ->]|[Hin ->]].
      * cbn [negb fst snd files log trace]. split_and!; [done..|].
        exists [Invoke Generate i pid k]. split; [done|]. by constructor.
      * assert (¬ uses_stage Blender (Invoke Retrieve i pid k)
                ∧ (Py.path_join (script_dir e) "retrieve.py" ∉ files st →
                   ¬ uses_stage Retrieve (Invoke Retrieve i pid k))) as Hret.
        { split; [intros [=]|]. intros Hout. by destruct Hout. }
        destruct (retrieve_returncode e i k =? 0); cbn [negb].
        -- rewrite run_blender_missing by done.
           cbn [negb fst snd files log trace]. split_and!; [done..|].
           exists [Invoke Generate i pid k; Invoke Retrieve i pid k].
           rewrite <- app_assoc. split; [done|]. by repeat constructor.
        -- cbn [negb fst snd files log trace]. split_and!; [done..|].
           exists [Invoke Generate i pid k; Invoke Retrieve i pid k].
           rewrite <- app_assoc. split; [done|]. by repeat constructor.
Qed.

End missing_tool_facts.

Section worker_extras2.
Import RunFromCsv.

(** X4. The worker does not look for its tools before it starts.  When
    [retrieve.py] is missing and retrieval is enabled, or when
    [place_in_blender.py] or the Blender binary is missing and rendering is
    enabled, no item ever succeeds, Blender is never started, no
    [render.png] is written (and retrieval is never started when its script
    is the one missing); a run that returns has counted every record as
    failed or skipped. *)
Theorem missing_tool_fails_every_item (e : env) (a : args) (fs : gset string) :
  (skip_retrieve a = false
   ∧ (Py.path_join (script_dir e) "retrieve.py" ∉ fs))
  ∨ (skip_render a = false
     ∧ (Py.path_join (script_dir e) "place_in_blender.py" ∉ fs
        ∨ BLENDER_PATH ∉ fs)) →
  let r := run e a fs in
  successful r.2 = 0 ∧ files r.2 = fs
  ∧ Forall (λ ev, ¬ uses_stage Blender ev
                  ∧ (Py.path_join (script_dir e) "retrieve.py" ∉ fs →
                     ¬ uses_stage Retrieve ev)) (trace r.2)
  ∧ ∀ prompts, read_csv e (csv_file a) = Some prompts → r.1 = Py.Returned →
      failed r.2 + skipped r.2 = Z.of_nat (length prompts).
Proof.
  intros Hmiss.
  set (I := λ fs' : gset string, fs' = fs).
  set (P := λ ev, ¬ uses_stage Blender ev
                  ∧ (Py.path_join (script_dir e) "retrieve.py" ∉ fs →
                     ¬ uses_stage Retrieve ev)).
  assert (∀ i pid rf k st, I (files st) →
            I (files (attempt e a i pid rf k st).2)
            ∧ ∃ evs, trace (attempt e a i pid rf k st).2 = trace st ++ evs
                ∧ Forall P evs) as Hattempt.
  { intros i pid rf k st Hst.
    destruct (attempt_missing_tool e a fs i pid rf k st Hmiss Hst)
      as (? & _ & ?). done. }
  assert (∀ i pid rf k st, I (files st) →
            (attempt e a i pid rf k st).1 ≠ Completed) as Hnever.
  { intros i pid rf k st Hst.
    by destruct (attempt_missing_tool e a fs i pid rf k st Hmiss Hst)
      as (_ & ? & _). }
  assert (∀ pid k, P (LogCompleted pid k)) as P1.
  { intros. split; [intros []|intros _ []]. }
  assert (∀ pid k ex, P (LogAttemptFailed pid k ex)) as P2.
  { intros. split; [intros []|intros _ []]. }
  assert (∀ pid, P (LogGaveUp pid)) as P3.
  { intros. split; [intros []|intros _ []]. }
  assert (∀ pid, P (LogSkipping pid)) as P4.
  { intros. split; [intros []|intros _ []]. }
  unfold run. destruct (read_csv e (csv_file a)) as [prompts|].
  - destruct (for_rows_keeps e a I P P1 P2 P3 P4 Hattempt prompts 0%nat
                (initial fs) eq_refl) as (Hfs & evs & Htr & Hevs).
    pose proof (for_rows_no_success e a I P P1 P2 P3 P4 Hattempt Hnever
                  prompts 0%nat (initial fs) eq_refl) as Hnone.
    pose proof (for_rows_outcome e a prompts 0 (initial fs)) as Hcount.
    cbv zeta in Hcount.
    destruct (for_rows e a 0 prompts (initial fs)) as [[[]|ex] st];
      cbn [fst snd initial successful failed skipped trace] in *.
    + rewrite Htr. split_and!; [done..|]. intros ? [= <-] _. lia.
    + rewrite Htr. split_and!; [done..|]. intros ? _ [=].
  - cbn [fst snd initial successful files trace]. split_and!; [done..|].
    intros ? [=].
Qed.

End worker_extras2.

(** A worker started where nothing is installed: the stages themselves
    would all succeed, and no item does. *)
Lemma missing_tool_fails_every_item_witness :
  (let r := RunFromCsv.run Scenario.all_pass
              (Scenario.worker_args None None false false) ∅ in
   RunFromCsv.successful r.2 = 0 ∧ RunFromCsv.files r.2 = ∅)
  ∧ RunFromCsv.summary_of
      (RunFromCsv.run Scenario.all_pass
         (Scenario.worker_args None None false false) ∅).2 = (0, 3, 0).
Proof.
  split; [|by_evaluation].
  destruct (missing_tool_fails_every_item Scenario.all_pass
              (Scenario.worker_args None None false false) ∅
              (or_introl (conj eq_refl (not_elem_of_empty _))))
    as (Hs & Hf & _).
  exact (conj Hs Hf).
Defined.

Section worker_extras3.
Import RunFromCsv.

(** X5. The check of the terminal artifact is a check of existence only.
    Without [--skip_existing], a record in range whose [render.png] exists
    already is processed again, and when stage 1 returns and the
    subprocesses exit with status 0 its first attempt completes and the item
    is counted as successful, whether or not this Blender run wrote
    anything. *)
Theorem stale_render_passes_check (e : env) (a : args) (i : nat) (r : row)
    (st : state) (id_text : string) (pid : Z) (description : string) :
  r !! "ID" = Some id_text → Py.int id_text = Py.Ok pid →
  below_start a pid = false → above_end a pid = false →
  r !! "Description" = Some description →
  skip_existing a = false → skip_render a = false →
  path_exists st (render_file (results_dir a) pid) = true →
  generate_scene e i 1 = None →
  (skip_retrieve a = true
   ∨ (path_exists st (Py.path_join (script_dir e) "retrieve.py") = true
      ∧ retrieve_returncode e i 1 = 0)) →
  path_exists st (Py.path_join (script_dir e) "place_in_blender.py") = true →
  path_exists st BLENDER_PATH = true →
  blender_returncode e i 1 = 0 →
  ∃ st',
    process_row e a i r st = (Py.Ok (), st')
    ∧ trace st' = trace st ++ full_attempt a i pid 1 ++ [LogCompleted pid 1]
    ∧ summary_of st' = (successful st + 1, failed st, skipped st)
    ∧ files st' = files st.
Proof.
  intros HID Hint Hlo Hhi Hdesc Hse Hsb Hrf Hgen Hret Hscript Hbin Hrc.
  rewrite (process_row_retry e a i r st id_text pid description)
    by (try done; by rewrite Hse).
  set (rf := render_file (results_dir a) pid) in *.
  change (seqZ 1 MAX_RETRIES) with (1 :: seqZ 2 9). cbn [retry_loop].
  assert (∃ st1, attempt e a i pid rf 1 st = (Completed, st1)
            ∧ trace st1 = trace st ++ full_attempt a i pid 1
            ∧ files st1 = files st ∧ successful st1 = successful st
            ∧ failed st1 = failed st ∧ skipped st1 = skipped st)
    as (st1 & -> & Htr & Hf & Hs & Hfa & Hsk).
  { unfold attempt, full_attempt. rewrite Hgen, Hsb. cbn [negb].
    assert (∀ st2, files st2 = files st →
              ∃ st3, run_blender e i pid 1 rf st2 = (true, st3)
                ∧ trace st3 = trace st2 ++ [Invoke Blender i pid 1]
                ∧ files st3 = files st ∧ successful st3 = successful st2
                ∧ failed st3 = failed st2 ∧ skipped st3 = skipped st2)
      as Hblender.
    { intros st2 Hst2. unfold run_blender, path_exists in *.
      rewrite Hst2, Hscript, Hbin, Hrc. cbn [negb Z.eqb].
      eexists. split; [done|].
      destruct (blender_writes_render e i 1);
        cbn [trace files successful failed skipped log write_file];
        rewrite ?Hst2; split_and!; try done.
      apply bool_decide_eq_true_1 in Hrf.
      apply subseteq_union_1_L. by apply singleton_subseteq_l. }
    assert (∀ st3, files st3 = files st →
              path_exists (log (VerifyRender i pid 1) st3) rf = true) as Hcheck.
    { intros st3 Hst3. unfold path_exists in *. cbn [files log].
      by rewrite Hst3. }
    destruct Hret as [Hsr|[Hscr Hrrc]].
    - rewrite Hsr. cbn [negb].
      destruct (Hblender (log (Invoke Generate i pid 1) st) eq_refl)
        as (st3 & -> & Htr3 & Hf3 & Hs3 & Hfa3 & Hsk3).
      cbn [negb]. rewrite Hcheck by done. cbn [negb].
      eexists. split; [done|]. cbn [trace files successful failed skipped log].
      rewrite Htr3. cbn [trace log]. rewrite <- !app_assoc.
      split_and!; done.
    - destruct (skip_retrieve a) eqn:Hsr; cbn [negb].
      + destruct (Hblender (log (Invoke Generate i pid 1) st) eq_refl)
          as (st3 & -> & Htr3 & Hf3 & Hs3 & Hfa3 & Hsk3).
        cbn [negb]. rewrite Hcheck by done. cbn [negb].
        eexists. split; [done|]. cbn [trace files successful failed skipped log].
        rewrite Htr3. cbn [trace log]. rewrite <- !app_assoc.
        split_and!; done.
      + unfold run_retrieve. unfold path_exists in Hscr |- * at 1.
        cbn [files log]. rewrite Hscr, Hrrc. cbn [negb Z.eqb].
        destruct (Hblender (log (Invoke Retrieve i pid 1)
                              (log (Invoke Generate i pid 1) st)) eq_refl)
          as (st3 & -> & Htr3 & Hf3 & Hs3 & Hfa3 & Hsk3).
        cbn [negb]. rewrite Hcheck by done. cbn [negb].
        eexists. split; [done|]. cbn [trace files successful failed skipped log].
        rewrite Htr3. cbn [trace log]. rewrite <- !app_assoc.
        split_and!; done. }
  eexists. split; [done|].
  unfold summary_of.
  cbn [trace files successful failed skipped log incr_successful].
  rewrite Htr, Hs, Hfa, Hsk, <- app_assoc. done.
Qed.

(** X6. [except Exception] does not absorb a [KeyboardInterrupt].  When
    stage 1 raises it in the [k]-th attempt for a record, after [k - 1]
    failed attempts, the worker ends at once with the uncaught exception:
    the item is counted neither as successful nor as failed, no further
    attempt is made for it, and the records after it are not processed. *)
Theorem interrupt_in_stage_ends_worker (e : env) (a : args) (fs : gset string)
    (before after : list row) (r : row) (id_text : string) (pid : Z)
    (description : string) (k : Z) (st1 st2 : state) :
  read_csv e (csv_file a) = Some (before ++ r :: after) →
  for_rows e a 0 before (initial fs) = (Py.Ok (), st1) →
  r !! "ID" = Some id_text → Py.int id_text = Py.Ok pid →
  below_start a pid = false → above_end a pid = false →
  r !! "Description" = Some description →
  skip_existing a && path_exists st1 (render_file (results_dir a) pid) = false →
  1 ≤ k ≤ MAX_RETRIES →
  after_failed_attempts e a (length before) pid
    (render_file (results_dir a) pid) (Z.to_nat (k - 1)) 1 st1 = Some st2 →
  generate_scene e (length before) k = Some Py.KeyboardInterrupt →
  run e a fs = (Py.Uncaught Py.KeyboardInterrupt,
                log (Invoke Generate (length before) pid k) st2)
  ∧ summary_of (run e a fs).2 = summary_of st1
  ∧ attempts_made (length before) (trace (run e a fs).2) = seqZ 1 k.
Proof.
  intros Hcsv Hbefore HID Hint Hlo Hhi Hdesc Hskip Hk Hfailed Hgen.
  set (rf := render_file (results_dir a) pid) in *.
  assert (process_row e a (length before) r st1 =
          (Py.Raise Py.KeyboardInterrupt,
           log (Invoke Generate (length before) pid k) st2)) as Hrow.
  { rewrite (process_row_retry e a _ r st1 id_text pid description) by done.
    fold rf. rewrite (seqZ_snoc_split MAX_RETRIES k) by done.
    replace (k - 1) with (Z.of_nat (Z.to_nat (k - 1))) by lia.
    rewrite (retry_loop_failed_prefix e a _ pid rf _ 1 _ st1 st2) by done.
    cbn [retry_loop]. unfold attempt. by rewrite Hgen. }
  assert (run e a fs = (Py.Uncaught Py.KeyboardInterrupt,
                        log (Invoke Generate (length before) pid k) st2)) as Hrun.
  { unfold run. rewrite Hcsv, for_rows_app, Hbefore. cbn [for_rows].
    replace (0 + length before)%nat with (length before) by lia.
    by rewrite Hrow. }
  rewrite Hrun. split; [done|].
  destruct (after_failed_attempts_spec e a _ pid rf _ 1 st1 st2 Hfailed)
    as (Hmade & Hs & Hf & Hsk).
  split.
  - unfold summary_of. cbn [snd successful failed skipped log].
    by rewrite Hs, Hf, Hsk.
  - cbn [snd trace log]. rewrite attempts_made_app, Hmade.
    destruct (for_rows_attempts_made e a before 0 (initial fs) (length before))
      as (l & _ & Hl & Hout).
    rewrite Hbefore in Hl. cbn [snd initial trace] in Hl.
    rewrite Hout in Hl by lia. rewrite Hl.
    change (attempts_made (length before)
              [Invoke Generate (length before) pid k])
      with (match (if decide (length before = length before)
                   then Some k else None) with
            | Some y => [y]
            | None => []
            end).
    rewrite decide_True by done. cbn [app].
    rewrite (seqZ_snoc_split k k) by lia.
    replace (k - k) with 0 by lia.
    replace (Z.of_nat (Z.to_nat (k - 1))) with (k - 1) by lia. done.
Qed.

End worker_extras3.

(** Scene 2 is rendered already and Blender writes nothing: without
    [--skip_existing] the scene is processed again and counted as
    successful. *)
Lemma stale_render_passes_check_witness :
  ∃ st',
    RunFromCsv.process_row Scenario.silent_blender
      (Scenario.worker_args None None false false) 1 (Scenario.mkrow "2" "B")
      (RunFromCsv.initial Scenario.scene_2_rendered) = (Py.Ok (), st')
    ∧ RunFromCsv.summary_of st' = (1, 0, 0).
Proof.
  pose proof (stale_render_passes_check Scenario.silent_blender
                (Scenario.worker_args None None false false) 1
                (Scenario.mkrow "2" "B")
                (RunFromCsv.initial Scenario.scene_2_rendered) "2" 2 "B")
    as Hstale.
  premises_by_evaluation Hstale.
  destruct Hstale as (st' & Hrow & _ & Hsum & _).
  exists st'. exact (conj Hrow Hsum).
Defined.

(** The second record is interrupted in its second attempt: the worker ends
    with the [KeyboardInterrupt], after the attempts 1 and 2 for that
    record. *)
Lemma interrupt_in_stage_ends_worker_witness :
  (RunFromCsv.run Scenario.interrupted_generation
     (Scenario.worker_args None None false false) Scenario.tools).1
  = Py.Uncaught Py.KeyboardInterrupt
  ∧ RunFromCsv.attempts_made 1
      (RunFromCsv.trace
         (RunFromCsv.run Scenario.interrupted_generation
            (Scenario.worker_args None None false false) Scenario.tools).2)
    = [1; 2].
Proof.
  pose (e := Scenario.interrupted_generation).
  pose (a := Scenario.worker_args None None false false).
  pose (st1 := (RunFromCsv.for_rows e a 0 [Scenario.mkrow "1" "A"]
                  (RunFromCsv.initial Scenario.tools)).2).
  pose (st2 := RunFromCsv.log
                 (RunFromCsv.LogAttemptFailed 2 1 Py.StageException)
                 (RunFromCsv.attempt e a 1 2
                    (RunFromCsv.render_file "results" 2) 1 st1).2).
  pose proof (interrupt_in_stage_ends_worker e a Scenario.tools
                [Scenario.mkrow "1" "A"] [Scenario.mkrow "3" "C"]
                (Scenario.mkrow "2" "B") "2" 2 "B" 2 st1 st2) as Hint.
  premises_by_evaluation Hint.
  destruct Hint as (Hrun & _ & Hmade).
  split; [exact (f_equal fst Hrun)|exact Hmade].
Defined.

Section rerun_facts.
Import RunFromCsv.

Lemma attempt_completed_render (e : env) (a : args) i pid rf k st st1 :
  skip_render a = false →
  attempt e a i pid rf k st = (Completed, st1) → rf ∈ files st1.
Proof.
  intros Hsb. unfold attempt. rewrite Hsb. cbn [negb].
  destruct (generate_scene e i k); [done|].
  destruct (if negb (skip_retrieve a) then _ else _) as [retrieved st2].
  destruct retrieved; cbn [negb]; [|done].
  destruct (run_blender e i pid k rf st2) as [[] st3]; cbn [negb]; [|done].
  destruct (path_exists (log (VerifyRender i pid k) st3) rf) eqn:Hrf;
    cbn [negb]; [|done].
  intros [= <-]. by apply bool_decide_eq_true_1 in Hrf.
Qed.

Lemma retry_loop_success_render (e : env) (a : args) i pid rf l st st' :
  skip_render a = false → MAX_RETRIES ∉ l →
  retry_loop e a i pid rf (l ++ [MAX_RETRIES]) st = (Py.Ok (), st') →
  failed st' = failed st → rf ∈ files st'.
Proof.
  intros Hsb. revert st.
  induction l as [|k l IH]; intros st Hl; cbn [app retry_loop].
  - destruct (attempt_spec e a i pid rf MAX_RETRIES st) as (_ & _ & Hf & _).
    destruct (attempt e a i pid rf MAX_RETRIES st) as [[|ex] st1] eqn:Hatt;
      cbn [fst snd] in *.
    + intros [= <-] _. cbn [files incr_successful log].
      by eapply attempt_completed_render.
    + destruct (Py.is_Exception ex); [|done].
      change (MAX_RETRIES =? MAX_RETRIES) with true. cbn [retry_loop].
      intros [= <-]. cbn [failed incr_failed log]. lia.
  - apply not_elem_of_cons in Hl as [Hk Hl].
    destruct (attempt_spec e a i pid rf k st) as (_ & _ & Hf & _).
    destruct (attempt e a i pid rf k st) as [[|ex] st1] eqn:Hatt;
      cbn [fst snd] in *.
    + intros [= <-] _. cbn [files incr_successful log].
      by eapply attempt_completed_render.
    + destruct (Py.is_Exception ex); [|done].
      destruct (Z.eqb_spec k MAX_RETRIES) as [->|_]; [done|].
      intros Hloop Hfailed. eapply IH; [done|exact Hloop|].
      cbn [failed log]. lia.
Qed.

Lemma for_rows_files_mono (e : env) (a : args) prompts i st :
  files st ⊆ files (for_rows e a i prompts st).2.
Proof.
  apply (for_rows_keeps e a (λ fs', files st ⊆ fs') (λ _, True)); try done.
  intros j pid rf k st1 Hst1. split.
  - destruct (attempt_spec e a j pid rf k st1) as ([->| ->] & _); [done|].
    by apply union_subseteq_r'.
  - destruct (attempt_spec e a j pid rf k st1)
      as (_ & _ & _ & _ & evs & -> & _).
    eexists. split; [done|]. by apply Forall_true.
Qed.

Lemma process_row_settles (e : env) (a : args) i (r : row) st st1 :
  skip_render a = false →
  process_row e a i r st = (Py.Ok (), st1) → failed st1 = failed st →
  files st ⊆ files st1 ∧ settled a (files st1) r.
Proof.
  intros Hsb. unfold process_row, settled.
  destruct (r !! "ID") as [id_text|] eqn:HID; [|done].
  destruct (Py.int id_text) as [pid|ex] eqn:Hint; [|done].
  destruct (below_start a pid) eqn:Hlo.
  { intros [= <-] _. split; [done|]. exists id_text, pid.
    split_and!; [done..|]. by left. }
  destruct (above_end a pid) eqn:Hhi.
  { intros [= <-] _. split; [done|]. exists id_text, pid.
    split_and!; [done..|]. right. by left. }
  destruct (r !! "Description") as [description|]; [|done].
  destruct (skip_existing a && path_exists st _) eqn:Hskip.
  - intros [= <-] _. split; [done|]. exists id_text, pid.
    split_and!; [done..|]. right; right. split; [done|].
    apply andb_true_iff in Hskip as [_ Hrf].
    by apply bool_decide_eq_true_1 in Hrf.
  - rewrite max_retries_last. intros Hloop Hfailed.
    pose proof (retry_loop_spec e a i pid (render_file (results_dir a) pid)
                  (seqZ 1 9 ++ [MAX_RETRIES]) st) as Hspec.
    cbv zeta in Hspec. rewrite Hloop in Hspec. destruct Hspec as (Hmono & _).
    split; [done|]. exists id_text, pid. split_and!; [done..|].
    right; right. split; [done|].
    eapply retry_loop_success_render; [done|apply max_retries_fresh|done..].
Qed.

Lemma settled_mono (a : args) fs fs' (r : row) :
  fs ⊆ fs' → settled a fs r → settled a fs' r.
Proof.
  intros Hsub (id_text & pid & HID & Hint & H). exists id_text, pid.
  split_and!; [done..|]. destruct H as [?|[?|[? ?]]]; auto.
Qed.

Lemma for_rows_settles (e : env) (a : args) prompts i st st' :
  skip_render a = false →
  for_rows e a i prompts st = (Py.Ok (), st') → failed st' = failed st →
  Forall (settled a (files st')) prompts.
Proof.
  intros Hsb. revert i st.
  induction prompts as [|r prompts IH]; intros i st; cbn [for_rows]; [done|].
  pose proof (process_row_outcome e a i r st) as Hrow. cbv zeta in Hrow.
  destruct (process_row e a i r st) as [[[]|ex] st1] eqn:Hproc;
    cbn [fst snd] in *; [|done].
  intros Hrest Hfailed.
  pose proof (for_rows_outcome e a prompts (S i) st1) as Hmono.
  cbv zeta in Hmono. rewrite Hrest in Hmono. cbn [fst snd] in Hmono.
  pose proof (for_rows_files_mono e a prompts (S i) st1) as Hfiles.
  rewrite Hrest in Hfiles. cbn [snd] in Hfiles.
  assert (failed st1 = failed st) as Hf1 by lia.
  destruct (process_row_settles e a i r st st1 Hsb Hproc Hf1) as [_ Hr].
  constructor.
  - by eapply settled_mono.
  - eapply IH; [done|]. lia.
Qed.

Lemma for_rows_all_settled (e : env) (a : args) prompts i st :
  skip_existing a = true →
  Forall (settled a (files st)) prompts →
  ∃ st',
    for_rows e a i prompts st = (Py.Ok (), st')
    ∧ files st' = files st ∧ successful st' = successful st
    ∧ failed st' = failed st
    ∧ skipped st' = skipped st + Z.of_nat (length prompts)
    ∧ ∃ evs, trace st' = trace st ++ evs
        ∧ Forall (λ ev, ∀ s, ¬ uses_stage s ev) evs.
Proof.
  intros Hse. revert i st.
  induction prompts as [|r prompts IH]; intros i st Hall; cbn [for_rows].
  - exists st. split_and!; [done..|cbn [length]; lia|].
    exists []. by rewrite app_nil_r.
  - apply Forall_cons in Hall as [(id_text & pid & HID & Hint & Hr) Hall].
    assert (∃ st1, process_row e a i r st = (Py.Ok (), st1)
              ∧ files st1 = files st ∧ successful st1 = successful st
              ∧ failed st1 = failed st ∧ skipped st1 = skipped st + 1
              ∧ ∃ evs, trace st1 = trace st ++ evs
                  ∧ Forall (λ ev, ∀ s, ¬ uses_stage s ev) evs)
      as (st1 & -> & Hf1 & Hs1 & Hfa1 & Hsk1 & evs1 & Htr1 & Hevs1).
    { unfold process_row. rewrite HID, Hint.
      destruct (below_start a pid) eqn:Hlo.
      { eexists. split; [done|]. split_and!; [done..|].
        exists []. by rewrite app_nil_r. }
      destruct (above_end a pid) eqn:Hhi.
      { eexists. split; [done|]. split_and!; [done..|].
        exists []. by rewrite app_nil_r. }
      destruct Hr as [?|[?|[[description Hdesc] Hrf]]]; [done..|].
      rewrite Hdesc, Hse. unfold path_exists.
      rewrite bool_decide_eq_true_2 by done. cbn [andb].
      eexists. split; [done|]. split_and!; [done..|].
      exists [LogSkipping pid]. split; [done|].
      constructor; [|done]. intros s []. }
    destruct (IH (S i) st1) as (st' & -> & Hf & Hs & Hfa & Hsk & evs & Htr & Hevs).
    { by rewrite Hf1. }
    exists st'. split_and!; [done|congruence..| |].
    + cbn [length]. lia.
    + exists (evs1 ++ evs). rewrite Htr, Htr1, <- app_assoc.
      split; [done|]. by apply Forall_app.
Qed.

(** X7. A run is idempotent under [--skip_existing].  After a run with the
    render stage enabled that returns without a failed item, a second run on
    the resulting files with [--skip_existing], the same results directory
    and the same range returns with every record counted as skipped, invokes
    no stage at all and writes nothing, whatever the stages would do. *)
Theorem rerun_with_skip_existing_invokes_nothing (e e' : env) (a a' : args)
    (fs : gset string) (prompts : list row) (st1 : state) :
  skip_render a = false →
  read_csv e (csv_file a) = Some prompts →
  run e a fs = (Py.Returned, st1) → failed st1 = 0 →
  read_csv e' (csv_file a') = Some prompts →
  results_dir a' = results_dir a → start_id a' = start_id a →
  end_id a' = end_id a → skip_existing a' = true →
  ∃ st2,
    run e' a' (files st1) = (Py.Returned, st2)
    ∧ summary_of st2 = (0, 0, Z.of_nat (length prompts))
    ∧ Forall (λ ev, ∀ s, ¬ uses_stage s ev) (trace st2)
    ∧ files st2 = files st1.
Proof.
  intros Hsb Hcsv Hrun Hfailed Hcsv' Hdir Hlo Hhi Hse.
  unfold run in Hrun. rewrite Hcsv in Hrun.
  destruct (for_rows e a 0 prompts (initial fs)) as [[[]|ex] st] eqn:Hrows;
    [|done].
  injection Hrun as ->.
  pose proof (for_rows_outcome e a prompts 0 (initial fs)) as Hmono.
  cbv zeta in Hmono. rewrite Hrows in Hmono.
  cbn [fst snd initial failed] in Hmono.
  assert (Forall (settled a' (files st1)) prompts) as Hall.
  { eapply Forall_impl.
    - eapply (for_rows_settles e a prompts 0 (initial fs) st1); [done..|].
      cbn [initial failed]. lia.
    - intros r (id_text & pid & HID & Hint & H). exists id_text, pid.
      unfold below_start, above_end in *. by rewrite Hdir, Hlo, Hhi. }
  destruct (for_rows_all_settled e' a' prompts 0 (initial (files st1)) Hse Hall)
    as (st2 & Hrows2 & Hf & Hs & Hfa & Hsk & evs & Htr & Hevs).
  exists st2. unfold run. rewrite Hcsv', Hrows2. split; [done|].
  unfold summary_of. cbn [initial files successful failed skipped trace] in *.
  rewrite Hs, Hfa, Hsk, Htr. done.
Qed.

End rerun_facts.

(** The three scenes are rendered by a first run; a second run with
    [--skip_existing] skips all three. *)
Lemma rerun_with_skip_existing_invokes_nothing_witness :
  ∃ st2,
    RunFromCsv.run Scenario.all_pass
      (Scenario.worker_args None None false true)
      (RunFromCsv.files
         (RunFromCsv.run Scenario.all_pass
            (Scenario.worker_args None None false false) Scenario.tools).2)
    = (Py.Returned, st2)
    ∧ RunFromCsv.summary_of st2 = (0, 0, 3).
Proof.
  pose proof (rerun_with_skip_existing_invokes_nothing
                Scenario.all_pass Scenario.all_pass
                (Scenario.worker_args None None false false)
                (Scenario.worker_args None None false true)
                Scenario.tools Scenario.catalog
                (RunFromCsv.run Scenario.all_pass
                   (Scenario.worker_args None None false false)
                   Scenario.tools).2) as Hrerun.
  premises_by_evaluation Hrerun.
  destruct Hrerun as (st2 & Hrun & Hsum & _).
  exists st2. exact (conj Hrun Hsum).
Defined.
Section stage_order_facts.
Import RunFromCsv.
Context (e : env) (a : args).

Lemma attempt_stage_order i pid rf k st :
  ∃ evs, trace (attempt e a i pid rf k st).2 = trace st ++ evs
    ∧ Forall (follows_success e a) evs.
Proof.
  unfold attempt.
  destruct (generate_scene e i k) as [ex|] eqn:Hgen; cbn [fst snd].
  { exists [Invoke Generate i pid k]. split; [done|]. by repeat constructor. }
  assert (∃ evs, (if negb (skip_retrieve a)
                  then run_retrieve e i pid k (log (Invoke Generate i pid k) st)
                  else (true, log (Invoke Generate i pid k) st)).2.(trace)
                 = trace st ++ Invoke Generate i pid k :: evs
            ∧ Forall (follows_success e a) evs
            ∧ ((if negb (skip_retrieve a)
                then run_retrieve e i pid k (log (Invoke Generate i pid k) st)
                else (true, log (Invoke Generate i pid k) st)).1 = true →
               skip_retrieve a = false → retrieve_returncode e i k = 0))
    as (evs1 & Htr1 & Hevs1 & Hok1).
  { destruct (skip_retrieve a); cbn [negb].
    - exists []. cbn [fst snd trace log].
      split_and!; [done..|]. by intros _ [=].
    - destruct (run_retrieve_cases e i pid k (log (Invoke Generate i pid k) st))
        as [[_ ->]|[_ ->]]; cbn [fst snd trace log]; rewrite <- ?app_assoc.
      + exists []. split_and!; [done..|]. by intros [=].
      + exists [Invoke Retrieve i pid k]. split_and!; [done| |].
        * constructor; [|done]. exact Hgen.
        * intros Hrc _. by apply Z.eqb_eq. }
  destruct (if negb (skip_retrieve a) then _ else _) as [retrieved st2].
  cbn [fst snd] in *.
  destruct retrieved; cbn [negb]; [|exists (Invoke Generate i pid k :: evs1);
                                    split; [done|]; by constructor].
  specialize (Hok1 eq_refl).
  destruct (skip_render a); cbn [negb].
  { exists (Invoke Generate i pid k :: evs1). split; [done|]. by constructor. }
  assert (∃ evs, trace (run_blender e i pid k rf st2).2 = trace st2 ++ evs
            ∧ Forall (follows_success e a) evs
            ∧ ((run_blender e i pid k rf st2).1 = true →
               blender_returncode e i k = 0))
    as (evs2 & Htr2 & Hevs2 & Hok2).
  { unfold run_blender.
    destruct (path_exists st2 _); cbn [negb fst snd];
      [|exists []; rewrite app_nil_r; by split_and!].
    destruct (path_exists st2 BLENDER_PATH); cbn [negb fst snd];
      [|exists []; rewrite app_nil_r; by split_and!].
    exists [Invoke Blender i pid k].
    destruct (Z.eqb_spec (blender_returncode e i k) 0) as [Hrc|Hrc];
      destruct (blender_writes_render e i k);
      cbn [negb fst snd trace log write_file];
      (split_and!; [done|by repeat constructor|done]). }
  destruct (run_blender e i pid k rf st2) as [rendered st3].
  cbn [fst snd] in *.
  destruct rendered; cbn [negb].
  - specialize (Hok2 eq_refl).
    exists (Invoke Generate i pid k :: evs1 ++ evs2 ++ [VerifyRender i pid k]).
    split.
    + assert (trace (log (VerifyRender i pid k) st3)
              = trace st ++ Invoke Generate i pid k
                  :: evs1 ++ evs2 ++ [VerifyRender i pid k]) as Htr3.
      { cbn [trace log]. rewrite Htr2, Htr1, <- !app_assoc. done. }
      by destruct (path_exists _ rf).
    + constructor; [done|]. rewrite !Forall_app. split_and!; [done..|].
      by repeat constructor.
  - exists (Invoke Generate i pid k :: evs1 ++ evs2). split.
    + cbn [fst snd]. rewrite Htr2, Htr1, <- !app_assoc. done.
    + constructor; [done|]. by rewrite Forall_app.
Qed.

End stage_order_facts.

Section stage_order_extras.
Import RunFromCsv.

(** X8. The stages of an attempt run in order and each only after the one
    before it has succeeded: in every run of the worker, retrieval is
    started only in an attempt whose stage 1 has returned, Blender only in
    an attempt in which, besides, retrieval has exited with status 0 (when
    it is enabled), and [render.png] is checked only when Blender has exited
    with status 0 as well. *)
Theorem stages_run_only_after_success (e : env) (a : args) (fs : gset string) :
  Forall (follows_success e a) (trace (run e a fs).2).
Proof.
  unfold run. destruct (read_csv e (csv_file a)) as [prompts|]; [|done].
  destruct (for_rows_keeps e a (λ _, True) (follows_success e a))
    with prompts 0%nat (initial fs) as (_ & evs & Htr & Hevs); try done.
  - intros i pid rf k st _. split; [done|]. apply attempt_stage_order.
  - destruct (for_rows e a 0 prompts (initial fs)) as [[[]|ex] st];
      cbn [fst snd initial trace] in *; by rewrite Htr.
Qed.

(** X9. [skipped] counts nothing but records outside the range and records
    skipped for their existing [render.png]: a worker started without
    [--start_id], [--end_id] and [--skip_existing] ends with [skipped = 0],
    and when it returns, [successful + failed] is the number of records of
    the catalog. *)
Theorem unrestricted_worker_skips_nothing (e : env) (a : args)
    (fs : gset string) (prompts : list row) :
  start_id a = None → end_id a = None → skip_existing a = false →
  read_csv e (csv_file a) = Some prompts →
  skipped (run e a fs).2 = 0
  ∧ ((run e a fs).1 = Py.Returned →
     successful (run e a fs).2 + failed (run e a fs).2
     = Z.of_nat (length prompts)).
Proof.
  intros Hlo Hhi Hse Hcsv.
  assert (∀ rows i st, skipped (for_rows e a i rows st).2 = skipped st) as Hsk.
  { induction rows as [|r rows IH]; intros i st; cbn [for_rows]; [done|].
    assert (skipped (process_row e a i r st).2 = skipped st) as Hrow.
    { unfold process_row, below_start, above_end. rewrite Hlo, Hhi, Hse.
      destruct (r !! "ID") as [id_text|]; [|done].
      destruct (Py.int id_text) as [pid|ex]; [|done].
      destruct (r !! "Description") as [description|]; [|done].
      cbn [andb].
      by destruct (retry_loop_spec e a i pid (render_file (results_dir a) pid)
                     (seqZ 1 MAX_RETRIES) st) as (_ & ? & _). }
    destruct (process_row e a i r st) as [[[]|ex] st1]; cbn [fst snd] in *.
    - by rewrite IH.
    - done. }
  pose proof (for_rows_outcome e a prompts 0 (initial fs)) as Hcount.
  cbv zeta in Hcount. specialize (Hsk prompts 0%nat (initial fs)).
  unfold run. rewrite Hcsv.
  destruct (for_rows e a 0 prompts (initial fs)) as [[[]|ex] st];
    cbn [fst snd initial successful failed skipped] in *.
  - split; [done|]. intros _. lia.
  - split; [done|]. intros [=].
Qed.

End stage_order_extras.

(** A worker started on the three scenes without a range: nothing is
    skipped. *)
Lemma unrestricted_worker_skips_nothing_witness :
  RunFromCsv.summary_of
    (RunFromCsv.run Scenario.first_item_poisoned
       (Scenario.worker_args None None false false) Scenario.tools).2
  = (2, 1, 0)
  ∧ RunFromCsv.skipped
      (RunFromCsv.run Scenario.first_item_poisoned
         (Scenario.worker_args None None false false) Scenario.tools).2 = 0.
Proof.
  split; [by_evaluation|].
  exact (proj1 (unrestricted_worker_skips_nothing Scenario.first_item_poisoned
                  (Scenario.worker_args None None false false) Scenario.tools
                  Scenario.catalog eq_refl eq_refl eq_refl eq_refl)).
Defined.

(** ** The supervisor: scenes, workers and polling *)

Section launch_facts.
Import Multiworker.

Lemma worker_cmd_nonempty executable script_dir a x (c : list Z) :
  ∃ cmd, worker_cmd executable script_dir a (x :: c) = Py.Ok cmd.
Proof. unfold worker_cmd, Py.min, Py.max. cbn [Py.bind]. by eexists. Qed.

(** Without an interrupt the launch loop starts one worker for every
    non-empty chunk, in order, under the index of the chunk. *)
Lemma launch_no_interrupt e a i work_chunks processes :
  ∃ ws,
    launch e a NoInterrupt i work_chunks processes = (Py.Ok (), processes ++ ws)
    ∧ chunk <$> ws = filter (λ c, c ≠ []) work_chunks
    ∧ Forall (λ w, (i ≤ worker_id w)%nat
                   ∧ work_chunks !! (worker_id w - i)%nat = Some (chunk w)
                   ∧ worker_cmd (executable e) (script_dir e) a (chunk w)
                     = Py.Ok (cmd w)
                   ∧ proc w = spawn e (cmd w)) ws
    ∧ StronglySorted (λ w1 w2, (worker_id w1 < worker_id w2)%nat) ws.
Proof.
  revert i processes.
  induction work_chunks as [|c work_chunks IH]; intros i processes;
    cbn [launch interrupted_at_launch].
  - exists []. rewrite app_nil_r. split_and!; by try constructor.
  - destruct c as [|x c].
    + destruct (IH (S i) processes) as (ws & -> & Hchunks & Hws & Hsorted).
      exists ws. split_and!; [done| |  |done].
      * rewrite filter_cons_False by (by intros []). done.
      * eapply Forall_impl; [exact Hws|]. intros w (Hi & Hlk & Hcmd & Hproc).
        split_and!; [lia| |done..].
        replace (worker_id w - i)%nat with (S (worker_id w - S i)) by lia.
        done.
    + destruct (worker_cmd_nonempty (executable e) (script_dir e) a x c)
        as [cmd0 Hcmd0]. rewrite Hcmd0.
      destruct (IH (S i) (processes ++ [ {| worker_id := i; cmd := cmd0;
                                           proc := spawn e cmd0;
                                           chunk := x :: c |} ]))
        as (ws & -> & Hchunks & Hws & Hsorted).
      exists ({| worker_id := i; cmd := cmd0; proc := spawn e cmd0;
                 chunk := x :: c |} :: ws).
      rewrite <- app_assoc. split_and!; [done| | |].
      * rewrite filter_cons_True by done. cbn [fmap list_fmap].
        by rewrite <- Hchunks.
      * constructor.
        -- cbn [worker_id chunk cmd proc]. split_and!; [lia| |done..].
           by rewrite Nat.sub_diag.
        -- eapply Forall_impl; [exact Hws|]. intros w (Hi & Hlk & Hcmd & Hproc).
           split_and!; [lia| |done..].
           replace (worker_id w - i)%nat with (S (worker_id w - S i)) by lia.
           done.
      * constructor; [done|].
        eapply Forall_impl; [exact Hws|]. intros w (Hi & _).
        cbn [worker_id]. lia.
Qed.

Lemma concat_filter_nonempty {A} (chunks : list (list A)) :
  concat (filter (λ c, c ≠ []) chunks) = concat chunks.
Proof.
  induction chunks as [|c chunks IH]; [done|].
  destruct c as [|x c].
  - rewrite filter_cons_False by (by intros []). done.
  - rewrite filter_cons_True by done. cbn [concat]. by rewrite IH.
Qed.

Lemma length_concat_singletons {A} (chunks : list (list A)) :
  Forall (λ c, length c = 1%nat) chunks → length (concat chunks) = length chunks.
Proof.
  induction 1 as [|c chunks Hc _ IH]; [done|].
  cbn [concat length]. rewrite length_app, Hc, IH. done.
Qed.

End launch_facts.

Section supervisor_extras.
Import Multiworker.

Lemma filter_all {A} (P : A → Prop) `{∀ x, Decision (P x)} (l : list A) :
  Forall P l → filter P l = l.
Proof.
  induction 1 as [|x l Hx _ IH]; [done|].
  rewrite filter_cons_True by done. by rewrite IH.
Qed.

(** X10. For a worker count of at least 1 and without an interrupt, the
    launch loop starts one process for every non-empty chunk and none for an
    empty one: the chunks of the started workers, in order, concatenate to
    the list of scenes, so that every scene is handed to exactly one worker;
    a worker carries the index of its chunk, the indices increase, and the
    number of processes is the smaller of the number of scenes and
    [--num_workers]. *)
Theorem launch_assigns_every_scene (se : env) (sa : args)
    (scene_ids : list Z) (chunks : list (list Z)) :
  1 ≤ num_workers sa →
  divide_work scene_ids (num_workers sa) = Py.Ok chunks →
  ∃ ws,
    launch se sa NoInterrupt 0 chunks [] = (Py.Ok (), ws)
    ∧ concat (chunk <$> ws) = scene_ids
    ∧ Forall (λ w, chunk w ≠ [] ∧ chunks !! worker_id w = Some (chunk w)
                   ∧ proc w = spawn se (cmd w)) ws
    ∧ StronglySorted (λ w1 w2, (worker_id w1 < worker_id w2)%nat) ws
    ∧ Z.of_nat (length ws) = Z.min (Z.of_nat (length scene_ids)) (num_workers sa).
Proof.
  intros Hw Hdiv.
  destruct (launch_no_interrupt se sa 0 chunks [])
    as (ws & Hlaunch & Hchunks & Hws & Hsorted).
  exists ws. cbn [app] in Hlaunch.
  assert (concat (chunk <$> ws) = scene_ids) as Hconcat.
  { rewrite Hchunks, concat_filter_nonempty.
    by eapply divide_work_concat. }
  assert (Forall (λ c : list Z, c ≠ []) (chunk <$> ws)) as Hnonempty.
  { rewrite Hchunks. apply Forall_forall. intros c Hc.
    by apply list_elem_of_filter in Hc as [? _]. }
  split_and!; [done..| |done|].
  - apply Forall_forall. intros w Hin.
    rewrite Forall_forall in Hws. destruct (Hws w Hin) as (_ & Hlk & _ & Hproc).
    rewrite Nat.sub_0_r in Hlk. split_and!; [|done..].
    rewrite Forall_forall in Hnonempty. apply Hnonempty.
    by apply list_elem_of_fmap_2.
  - set (n := Z.of_nat (length scene_ids)) in *.
    assert (Z.of_nat (length chunks) = num_workers sa) as Hlen.
    { rewrite divide_work_eq in Hdiv by done. injection Hdiv as <-.
      rewrite length_fmap, length_seqZ. lia. }
    assert (∀ c, c ∈ chunks →
              ∃ i : nat, Z.of_nat (length c) =
                n `div` num_workers sa
                + (if decide (Z.of_nat i < n `mod` num_workers sa)
                   then 1 else 0)) as Hsize.
    { intros c Hc. apply list_elem_of_lookup in Hc as [i Hi]. exists i.
      by destruct (divide_work_lookup scene_ids (num_workers sa) chunks i c
                     Hw Hdiv Hi) as (_ & _ & ?). }
    destruct (Z.le_gt_cases (num_workers sa) n) as [Hle|Hgt].
    + (* at least one scene per worker: no chunk is empty *)
      rewrite Z.min_r by done. rewrite <- Hlen, <- (length_fmap chunk), Hchunks.
      rewrite filter_all; [done|].
      apply Forall_forall. intros c Hc. destruct (Hsize c Hc) as [i Hi].
      assert (1 ≤ n `div` num_workers sa).
      { apply Z.div_le_lower_bound; lia. }
      intros ->. cbn [length] in Hi. destruct (decide _); lia.
    + (* fewer scenes than workers: every worker started has one scene *)
      rewrite Z.min_l by lia. subst n. rewrite <- Hconcat.
      rewrite length_concat_singletons, length_fmap; [done|].
      rewrite Hchunks. apply Forall_forall. intros c Hc.
      apply list_elem_of_filter in Hc as [Hne Hc].
      destruct (Hsize c Hc) as [i Hi].
      rewrite Z.div_small in Hi by lia.
      destruct c as [|x [|y c]]; [done|done|].
      cbn [length] in Hi. destruct (decide _); lia.
Qed.

(** X11. [--num_workers] is not validated.  With scenes to process, a worker
    count of 0 ends the supervisor with an uncaught [ZeroDivisionError]
    before any worker is started; a negative worker count makes
    [divide_work] return no chunk at all, and the supervisor starts nothing
    and returns normally, with no scene processed. *)
Theorem nonpositive_worker_count (se : env) (sa : args) (prompts : list row)
    (scene_ids : list Z) :
  read_csv se (csv_file sa) = Some prompts →
  scenes_to_process se sa prompts = Py.Ok scene_ids → scene_ids ≠ [] →
  (num_workers sa = 0 →
   ∀ intr fuel,
     run se sa intr fuel = Some (no_workers (Py.Uncaught Py.ZeroDivisionError)))
  ∧ (num_workers sa < 0 →
     divide_work scene_ids (num_workers sa) = Py.Ok []
     ∧ ∀ fuel, run se sa NoInterrupt (S fuel) = Some (no_workers Py.Returned)).
Proof.
  intros Hcsv Hscenes Hne. split.
  - intros H0 intr fuel. unfold run. rewrite Hcsv, Hscenes.
    destruct scene_ids; [done|]. unfold divide_work. by rewrite H0.
  - intros Hneg.
    assert (divide_work scene_ids (num_workers sa) = Py.Ok []) as Hdiv.
    { unfold divide_work, Py.range.
      destruct (Z.eqb_spec (num_workers sa) 0) as [?|_]; [lia|].
      unfold seqZ. replace (Z.to_nat (num_workers sa)) with 0%nat by lia.
      done. }
    split; [done|]. intros fuel. unfold run. rewrite Hcsv, Hscenes.
    destruct scene_ids; [done|]. rewrite Hdiv.
    by destruct (dry_run sa).
Qed.

End supervisor_extras.

(** Three scenes and two workers: both chunks get a process. *)
Lemma launch_assigns_every_scene_witness :
  ∃ ws,
    Multiworker.launch Scenario.crashing_workers
      (Scenario.supervisor_args 2 false) Multiworker.NoInterrupt 0
      [[1; 2]; [3]] [] = (Py.Ok (), ws)
    ∧ concat (Multiworker.chunk <$> ws) = [1; 2; 3]
    ∧ Z.of_nat (length ws) = 2.
Proof.
  pose proof (launch_assigns_every_scene Scenario.crashing_workers
                (Scenario.supervisor_args 2 false) [1; 2; 3] [[1; 2]; [3]])
    as Hlaunched.
  premises_by_evaluation Hlaunched.
  destruct Hlaunched as (ws & Hlaunch & Hconcat & _ & _ & Hlen).
  exists ws. exact (conj Hlaunch (conj Hconcat Hlen)).
Defined.

(** Three scenes and a worker count of 0, then of -2. *)
Lemma nonpositive_worker_count_witness :
  Multiworker.run Scenario.crashing_workers (Scenario.supervisor_args 0 false)
    Multiworker.NoInterrupt 5
  = Some (Multiworker.no_workers (Py.Uncaught Py.ZeroDivisionError))
  ∧ Multiworker.run Scenario.crashing_workers
      (Scenario.supervisor_args (-2) false) Multiworker.NoInterrupt 5
    = Some (Multiworker.no_workers Py.Returned).
Proof.
  pose proof (nonpositive_worker_count Scenario.crashing_workers
                (Scenario.supervisor_args 0 false) Scenario.catalog [1; 2; 3])
    as Hzero.
  pose proof (nonpositive_worker_count Scenario.crashing_workers
                (Scenario.supervisor_args (-2) false) Scenario.catalog
                [1; 2; 3]) as Hneg.
  premises_by_evaluation Hzero. premises_by_evaluation Hneg.
  destruct Hzero as [Hzero _]. destruct Hneg as [_ Hneg].
  premises_by_evaluation Hzero. premises_by_evaluation Hneg.
  exact (conj (Hzero Multiworker.NoInterrupt 5%nat) (proj2 Hneg 4%nat)).
Defined.

Section scene_id_facts.
Import Multiworker.

Lemma read_ids_cons (r : row) prompts ids :
  read_ids (r :: prompts) = Py.Ok ids ↔
  ∃ id_text i ids', r !! "ID" = Some id_text ∧ Py.int id_text = Py.Ok i
    ∧ read_ids prompts = Py.Ok ids' ∧ ids = i :: ids'.
Proof.
  cbn [read_ids]. split.
  - destruct (r !! "ID") as [id_text|] eqn:HID; [|done].
    destruct (Py.int id_text) as [i|] eqn:Hint; [|done].
    destruct (read_ids prompts) as [ids'|] eqn:Hrest; [|done].
    intros [= <-]. by exists id_text, i, ids'.
  - intros (id_text & i & ids' & -> & -> & -> & ->). done.
Qed.

Lemma read_ids_Permutation prompts prompts' ids :
  prompts ≡ₚ prompts' → read_ids prompts = Py.Ok ids →
  ∃ ids', read_ids prompts' = Py.Ok ids' ∧ ids ≡ₚ ids'.
Proof.
  intros Hperm. revert ids.
  induction Hperm as [|r l l' _ IH|r1 r2 l|l l' l'' _ IH1 _ IH2]; intros ids.
  - intros [= <-]. by exists [].
  - intros (t & i & ids0 & HID & Hint & Hrest & ->)%read_ids_cons.
    destruct (IH ids0 Hrest) as (ids0' & Hrest' & Hp).
    exists (i :: ids0'). split; [|by constructor].
    apply read_ids_cons. by exists t, i, ids0'.
  - intros (t2 & i2 & ids2 & HID2 & Hint2 & Hrest2 & ->)%read_ids_cons.
    apply read_ids_cons in Hrest2
      as (t1 & i1 & ids1 & HID1 & Hint1 & Hrest1 & ->).
    exists (i1 :: i2 :: ids1). split; [|by constructor].
    apply read_ids_cons. exists t1, i1, (i2 :: ids1). split_and!; [done..| |done].
    apply read_ids_cons. by exists t2, i2, ids1.
  - intros Hl. destruct (IH1 ids Hl) as (ids' & Hl' & Hp1).
    destruct (IH2 ids' Hl') as (ids'' & Hl'' & Hp2).
    exists ids''. split; [done|]. by etrans.
Qed.

Lemma get_scene_ids_selected prompts lo hi all_scene_ids :
  get_scene_ids prompts lo hi = Py.Ok all_scene_ids →
  ∃ ids, read_ids prompts = Py.Ok ids
    ∧ all_scene_ids = Py.sorted (filter (λ i, selected lo hi i = true) ids).
Proof.
  unfold get_scene_ids. destruct (read_ids prompts) as [ids|]; [|done].
  intros [= <-]. exists ids. split; [done|]. f_equal.
  unfold selected. destruct lo as [lo|], hi as [hi|].
  - rewrite list_filter_filter. apply list_filter_iff. intros x.
    rewrite andb_true_iff, !Z.leb_le. tauto.
  - apply list_filter_iff. intros x. rewrite andb_true_r, Z.leb_le. tauto.
  - apply list_filter_iff. intros x. cbn [andb]. by rewrite Z.leb_le.
  - symmetry. apply filter_all. by apply Forall_true.
Qed.

(** X12. [get_scene_ids] returns the IDs of the catalog that lie within the
    given bounds, in ascending order and with the multiplicity they have in
    the catalog (a duplicated ID stays duplicated); its result does not
    depend on the order of the records in the catalog. *)
Theorem get_scene_ids_ignores_row_order (prompts prompts' : list row)
    (lo hi : option Z) (all_scene_ids : list Z) :
  prompts ≡ₚ prompts' →
  get_scene_ids prompts lo hi = Py.Ok all_scene_ids →
  get_scene_ids prompts' lo hi = Py.Ok all_scene_ids
  ∧ StronglySorted Z.le all_scene_ids
  ∧ ∃ ids, read_ids prompts = Py.Ok ids
      ∧ all_scene_ids ≡ₚ filter (λ i, selected lo hi i = true) ids.
Proof.
  intros Hperm Hget.
  destruct (get_scene_ids_selected prompts lo hi all_scene_ids Hget)
    as (ids & Hids & ->).
  destruct (read_ids_Permutation prompts prompts' ids Hperm Hids)
    as (ids' & Hids' & Hp).
  assert (∀ l, StronglySorted Z.le (Py.sorted l)) as Hsorted.
  { intros l. apply StronglySorted_merge_sort; apply _. }
  split_and!.
  - assert (∃ l, get_scene_ids prompts' lo hi = Py.Ok l) as [l Hget'].
    { unfold get_scene_ids. rewrite Hids'. by eexists. }
    rewrite Hget'. f_equal.
    destruct (get_scene_ids_selected prompts' lo hi l Hget')
      as (ids'' & Hids'' & ->).
    rewrite Hids' in Hids''. injection Hids'' as <-.
    apply (StronglySorted_unique Z.le); [done..|].
    unfold Py.sorted. rewrite !merge_sort_Permutation. by rewrite Hp.
  - done.
  - exists ids. split; [done|]. apply merge_sort_Permutation.
Qed.


(** X14. With [--skip_existing], when every selected scene has its
    [render.png], [filter_incomplete_scenes] returns the empty list and the
    supervisor returns at once: no worker is started, whatever
    [--num_workers] is. *)
Theorem nothing_to_do_starts_no_worker (se : env) (sa : args)
    (prompts : list row) (all_scene_ids : list Z) :
  read_csv se (csv_file sa) = Some prompts →
  get_scene_ids prompts (start_id sa) (end_id sa) = Py.Ok all_scene_ids →
  skip_existing sa = true →
  (∀ id, id ∈ all_scene_ids → render_file (results_dir sa) id ∈ files se) →
  filter_incomplete_scenes (files se) all_scene_ids (results_dir sa) = []
  ∧ ∀ intr fuel, run se sa intr fuel = Some (no_workers Py.Returned).
Proof.
  intros Hcsv Hget Hse Hdone.
  assert (filter_incomplete_scenes (files se) all_scene_ids (results_dir sa) = [])
    as Hnone.
  { rewrite filter_incomplete_scenes_spec. clear Hget.
    induction all_scene_ids as [|id l IH]; [done|].
    rewrite filter_cons_False.
    - apply IH. intros id' Hid'. apply Hdone. by right.
    - intros Hno. apply Hno, Hdone. by left. }
  split; [done|]. intros intr fuel.
  unfold run, scenes_to_process. rewrite Hcsv, Hget. cbn [Py.bind].
  by rewrite Hse, Hnone.
Qed.

End scene_id_facts.

(** A catalog that lists scene 3 before scene 1, and the same catalog in
    the other order. *)
Lemma get_scene_ids_ignores_row_order_witness :
  Multiworker.get_scene_ids [Scenario.mkrow "1" "A"; Scenario.mkrow "3" "C"]
    None None = Py.Ok [1; 3]
  ∧ StronglySorted Z.le [1; 3].
Proof.
  pose proof (get_scene_ids_ignores_row_order
                [Scenario.mkrow "3" "C"; Scenario.mkrow "1" "A"]
                [Scenario.mkrow "1" "A"; Scenario.mkrow "3" "C"] None None
                [1; 3] (perm_swap _ _ _)) as Horder.
  premises_by_evaluation Horder.
  destruct Horder as (Hget & Hsorted & _).
  exact (conj Hget Hsorted).
Defined.


(** Only scene 2 is selected, and it is rendered already. *)
Lemma nothing_to_do_starts_no_worker_witness :
  Multiworker.run
    (Scenario.supervisor_env Scenario.scene_2_rendered
       (λ _, Multiworker.Signalled))
    (Scenario.supervisor_range_args (Some 2) (Some 2) true)
    Multiworker.NoInterrupt 3
  = Some (Multiworker.no_workers Py.Returned).
Proof.
  assert (∀ id, id ∈ [2] →
            Multiworker.render_file "results" id ∈ Scenario.scene_2_rendered)
    as Hdone.
  { intros id Hid. apply list_elem_of_singleton in Hid. subst id.
    by_evaluation. }
  pose proof (nothing_to_do_starts_no_worker
                (Scenario.supervisor_env Scenario.scene_2_rendered
                   (λ _, Multiworker.Signalled))
                (Scenario.supervisor_range_args (Some 2) (Some 2) true)
                Scenario.catalog [2]) as Hnothing.
  premises_by_evaluation Hnothing.
  exact (proj2 (Hnothing Hdone) Multiworker.NoInterrupt 3%nat).
Defined.

Section monitoring_extras.
Import Multiworker.

Lemma monitor_never_ends fuel intr polls processes :
  (∀ n, intr ≠ WhileMonitoring n) →
  Exists (λ w, ∃ code, proc w = Alive None code) processes →
  monitor fuel intr polls processes = None.
Proof.
  intros Hintr. revert polls processes.
  induction fuel as [|fuel IH]; intros polls processes Hhung; [done|].
  cbn [monitor].
  assert (forallb (λ w, bool_decide (is_Some (poll (proc w)))) processes = false)
    as ->.
  { apply not_true_is_false. intros Hall.
    rewrite forallb_forall in Hall. apply Exists_exists in Hhung
      as (w & Hw & code & Hproc).
    apply list_elem_of_In, Hall, bool_decide_eq_true_1 in Hw.
    rewrite Hproc in Hw. by destruct Hw. }
  assert (Exists (λ w, ∃ code, proc w = Alive None code)
            (on_proc tick <$> processes)) as Hnext.
  { apply Exists_fmap. eapply Exists_impl; [exact Hhung|].
    intros w [code Hproc]. exists code. cbn [on_proc proc]. by rewrite Hproc. }
  destruct intr as [|spawned|n]; [by apply IH..|].
  by destruct (Hintr n).
Qed.

(** X15. Nothing in the supervisor enforces a time limit.  When one of the
    worker processes it has started never exits, and no interrupt arrives,
    the monitoring loop never ends: the supervisor is still polling after
    any number of polls. *)
Theorem hung_worker_blocks_supervisor (se : env) (sa : args)
    (prompts : list row) (scene_ids : list Z) (chunks : list (list Z))
    (ws : list worker) :
  read_csv se (csv_file sa) = Some prompts →
  scenes_to_process se sa prompts = Py.Ok scene_ids → scene_ids ≠ [] →
  divide_work scene_ids (num_workers sa) = Py.Ok chunks →
  dry_run sa = false →
  launch se sa NoInterrupt 0 chunks [] = (Py.Ok (), ws) →
  Exists (λ w, ∃ code, spawn se (cmd w) = Alive None code) ws →
  ∀ fuel, run se sa NoInterrupt fuel = None.
Proof.
  intros Hcsv Hscenes Hne Hdiv Hdry Hlaunch Hhung fuel.
  unfold run. rewrite Hcsv, Hscenes. destruct scene_ids; [done|].
  rewrite Hdiv, Hdry, Hlaunch. cbn [interrupted_at_launch].
  rewrite monitor_never_ends; [done..|].
  destruct (launch_no_interrupt se sa 0 chunks []) as (ws' & Hl & _ & Hws & _).
  rewrite Hlaunch in Hl. injection Hl as <-.
  apply Exists_exists in Hhung as (w & Hw & code & Hcode).
  apply Exists_exists. exists w. split; [done|]. exists code.
  rewrite Forall_forall in Hws. destruct (Hws w Hw) as (_ & _ & _ & ->). done.
Qed.

Lemma dry_run_cmd_eq executable script_dir a chunk :
  dry_run_cmd executable script_dir a chunk
  = worker_cmd executable script_dir a chunk.
Proof.
  unfold dry_run_cmd, worker_cmd.
  destruct (Py.min chunk) as [lo|]; [|done].
  destruct (Py.max chunk) as [hi|]; [|done]. cbn [Py.bind]. f_equal.
  destruct (skip_existing a), (skip_retrieve a), (skip_render a); done.
Qed.

Lemma dry_run_loop_launch e a i work_chunks printed processes :
  ∃ ws,
    launch e a NoInterrupt i work_chunks processes = (Py.Ok (), processes ++ ws)
    ∧ dry_run_loop e a i work_chunks printed
      = Py.Ok (printed ++ ((λ w, (worker_id w, Py.join " " (cmd w))) <$> ws)).
Proof.
  revert i printed processes.
  induction work_chunks as [|c work_chunks IH]; intros i printed processes;
    cbn [launch dry_run_loop interrupted_at_launch].
  - exists []. by rewrite !app_nil_r.
  - destruct c as [|x c]; [by apply IH|].
    rewrite dry_run_cmd_eq.
    destruct (worker_cmd_nonempty (executable e) (script_dir e) a x c)
      as [cmd0 ->].
    destruct (IH (S i) (printed ++ [(i, Py.join " " cmd0)])
                (processes ++ [ {| worker_id := i; cmd := cmd0;
                                   proc := spawn e cmd0; chunk := x :: c |} ]))
      as (ws & -> & ->).
    exists ({| worker_id := i; cmd := cmd0; proc := spawn e cmd0;
               chunk := x :: c |} :: ws).
    by rewrite <- !app_assoc.
Qed.

(** X16. A dry run prints, for every non-empty chunk and under the same
    worker index, exactly the command line that the launch loop gives to
    [subprocess.Popen] (the two places build it alike); and a run with
    [--dry_run] starts no worker and prints no summary. *)
Theorem dry_run_prints_launch_commands (se : env) (sa : args)
    (work_chunks : list (list Z)) :
  (∃ ws,
     launch se sa NoInterrupt 0 work_chunks [] = (Py.Ok (), ws)
     ∧ dry_run_loop se sa 0 work_chunks []
       = Py.Ok ((λ w, (worker_id w, Py.join " " (cmd w))) <$> ws))
  ∧ (dry_run sa = true →
     ∀ intr fuel res, run se sa intr fuel = Some res →
       workers res = [] ∧ summary res = []
       ∧ outcome res ≠ Py.Uncaught Py.KeyboardInterrupt).
Proof.
  split.
  - destruct (dry_run_loop_launch se sa 0 work_chunks [] []) as (ws & Hl & Hd).
    by exists ws.
  - intros Hdry intr fuel res. unfold run. rewrite Hdry.
    destruct (read_csv se (csv_file sa)) as [prompts|];
      [|by intros [= <-]].
    destruct (scenes_to_process se sa prompts) as [[|id scene_ids]|ex] eqn:Hs;
      [by intros [= <-]| |].
    + destruct (divide_work _ _) as [chunks|ex] eqn:Hdiv; [by intros [= <-]|].
      intros [= <-]. split_and!; [done..|].
      unfold divide_work in Hdiv. destruct (_ =? 0); [|done].
      by injection Hdiv as <-.
    + intros [= <-]. split_and!; [done..|]. cbn [outcome no_workers].
      intros [= ->]. unfold scenes_to_process in Hs.
      destruct (get_scene_ids _ _ _) as [|ex] eqn:Hget; [done|].
      cbn [Py.bind] in Hs. injection Hs as ->.
      unfold get_scene_ids in Hget.
      destruct (read_ids prompts) eqn:Hread; [done|]. injection Hget as ->.
      by apply read_ids_not_interrupt in Hread.
Qed.

End monitoring_extras.

(** Two workers that never end: the supervisor is still polling after a
    hundred polls. *)
Lemma hung_worker_blocks_supervisor_witness :
  Multiworker.run Scenario.endless_workers (Scenario.supervisor_args 2 false)
    Multiworker.NoInterrupt 100 = None.
Proof.
  pose (ws := (Multiworker.launch Scenario.endless_workers
                 (Scenario.supervisor_args 2 false) Multiworker.NoInterrupt 0
                 [[1; 2]; [3]] []).2).
  assert (Exists (λ w, ∃ code,
                    Multiworker.spawn Scenario.endless_workers
                      (Multiworker.cmd w) = Multiworker.Alive None code) ws)
    as Hhung.
  { vm_compute. apply Exists_cons_hd. by exists 0. }
  pose proof (hung_worker_blocks_supervisor Scenario.endless_workers
                (Scenario.supervisor_args 2 false) Scenario.catalog [1; 2; 3]
                [[1; 2]; [3]] ws) as Hblocked.
  premises_by_evaluation Hblocked.
  exact (Hblocked Hhung 100%nat).
Defined.

(** ** Paths and command lines *)

Section path_facts.

Lemma string_app_assoc (s1 s2 s3 : string) :
  (s1 +:+ s2) +:+ s3 = s1 +:+ (s2 +:+ s3).
Proof.
  induction s1 as [|c s1 IH]; [done|].
  change ((String c s1 +:+ s2) +:+ s3) with (String c ((s1 +:+ s2) +:+ s3)).
  change (String c s1 +:+ (s2 +:+ s3)) with (String c (s1 +:+ (s2 +:+ s3))).
  by rewrite IH.
Qed.

Lemma string_app_length (s1 s2 : string) :
  String.length (s1 +:+ s2) = (String.length s1 + String.length s2)%nat.
Proof.
  induction s1 as [|c s1 IH]; [done|].
  change (String c s1 +:+ s2) with (String c (s1 +:+ s2)).
  cbn [String.length]. by rewrite IH.
Qed.

Lemma string_app_inj_r (s1 s2 t : string) : s1 +:+ t = s2 +:+ t → s1 = s2.
Proof.
  revert s2. induction s1 as [|c1 s1 IH]; intros [|c2 s2] Heq.
  - done.
  - apply (f_equal String.length) in Heq.
    change (String c2 s2 +:+ t) with (String c2 (s2 +:+ t)) in Heq.
    change ("" +:+ t) with t in Heq.
    cbn [String.length] in Heq. rewrite string_app_length in Heq. lia.
  - apply (f_equal String.length) in Heq.
    change (String c1 s1 +:+ t) with (String c1 (s1 +:+ t)) in Heq.
    change ("" +:+ t) with t in Heq.
    cbn [String.length] in Heq. rewrite string_app_length in Heq. lia.
  - change (String c1 (s1 +:+ t) = String c2 (s2 +:+ t)) in Heq.
    injection Heq as -> Heq. f_equal. by apply IH.
Qed.

Lemma zeros_digits_value n s b :
  Py.digits_value 0 b (Py.zeros n +:+ s)
  = Py.digits_value 0 (b || negb (Nat.eqb n 0)) s.
Proof.
  revert b. induction n as [|n IH]; intros b.
  - change (Py.zeros 0 +:+ s) with s. by rewrite orb_false_r.
  - change (Py.zeros (S n) +:+ s) with (String "0" (Py.zeros n +:+ s)).
    cbn [Py.digits_value]. change (Ascii.eqb "0" "_") with false.
    change (Py.digit_value "0") with (Some 0%N). cbn [N.mul N.add].
    rewrite IH. cbn [Nat.eqb negb orb]. by rewrite orb_true_r.
Qed.

Lemma zeros_all_digits n s :
  Argparse.all_digits s = true → Argparse.all_digits (Py.zeros n +:+ s) = true.
Proof.
  intros Hs. induction n as [|n IH]; [done|].
  change (Py.zeros (S n) +:+ s) with (String "0" (Py.zeros n +:+ s)).
  apply all_digits_cons. split; [by exists 0%N|done].
Qed.

Lemma pretty_N_value (x : N) b : Py.digits_value 0 b (pretty x) = Some x.
Proof.
  unfold pretty, pretty_N. case_decide as Hx.
  - subst. by destruct b.
  - rewrite digits_value_pretty by lia. done.
Qed.

Lemma pretty_N_all_digits (x : N) : Argparse.all_digits (pretty x) = true.
Proof.
  destruct (pretty_N_shape x) as (d & rest & n & -> & Hd & Hrest & _).
  apply all_digits_cons. eauto.
Qed.

Lemma lstrip_digits s : Argparse.all_digits s = true → Py.lstrip s = s.
Proof.
  destruct s as [|c s]; [done|].
  intros [[n Hc] _]%all_digits_cons. cbn [Py.lstrip].
  by rewrite (digit_not_space _ _ Hc).
Qed.

(** [int] on a text of digits. *)
Lemma int_digits s n :
  Argparse.all_digits s = true → Py.digits_value 0 false s = Some n →
  Py.int s = Py.Ok (Z.of_N n).
Proof.
  intros Hs Hv. unfold Py.int. rewrite lstrip_digits, rstrip_digits by done.
  destruct s as [|c s]; [done|].
  apply all_digits_cons in Hs as [[m Hc] _].
  digit_cases Hc; by rewrite Hv.
Qed.

Lemma int_minus_digits s n :
  Argparse.all_digits s = true → Py.digits_value 0 false s = Some n →
  Py.int ("-" +:+ s) = Py.Ok (- Z.of_N n).
Proof.
  intros Hs Hv. unfold Py.int.
  change ("-" +:+ s) with (String "-" s). cbn [Py.lstrip].
  change (Ascii.is_space "-") with false. cbn [Py.rstrip].
  rewrite rstrip_digits by done.
  destruct s; by rewrite Hv.
Qed.

Lemma int_format_03d z : Py.int (Py.format_03d z) = Py.Ok z.
Proof.
  unfold Py.format_03d.
  set (digits := pretty (Z.abs_N z)).
  destruct (Z.ltb_spec z 0) as [Hneg|Hpos].
  - rewrite (int_minus_digits _ (Z.abs_N z)).
    + f_equal. lia.
    + apply zeros_all_digits, pretty_N_all_digits.
    + rewrite zeros_digits_value. apply pretty_N_value.
  - rewrite (int_digits _ (Z.abs_N z)).
    + f_equal. lia.
    + apply zeros_all_digits, pretty_N_all_digits.
    + rewrite zeros_digits_value. apply pretty_N_value.
Qed.

(** X17. The zero-padded number of a scene directory identifies the scene:
    [int] reads the text of [{id:03d}] back as [id], for negative IDs too,
    so two different IDs never share a scene directory or a [render.png];
    and the supervisor and the worker compute the same [render.png] path for
    a scene. *)
Theorem scene_paths_identify_scene :
  (∀ z, Py.int (Py.format_03d z) = Py.Ok z)
  ∧ (∀ d z1 z2, RunFromCsv.scene_dir d z1 = RunFromCsv.scene_dir d z2 → z1 = z2)
  ∧ (∀ d z1 z2,
       RunFromCsv.render_file d z1 = RunFromCsv.render_file d z2 → z1 = z2)
  ∧ (∀ d z, Multiworker.render_file d z = RunFromCsv.render_file d z).
Proof.
  assert (∀ z1 z2, Py.format_03d z1 = Py.format_03d z2 → z1 = z2) as Hinj.
  { intros z1 z2 Heq. apply (f_equal Py.int) in Heq.
    rewrite !int_format_03d in Heq. by injection Heq. }
  assert (∀ d z1 z2,
            RunFromCsv.scene_dir d z1 = RunFromCsv.scene_dir d z2 → z1 = z2)
    as Hdir.
  { intros d z1 z2 Heq. unfold RunFromCsv.scene_dir, Py.path_join in Heq.
    apply (inj (String.append d)) in Heq.
    apply (inj (String.append "/")) in Heq.
    apply (inj (String.append "scene_")) in Heq. by apply Hinj. }
  split; [apply int_format_03d|]. split; [exact Hdir|]. split; [|done].
  intros d z1 z2 Heq. unfold RunFromCsv.render_file, Py.path_join in Heq.
  apply string_app_inj_r in Heq. by apply (Hdir d).
Qed.

End path_facts.

Section usage_errors.



End usage_errors.

(** The command line of worker 0 of the three scenes, without the
    timeout. *)
Lemma worker_reads_range_and_toggles_witness :
  RunFromCsv.parse_args "/home/ubuntu"
    ["--csv_file"; "annotations.csv"; "--results_dir"; "results";
     "--start_id"; "1"; "--end_id"; "2"; "--skip_existing"]
  = Argparse.Parsed (Scenario.worker_args (Some 1) (Some 2) false true).
Proof.
  exact (worker_reads_range_and_toggles (Scenario.supervisor_args 2 true) 1 2
           "/home/ubuntu" eq_refl eq_refl).
Defined.


(** ** [generate_scene.py] and [place_in_blender.py] *)

Section string_search_facts.

Lemma prefix_spec (s1 s2 : string) :
  String.prefix s1 s2 = true ↔ ∃ rest, s2 = s1 +:+ rest.
Proof.
  revert s2. induction s1 as [|c1 s1 IH]; intros s2.
  - split; [intros _; by exists s2|]. by destruct s2.
  - destruct s2 as [|c2 s2]; cbn [String.prefix].
    + split; [done|]. by intros [rest [=]].
    + destruct (ascii_dec c1 c2) as [->|Hne].
      * rewrite IH. split; intros [rest Hrest]; exists rest.
        -- by rewrite Hrest.
        -- change (String c2 s1 +:+ rest) with (String c2 (s1 +:+ rest)) in Hrest.
           by injection Hrest.
      * split; [done|]. intros [rest Hrest].
        change (String c1 s1 +:+ rest) with (String c1 (s1 +:+ rest)) in Hrest.
        injection Hrest as -> _. done.
Qed.

Lemma contains_spec (needle haystack : string) :
  Py.contains needle haystack = true ↔
  ∃ before after, haystack = before +:+ needle +:+ after.
Proof.
  induction haystack as [|c haystack IH]; cbn [Py.contains].
  - rewrite orb_false_r, prefix_spec. split.
    + intros [rest Hrest]. by exists "", rest.
    + intros ([|c before] & after & Heq); [by exists after|done].
  - rewrite orb_true_iff, prefix_spec, IH. split.
    + intros [[rest Hrest]|(before & after & Hrest)].
      * by exists "", rest.
      * exists (String c before), after. by rewrite Hrest.
    + intros ([|c' before] & after & Heq).
      * left. by exists after.
      * right. exists before, after.
        change (String c' before +:+ needle +:+ after)
          with (String c' (before +:+ needle +:+ after)) in Heq.
        by injection Heq.
Qed.

End string_search_facts.

Section preset_extras.
Import GenerateScene.

Lemma home_office_contains_office (s : string) :
  Py.contains "home office" s = true → Py.contains "office" s = true.
Proof.
  rewrite !contains_spec. intros (before & after & ->).
  exists (before +:+ "home "), after. by rewrite string_app_assoc.
Qed.

(** X20. The preset named [home office] is never selected by
    [detect_room_type], whatever [str.lower] does: a prompt that contains
    [home office] also contains [office], which the loop over
    [ROOM_PRESETS] tests first, so such a prompt is reported as one of the
    four room types that come before [home office]. *)
Theorem home_office_preset_is_shadowed (lower : string → string)
    (prompt : string) :
  (detect_room_type lower prompt).1 ≠ DetectedRoomType "home office"
  ∧ (Py.contains "home office" (lower prompt) = true →
     (detect_room_type lower prompt).1
     ∈ [DetectedRoomType "bedroom"; DetectedRoomType "living room";
        DetectedRoomType "livingroom"; DetectedRoomType "office"]).
Proof.
  unfold detect_room_type, ROOM_PRESETS. cbn [detect_loop].
  pose proof (home_office_contains_office (lower prompt)) as Hoffice.
  destruct (Py.contains "bedroom" (lower prompt)).
  { split; [done|]. intros _. cbn [fst]. rewrite !elem_of_cons. tauto. }
  destruct (Py.contains "living room" (lower prompt)).
  { split; [done|]. intros _. cbn [fst]. rewrite !elem_of_cons. tauto. }
  destruct (Py.contains "livingroom" (lower prompt)).
  { split; [done|]. intros _. cbn [fst]. rewrite !elem_of_cons. tauto. }
  destruct (Py.contains "office" (lower prompt)).
  { split; [done|]. intros _. cbn [fst]. rewrite !elem_of_cons. tauto. }
  destruct (Py.contains "home office" (lower prompt)).
  { by specialize (Hoffice eq_refl). }
  split; [|done].
  repeat (destruct (Py.contains _ (lower prompt)); [done|]). done.
Qed.

End preset_extras.

Section asset_extras.
Import PlaceInBlender.

Lemma endswith_app (suffix a s : string) :
  Py.endswith suffix s = true → Py.endswith suffix (a +:+ s) = true.
Proof.
  intros Hs. induction a as [|c a IH]; [done|].
  change (String c a +:+ s) with (String c (a +:+ s)).
  cbn [Py.endswith]. rewrite IH. apply orb_true_r.
Qed.

Lemma endswith_os_path_join (suffix root file : string) :
  Py.endswith suffix file = true →
  Py.endswith suffix (Py.os_path_join root file) = true.
Proof.
  intros Hfile. unfold Py.os_path_join.
  destruct (String.prefix "/" file); [done|].
  destruct (String.eqb root "" || Py.endswith "/" root).
  - by apply endswith_app.
  - by do 2 apply endswith_app.
Qed.

Lemma before_dot_no_dot (s : string) :
  Py.contains "." (Py.before_dot s) = false.
Proof.
  induction s as [|c s IH]; [done|]. cbn [Py.before_dot].
  destruct (Ascii.eqb_spec c ".") as [->|Hc]; [done|].
  cbn [Py.contains String.prefix]. rewrite IH.
  destruct (ascii_dec "." c) as [<-|_]; [done|]. done.
Qed.

Lemma files_loop_lookup root files glb_files key :
  files_loop root files glb_files !! key =
  match glb_files !! key with
  | Some path => Some path
  | None =>
      snd <$> head (filter (λ kv, kv.1 = key)
                      ((λ file, (Py.before_dot file,
                                 Py.os_path_join root file))
                       <$> filter (λ file, Py.endswith ".glb" file = true)
                             files))
  end.
Proof.
  revert glb_files. induction files as [|file files IH]; intros glb_files;
    cbn [files_loop].
  - by destruct (glb_files !! key).
  - destruct (Py.endswith ".glb" file) eqn:Hglb.
    + rewrite filter_cons_True by done. cbn [fmap list_fmap].
      destruct (decide (is_Some (glb_files !! Py.before_dot file)))
        as [[path Hpath]|Hnone].
      * rewrite IH. destruct (glb_files !! key) as [p|] eqn:Hkey; [done|].
        rewrite filter_cons_False; [done|]. cbn [fst]. intros <-. congruence.
      * rewrite IH. apply eq_None_not_Some in Hnone.
        destruct (decide (Py.before_dot file = key)) as [<-|Hne].
        -- rewrite lookup_insert_eq, Hnone.
           by rewrite filter_cons_True by done.
        -- rewrite lookup_insert_ne by done.
           by rewrite filter_cons_False by done.
    + rewrite filter_cons_False by (by rewrite Hglb). apply IH.
Qed.

Lemma walk_loop_lookup walk glb_files key :
  walk_loop walk glb_files !! key =
  match glb_files !! key with
  | Some path => Some path
  | None => snd <$> head (filter (λ kv, kv.1 = key) (glb_candidates walk))
  end.
Proof.
  revert glb_files. induction walk as [|[[root dirs] files] walk IH];
    intros glb_files; cbn [walk_loop].
  - by destruct (glb_files !! key).
  - rewrite IH, files_loop_lookup.
    unfold glb_candidates. cbn [mbind list_bind]. fold (glb_candidates walk).
    rewrite filter_app.
    destruct (glb_files !! key) as [p|]; [done|].
    destruct (filter _ (_ <$> _)) as [|kv l]; done.
Qed.

(** X21. [find_glb_files] files every asset under the text of its file name
    before the first dot, and the first file the walk meets under a key
    wins: the path stored under a key is that of the first [.glb] file, in
    walk order, whose name starts with the key followed by a dot.  Every
    stored path ends in [.glb] and no key contains a dot. *)
Theorem find_glb_files_first_wins
    (walk : list (string * list string * list string)) (key : string) :
  find_glb_files walk !! key
  = snd <$> head (filter (λ kv, kv.1 = key) (glb_candidates walk))
  ∧ ∀ path, find_glb_files walk !! key = Some path →
      Py.endswith ".glb" path = true ∧ Py.contains "." key = false.
Proof.
  assert (find_glb_files walk !! key
          = snd <$> head (filter (λ kv, kv.1 = key) (glb_candidates walk)))
    as Hlookup.
  { unfold find_glb_files. by rewrite walk_loop_lookup, lookup_empty. }
  split; [done|]. intros path. rewrite Hlookup.
  destruct (filter _ _) as [|[k p] l] eqn:Hfilter; [done|].
  intros [= <-].
  assert ((k, p) ∈ filter (λ kv, kv.1 = key) (glb_candidates walk)) as Hin.
  { rewrite Hfilter. by left. }
  apply list_elem_of_filter in Hin as [Hk Hin]. cbn [fst] in Hk. subst k.
  unfold glb_candidates in Hin. apply list_elem_of_bind in Hin
    as ([[root dirs] files] & Hin & _).
  apply list_elem_of_fmap in Hin as (file & [= -> ->] & Hfile).
  apply list_elem_of_filter in Hfile as [Hglb _]. split.
  - by apply endswith_os_path_join.
  - apply before_dot_no_dot.
Qed.

End asset_extras.

(** ** [rerender_missing.py] *)

Section rerender_facts.
Import RerenderMissing.

Lemma rerender_run_blender_spec e scene_dir st :
  let r := run_blender e scene_dir st in
  files st ⊆ files r.2
  ∧ successful r.2 = successful st ∧ failed r.2 = failed st
  ∧ (trace r.2 = trace st ∨ trace r.2 = trace st ++ [scene_dir]).
Proof.
  cbv zeta. unfold run_blender.
  destruct (path_exists st _); cbn [negb fst snd];
    [|split_and!; [done..|by left]].
  destruct (path_exists st BLENDER_PATH); cbn [negb fst snd];
    [|split_and!; [done..|by left]].
  destruct (blender e scene_dir) as [rc [] | []]; cbn [negb];
    try destruct (rc =? 0); cbn [negb fst snd files trace successful failed
                                  log write_file];
    split_and!; try done; try (by right); by apply union_subseteq_r.
Qed.

Lemma render_loop_spec e scenes st :
  let r := render_loop e scenes st in
  files st ⊆ files r.2
  ∧ (∃ invoked, invoked `sublist_of` scenes
       ∧ trace r.2 = trace st ++ invoked)
  ∧ successful st ≤ successful r.2 ∧ failed st ≤ failed r.2
  ∧ (r.1 = Ok () →
     successful r.2 + failed r.2
     = successful st + failed st + Z.of_nat (length scenes)).
Proof.
  cbv zeta. revert st. induction scenes as [|sd scenes IH]; intros st;
    cbn [render_loop].
  - cbn [fst snd length]. split_and!; [done| |done..|intros _; lia].
    exists []. by rewrite app_nil_r.
  - destruct (rerender_run_blender_spec e sd st) as (Hf & Hs & Hfa & Htr).
    assert (∀ st1 st2,
              files st ⊆ files st1 →
              (trace st1 = trace st ∨ trace st1 = trace st ++ [sd]) →
              files st2 = files st1 → trace st2 = trace st1 →
              successful st2 + failed st2 = successful st + failed st + 1 →
              successful st ≤ successful st2 → failed st ≤ failed st2 →
              let r := render_loop e scenes st2 in
              files st ⊆ files r.2
              ∧ (∃ invoked, invoked `sublist_of` sd :: scenes
                   ∧ trace r.2 = trace st ++ invoked)
              ∧ successful st ≤ successful r.2 ∧ failed st ≤ failed r.2
              ∧ (r.1 = Ok () →
                 successful r.2 + failed r.2
                 = successful st + failed st
                   + Z.of_nat (length (sd :: scenes)))) as Hnext.
    { intros st1 st2 Hf1 Htr1 Hf2 Htr2 Hsum Hs2 Hfa2.
      destruct (IH st2) as (Hf' & (invoked & Hsub & Htr') & Hs' & Hfa' & Hsum').
      cbv zeta. split_and!.
      - etrans; [exact Hf1|]. by rewrite <- Hf2.
      - rewrite Htr', Htr2. destruct Htr1 as [-> | ->].
        + exists invoked. split; [by apply sublist_cons|done].
        + exists (sd :: invoked). rewrite <- app_assoc.
          split; [by apply sublist_skip|done].
      - lia.
      - lia.
      - intros Hok. rewrite (Hsum' Hok). cbn [length]. lia. }
    destruct (run_blender e sd st) as [[[]|ex] st1]; cbn [fst snd] in *.
    + destruct (path_exists st1 _).
      * apply (Hnext st1); cbn [files trace successful failed incr_successful];
          try done; lia.
      * apply (Hnext st1); cbn [files trace successful failed incr_failed];
          try done; lia.
    + apply (Hnext st1); cbn [files trace successful failed incr_failed];
        try done; lia.
    + split_and!; [done| |lia|lia|done].
      destruct Htr as [-> | ->].
      * exists []. rewrite app_nil_r. split; [apply sublist_nil_l|done].
      * exists [sd]. split; [|done]. apply sublist_skip, sublist_nil_l.
Qed.

Lemma scene_dirs_spec e results_dir scene_dir :
  scene_dir ∈ scene_dirs e results_dir ↔
  ∃ name, scene_dir = Py.path_join results_dir name
    ∧ String.prefix "scene_" name = true ∧ name ∈ listdir e results_dir.
Proof.
  unfold scene_dirs. rewrite merge_sort_Permutation, list_elem_of_fmap.
  split; intros (name & -> & Hname); exists name; split; try done.
  - by apply list_elem_of_filter in Hname.
  - by apply list_elem_of_filter.
Qed.

(** X22. [rerender_missing.py] starts Blender only in entries [scene_*] of
    the results directory that had a scene graph and assets and no
    [render.png] when the script started, in sorted order and at most once
    each; it removes no file; with [--dry_run] it starts nothing; and when it
    returns, [successful + failed] is the number of scenes that needed a
    render. *)
Theorem rerender_only_what_lacks_a_render (e : env) (a : args)
    (fs : gset string) :
  let r := main e a fs in
  trace r.2 `sublist_of` to_render e a fs
  ∧ Forall (λ scene_dir,
              needs_render fs scene_dir
              ∧ ∃ name, scene_dir = Py.path_join (results_dir a) name
                  ∧ String.prefix "scene_" name = true
                  ∧ name ∈ listdir e (results_dir a)) (trace r.2)
  ∧ fs ⊆ files r.2
  ∧ (dry_run a = true → r = (Returned, initial fs))
  ∧ (r.1 = Returned → dry_run a = false →
     successful r.2 + failed r.2 = Z.of_nat (length (to_render e a fs))
     ∧ 0 ≤ successful r.2 ∧ 0 ≤ failed r.2).
Proof.
  cbv zeta.
  assert (trace (main e a fs).2 `sublist_of` to_render e a fs
          ∧ fs ⊆ files (main e a fs).2
          ∧ ((main e a fs).1 = Returned → dry_run a = false →
             successful (main e a fs).2 + failed (main e a fs).2
             = Z.of_nat (length (to_render e a fs))
             ∧ 0 ≤ successful (main e a fs).2 ∧ 0 ≤ failed (main e a fs).2))
    as (Hsub & Hfiles & Hcount).
  { unfold main. destruct (dry_run a).
    - split_and!; [apply sublist_nil_l|done..].
    - destruct (render_loop_spec e (to_render e a fs) (initial fs))
        as (Hf & (invoked & Hsub & Htr) & Hs & Hfa & Hsum).
      destruct (render_loop e (to_render e a fs) (initial fs))
        as [[[]|ex] st]; cbn [fst snd initial files trace successful failed] in *.
      + rewrite Htr. split_and!; [done..|]. intros _ _.
        specialize (Hsum eq_refl). lia.
      + rewrite Htr. split_and!; [done..|]. intros [=]. }
  split_and!; [done| |done| |done].
  - apply Forall_forall. intros sd Hsd.
    eapply elem_of_sublist in Hsd; [|exact Hsub].
    apply list_elem_of_filter in Hsd as [Hneeds Hsd]. split; [done|].
    by apply scene_dirs_spec.
  - intros Hdry. unfold main. by rewrite Hdry.
Qed.

End rerender_facts.

Section rerender_errors.
Import RerenderMissing.

Lemma render_loop_app e scenes1 scenes2 st :
  render_loop e (scenes1 ++ scenes2) st =
  match render_loop e scenes1 st with
  | (Ok _, st1) => render_loop e scenes2 st1
  | (Raise ex, st1) => (Raise ex, st1)
  end.
Proof.
  revert st. induction scenes1 as [|sd scenes1 IH]; intros st; [done|].
  cbn [app render_loop].
  destruct (run_blender e sd st) as [[[]|ex] st1]; [|done..].
  by destruct (path_exists st1 _).
Qed.

(** While every Blender run ends by itself, the loop goes through the
    scenes, starting Blender once in each. *)
Lemma render_loop_all_exit e scenes st :
  Py.path_join (script_dir e) "place_in_blender.py" ∈ files st →
  BLENDER_PATH ∈ files st →
  Forall (λ scene_dir, ∃ rc writes, blender e scene_dir = Exits rc writes)
    scenes →
  ∃ st', render_loop e scenes st = (Ok (), st')
    ∧ files st ⊆ files st' ∧ trace st' = trace st ++ scenes
    ∧ successful st' + failed st'
      = successful st + failed st + Z.of_nat (length scenes).
Proof.
  intros Hscript Hbin Hexits. revert st Hscript Hbin.
  induction Hexits as [|sd scenes (rc & writes & Hrun) _ IH];
    intros st Hscript Hbin; cbn [render_loop].
  - exists st. rewrite app_nil_r. cbn [length]. split_and!; [done..|lia].
  - assert (∃ b st1, run_blender e sd st = (Ok b, st1)
              ∧ files st ⊆ files st1 ∧ trace st1 = trace st ++ [sd]
              ∧ successful st1 = successful st ∧ failed st1 = failed st)
      as (b & st1 & -> & Hf1 & Htr1 & Hs1 & Hfa1).
    { unfold run_blender, path_exists.
      rewrite !bool_decide_eq_true_2 by done. cbn [negb]. rewrite Hrun.
      destruct writes, (rc =? 0); cbn [negb]; eexists _, _;
        (split; [done|]);
        cbn [files trace successful failed log write_file];
        split_and!; try done; by apply union_subseteq_r. }
    assert (∀ st2, files st2 = files st1 → trace st2 = trace st1 →
              successful st2 + failed st2 = successful st + failed st + 1 →
              ∃ st', render_loop e scenes st2 = (Ok (), st')
                ∧ files st ⊆ files st' ∧ trace st' = trace st ++ sd :: scenes
                ∧ successful st' + failed st'
                  = successful st + failed st
                    + Z.of_nat (length (sd :: scenes))) as Hnext.
    { intros st2 Hf2 Htr2 Hsum.
      destruct (IH st2) as (st' & -> & Hf' & Htr' & Hsum').
      - rewrite Hf2. by apply Hf1.
      - rewrite Hf2. by apply Hf1.
      - exists st'. split; [done|]. split_and!.
        + etrans; [exact Hf1|]. by rewrite <- Hf2.
        + by rewrite Htr', Htr2, Htr1, <- app_assoc.
        + cbn [length]. lia. }
    destruct b.
    + destruct (path_exists st1 _);
        apply Hnext; cbn [files trace successful failed incr_successful
                            incr_failed]; try done; lia.
    + apply Hnext; cbn [files trace successful failed incr_failed];
        try done; lia.
Qed.

(** X23. The time limit of a Blender run is not handled in
    [rerender_missing.py]: when Blender does not end in time for a scene,
    [subprocess.TimeoutExpired] ends the whole script, after Blender has
    been started in that scene and in those before it; the scenes after it
    are not rendered and not counted. *)
Theorem rerender_timeout_ends_the_run (e : env) (a : args) (fs : gset string)
    (before after : list string) (scene_dir : string) (writes : bool) :
  dry_run a = false →
  to_render e a fs = before ++ scene_dir :: after →
  Py.path_join (script_dir e) "place_in_blender.py" ∈ fs →
  BLENDER_PATH ∈ fs →
  Forall (λ d, ∃ rc w, blender e d = Exits rc w) before →
  blender e scene_dir = TimesOut writes →
  ∃ st,
    main e a fs = (Uncaught TimeoutExpired, st)
    ∧ trace st = before ++ [scene_dir]
    ∧ successful st + failed st = Z.of_nat (length before).
Proof.
  intros Hdry Hscenes Hscript Hbin Hexits Htimeout.
  unfold main. rewrite Hdry, Hscenes, render_loop_app.
  destruct (render_loop_all_exit e before (initial fs) Hscript Hbin Hexits)
    as (st1 & -> & Hf1 & Htr1 & Hsum1).
  cbn [render_loop]. unfold run_blender, path_exists.
  rewrite !bool_decide_eq_true_2 by (by apply Hf1). cbn [negb].
  rewrite Htimeout. eexists. split; [done|].
  cbn [initial files trace successful failed] in *.
  destruct writes; cbn [files trace successful failed log write_file];
    rewrite Htr1; split; try done; lia.
Qed.

End rerender_errors.

(** Blender renders scene 1 and does not end in time for scene 2. *)
Lemma rerender_timeout_ends_the_run_witness :
  ∃ st,
    RerenderMissing.main Scenario.rerender_env Scenario.rerender_args
      Scenario.rerender_files
    = (RerenderMissing.Uncaught RerenderMissing.TimeoutExpired, st)
    ∧ RerenderMissing.trace st = ["results/scene_001"; "results/scene_002"].
Proof.
  pose proof (rerender_timeout_ends_the_run Scenario.rerender_env
                Scenario.rerender_args Scenario.rerender_files
                ["results/scene_001"] [] "results/scene_002" false)
    as Htimeout.
  premises_by_evaluation Htimeout.
  assert (Forall (λ d, ∃ rc w,
                    RerenderMissing.blender Scenario.rerender_env d
                    = RerenderMissing.Exits rc w) ["results/scene_001"])
    as Hexits.
  { constructor; [|constructor]. by exists 0, true. }
  specialize (Htimeout Hexits).
  premises_by_evaluation Htimeout.
  destruct Htimeout as (st & Hmain & Htrace & _).
  exists st. exact (conj Hmain Htrace).
Defined.
